(** * Razer HID battery protocol engine: a shallow embedding of [razer_common.py]

    The development follows the source file top-down: the report codec
    ([calculate_crc], [construct_razer_report], [validate_response]), device
    discovery ([scan_razer_devices]), the transport
    ([send_and_receive_report]) and the battery queries
    ([get_battery_level], [get_charging_status]).

    Python values are modelled as follows.
    - [int] is [Z]; [x & 0xFF] is [Z.land x 0xFF] (both use the infinite
      two's-complement reading of negative numbers).
    - [bytes], [bytearray] and the list of ints that hidapi returns are
      [list Z]; the operations that check the range 0..255 do so explicitly.
    - [str] and HID paths are [string].
    - a raised exception is the [Raise] alternative of [result]. *)

From Stdlib Require Import ZArith Lia String Ascii List Bool Sorted.
From Stdlib Require Import Floats.SpecFloat.
From stdpp Require Import base numbers option list strings gmap.

Local Open Scope Z_scope.

(** ** Exceptions and results *)

Inductive exn : Type :=
| ValueError (msg : string)
| TypeError (msg : string)
| IndexError (msg : string)
| KeyError (msg : string)
| OverflowError (msg : string)
| OSError (msg : string)
| RuntimeError (msg : string).

Inductive result (A : Type) : Type :=
| Ok (a : A)
| Raise (e : exn).
Arguments Ok {A} a.
Arguments Raise {A} e.

Definition rbind {A B : Type} (m : result A) (k : A -> result B) : result B :=
  match m with
  | Ok a => k a
  | Raise e => Raise e
  end.

Notation "x <-- m ;; k" := (rbind m (fun x => k))
  (at level 100, m at next level, right associativity).

Definition is_ValueError (e : exn) : bool :=
  match e with ValueError _ => true | _ => false end.

(** ** Constants of the module *)

Definition RAZER_STATUS_NEW : Z := 0x00.
Definition RAZER_STATUS_BUSY : Z := 0x01.
Definition RAZER_STATUS_SUCCESS : Z := 0x02.
Definition RAZER_STATUS_FAILURE : Z := 0x03.
Definition RAZER_STATUS_TIMEOUT : Z := 0x04.
Definition RAZER_STATUS_NOT_SUPPORTED : Z := 0x05.

Definition REPORT_LEN : nat := 90.

(** ** Bytes and bytearrays *)

Definition in_byte_range (z : Z) : bool := (0 <=? z) && (z <? 256).

(** An element of the [arguments] list handed to [construct_razer_report]:
    an integer, or any object that [bytes()] cannot read as an integer. *)
Inductive pyval : Type :=
| PyInt (z : Z)
| PyOther.

Definition is_byte_val (v : pyval) : bool :=
  match v with
  | PyInt z => in_byte_range z
  | PyOther => false
  end.

(** [bytes(arguments)]: a [TypeError] on a non-integer, a [ValueError] on an
    integer outside [range(0, 256)], at the first offending element. *)
Fixpoint bytes_of (l : list pyval) : result (list Z) :=
  match l with
  | [] => Ok []
  | PyOther :: _ => Raise (TypeError "object cannot be interpreted as an integer")
  | PyInt z :: l' =>
      if in_byte_range z
      then bs <-- bytes_of l' ;; Ok (z :: bs)
      else Raise (ValueError "bytes must be in range(0, 256)")
  end.

(** [bytearray(n)]: [n] zero bytes. *)
Definition bytearray (n : nat) : list Z := replicate n 0.

(** [report[i] = v] on a bytearray: the index must exist and the value must
    be a byte. *)
Definition setitem (report : list Z) (i : nat) (v : Z) : result (list Z) :=
  if decide (i < length report)%nat
  then if in_byte_range v
       then Ok (<[i:=v]> report)
       else Raise (ValueError "byte must be in range(0, 256)")
  else Raise (IndexError "bytearray index out of range").

(** [report[a:b] = s] for [a <= b]: the slice is replaced by [s]. *)
Definition slice_assign (report : list Z) (a b : nat) (s : list Z) : list Z :=
  take a report ++ s ++ drop b report.

(** ** Report codec *)

(** [calculate_crc]: the loop over [range(2, 88)] skips the positions that
    the buffer does not have. *)
Definition calculate_crc (report_data : list Z) : Z :=
  fold_left
    (fun crc i =>
       match report_data !! i with
       | Some b => Z.lxor crc b
       | None => crc
       end)
    (seq 2 86) 0.

Definition construct_razer_report
    (transaction_id command_class command_id data_size : Z)
    (arguments : list pyval) : result (list Z) :=
  if decide (80 < length arguments)%nat
  then Raise (ValueError "Arguments list too long (max 80 bytes)")
  else
    match bytes_of arguments with
    | Raise _ => Raise (ValueError "Arguments must be byte-like integers (0-255)")
    | Ok arg_bytes =>
        let report := bytearray REPORT_LEN in
        report <-- setitem report 0 0x00 ;;
        report <-- setitem report 1 (Z.land transaction_id 0xFF) ;;
        report <-- setitem report 2 0x00 ;;
        report <-- setitem report 3 0x00 ;;
        report <-- setitem report 4 0x00 ;;
        report <-- setitem report 5 (Z.land data_size 0xFF) ;;
        report <-- setitem report 6 (Z.land command_class 0xFF) ;;
        report <-- setitem report 7 (Z.land command_id 0xFF) ;;
        let arg_len := Nat.min (length arguments) 80 in
        let report := slice_assign report 8 (8 + arg_len) (take arg_len arg_bytes) in
        report <-- setitem report 88 (calculate_crc report) ;;
        report <-- setitem report 89 0x00 ;;
        Ok report
    end.

(** What [validate_response] writes to the logger. *)
Inductive log_record : Type :=
| LogResponseTooShort (n : nat)
| LogDeviceBusy (status : Z)
| LogDeviceReturned (status : Z)
| LogResponseStatus (status : Z)
| LogCrcMismatch (computed expected : Z).

Definition response_crc (response : list Z) : Z :=
  fold_left (fun crc i => Z.lxor crc (default 0 (response !! i))) (seq 3 86) 0.

(** The CRC block of [validate_response]: it only logs. *)
Definition crc_check (response : list Z) : list log_record :=
  if decide (90 <= length response)%nat
  then
    let expected_crc := default 0 (response !! 89%nat) in
    let computed_crc := response_crc response in
    if decide (computed_crc <> expected_crc)
    then [LogCrcMismatch computed_crc expected_crc]
    else []
  else [].

(** [validate_response]: the response is [None] or a list of ints; the
    result is the returned flag together with the records logged. *)
Definition validate_response (response : option (list Z)) : bool * list log_record :=
  match response with
  | None => (false, [LogResponseTooShort 0])
  | Some [] => (false, [LogResponseTooShort 0])
  | Some response =>
      if decide (length response <= 9)%nat
      then (false, [LogResponseTooShort (length response)])
      else
        let status := default 0xFF (response !! 1%nat) in
        if decide (status = RAZER_STATUS_SUCCESS)
        then (true, crc_check response)
        else if decide (status = RAZER_STATUS_BUSY)
        then (false, [LogDeviceBusy status])
        else if decide (status = RAZER_STATUS_FAILURE \/
                        status = RAZER_STATUS_TIMEOUT \/
                        status = RAZER_STATUS_NOT_SUPPORTED)
        then (false, [LogDeviceReturned status])
        else (true, LogResponseStatus status :: crc_check response)
  end.

(** ** Device registry

    The three tables of the module, entry for entry. *)

Definition RAZER_VID : Z := 0x1532.

Definition RAZER_DEVICES_items : list (Z * string) := [
  (0x0013, "Razer Orochi 2011"%string);
  (0x0015, "Razer Naga"%string);
  (0x0016, "Razer DeathAdder 3.5G"%string);
  (0x001F, "Razer Naga Epic"%string);
  (0x0020, "Razer Abyssus 1800"%string);
  (0x0024, "Razer Mamba 2012 (Wired)"%string);
  (0x0025, "Razer Mamba 2012 (Wireless)"%string);
  (0x0029, "Razer DeathAdder 3.5G Black"%string);
  (0x002E, "Razer Naga 2012"%string);
  (0x002F, "Razer Imperator 2012"%string);
  (0x0032, "Razer Ouroboros"%string);
  (0x0034, "Razer Taipan"%string);
  (0x0036, "Razer Naga Hex (Red)"%string);
  (0x0037, "Razer DeathAdder 2013"%string);
  (0x0038, "Razer DeathAdder 1800"%string);
  (0x0039, "Razer Orochi 2013"%string);
  (0x003E, "Razer Naga Epic Chroma (Wired)"%string);
  (0x003F, "Razer Naga Epic Chroma (Wireless)"%string);
  (0x0040, "Razer Naga 2014"%string);
  (0x0041, "Razer Naga Hex"%string);
  (0x0042, "Razer Abyssus"%string);
  (0x0043, "Razer DeathAdder Chroma"%string);
  (0x0044, "Razer Mamba Chroma (Wired)"%string);
  (0x0045, "Razer Mamba Chroma (Wireless)"%string);
  (0x0046, "Razer Mamba Tournament Edition"%string);
  (0x0048, "Razer Orochi (Wired)"%string);
  (0x004C, "Razer Diamondback Chroma"%string);
  (0x004F, "Razer DeathAdder 2000"%string);
  (0x0050, "Razer Naga Hex V2"%string);
  (0x0053, "Razer Naga Chroma"%string);
  (0x0054, "Razer DeathAdder 3500"%string);
  (0x0059, "Razer Lancehead (Wired)"%string);
  (0x005A, "Razer Lancehead (Wireless)"%string);
  (0x005B, "Razer Abyssus V2"%string);
  (0x005C, "Razer DeathAdder Elite"%string);
  (0x005E, "Razer Abyssus 2000"%string);
  (0x0060, "Razer Lancehead Tournament Edition"%string);
  (0x0062, "Razer Atheris (Receiver)"%string);
  (0x0064, "Razer Basilisk"%string);
  (0x0065, "Razer Basilisk Essential"%string);
  (0x0067, "Razer Naga Trinity"%string);
  (0x0068, "Razer Firefly Hyperflux (2018)"%string);
  (0x006A, "Razer Abyssus Elite (D.Va Edition)"%string);
  (0x006B, "Razer Abyssus Essential"%string);
  (0x006C, "Razer Mamba Elite"%string);
  (0x006E, "Razer DeathAdder Essential"%string);
  (0x006F, "Razer Lancehead Wireless (Receiver)"%string);
  (0x0070, "Razer Lancehead Wireless (Wired)"%string);
  (0x0071, "Razer DeathAdder Essential (White Edition)"%string);
  (0x0072, "Razer Mamba Wireless (Receiver)"%string);
  (0x0073, "Razer Mamba Wireless (Wired)"%string);
  (0x0077, "Razer Pro Click (Receiver)"%string);
  (0x0078, "Razer Viper"%string);
  (0x007A, "Razer Viper Ultimate (Wired)"%string);
  (0x007B, "Razer Viper Ultimate (Wireless)"%string);
  (0x007C, "Razer DeathAdder V2 Pro (Wired)"%string);
  (0x007D, "Razer DeathAdder V2 Pro (Wireless)"%string);
  (0x007E, "Razer Mouse Dock"%string);
  (0x0080, "Razer Pro Click (Wired)"%string);
  (0x0083, "Razer Basilisk X HyperSpeed"%string);
  (0x0084, "Razer DeathAdder V2"%string);
  (0x0085, "Razer Basilisk V2"%string);
  (0x0086, "Razer Basilisk Ultimate"%string);
  (0x0088, "Razer Basilisk Ultimate (Receiver)"%string);
  (0x008A, "Razer Viper Mini"%string);
  (0x008C, "Razer DeathAdder V2 Mini"%string);
  (0x008D, "Razer Naga Left Handed Edition 2020"%string);
  (0x008F, "Razer Naga Pro (Wired)"%string);
  (0x0090, "Razer Naga Pro (Wireless)"%string);
  (0x0091, "Razer Viper 8KHz"%string);
  (0x0094, "Razer Orochi V2 (Receiver)"%string);
  (0x0095, "Razer Orochi V2 (Bluetooth)"%string);
  (0x0096, "Razer Naga X"%string);
  (0x0098, "Razer DeathAdder Essential (2021)"%string);
  (0x0099, "Razer Basilisk V3"%string);
  (0x009A, "Razer Pro Click Mini (Receiver)"%string);
  (0x009C, "Razer DeathAdder V2 X HyperSpeed"%string);
  (0x009E, "Razer Viper Mini SE (Wired)"%string);
  (0x009F, "Razer Viper Mini SE (Wireless)"%string);
  (0x00A1, "Razer DeathAdder V2 Lite"%string);
  (0x00A3, "Razer Cobra"%string);
  (0x00A5, "Razer Viper V2 Pro (Wired)"%string);
  (0x00A6, "Razer Viper V2 Pro (Wireless)"%string);
  (0x00A7, "Razer Naga V2 Pro (Wired)"%string);
  (0x00A8, "Razer Naga V2 Pro (Wireless)"%string);
  (0x00AA, "Razer Basilisk V3 Pro (Wired)"%string);
  (0x00AB, "Razer Basilisk V3 Pro (Wireless)"%string);
  (0x00AF, "Razer Cobra Pro (Wired)"%string);
  (0x00B0, "Razer Cobra Pro (Wireless)"%string);
  (0x00B2, "Razer DeathAdder V3"%string);
  (0x00B3, "Razer HyperPolling Wireless Dongle"%string);
  (0x00B4, "Razer Naga V2 HyperSpeed (Receiver)"%string);
  (0x00B6, "Razer DeathAdder V3 Pro (Wired)"%string);
  (0x00B7, "Razer DeathAdder V3 Pro (Wireless)"%string);
  (0x00B8, "Razer Viper V3 HyperSpeed"%string);
  (0x00B9, "Razer Basilisk V3 X HyperSpeed"%string);
  (0x00BE, "Razer DeathAdder V4 Pro (Wired)"%string);
  (0x00BF, "Razer DeathAdder V4 Pro (Wireless)"%string);
  (0x00C0, "Razer Viper V3 Pro (Wired)"%string);
  (0x00C1, "Razer Viper V3 Pro (Wireless)"%string);
  (0x00C2, "Razer DeathAdder V3 Pro (Wired)"%string);
  (0x00C3, "Razer DeathAdder V3 Pro (Wireless)"%string);
  (0x00C4, "Razer DeathAdder V3 HyperSpeed (Wired)"%string);
  (0x00C5, "Razer DeathAdder V3 HyperSpeed (Wireless)"%string);
  (0x00C7, "Razer Pro Click V2 Vertical Edition (Wired)"%string);
  (0x00C8, "Razer Pro Click V2 Vertical Edition (Wireless)"%string);
  (0x00CB, "Razer Basilisk V3 35K"%string);
  (0x00CC, "Razer Basilisk V3 Pro 35K (Wired)"%string);
  (0x00CD, "Razer Basilisk V3 Pro 35K (Wireless)"%string);
  (0x00D0, "Razer Pro Click V2 (Wired)"%string);
  (0x00D1, "Razer Pro Click V2 (Wireless)"%string);
  (0x00D6, "Razer Basilisk V3 Pro 35K Phantom Green Edition (Wired)"%string);
  (0x00D7, "Razer Basilisk V3 Pro 35K Phantom Green Edition (Wireless)"%string);
  (0x010D, "Razer BlackWidow Ultimate 2012"%string);
  (0x010E, "Razer BlackWidow Stealth Edition"%string);
  (0x010F, "Razer Anansi"%string);
  (0x0111, "Razer Nostromo"%string);
  (0x0113, "Razer Orbweaver"%string);
  (0x0118, "Razer DeathStalker/DeathStalker Essential"%string);
  (0x011A, "Razer BlackWidow Ultimate 2013"%string);
  (0x011B, "Razer BlackWidow (Classic)"%string);
  (0x011C, "Razer BlackWidow Tournament Edition 2014"%string);
  (0x0201, "Razer Tartarus"%string);
  (0x0202, "Razer DeathStalker Expert"%string);
  (0x0203, "Razer BlackWidow Chroma"%string);
  (0x0204, "Razer DeathStalker Chroma"%string);
  (0x0205, "Razer Blade Stealth"%string);
  (0x0207, "Razer Orbweaver Chroma"%string);
  (0x0208, "Razer Tartarus Chroma"%string);
  (0x0209, "Razer BlackWidow Tournament Edition Chroma"%string);
  (0x020F, "Razer Blade (QHD)"%string);
  (0x0210, "Razer Blade Pro (Late 2016)"%string);
  (0x0211, "Razer BlackWidow Chroma (Overwatch)"%string);
  (0x0214, "Razer BlackWidow Ultimate 2016"%string);
  (0x0215, "Razer Core"%string);
  (0x0216, "Razer BlackWidow X Chroma"%string);
  (0x0217, "Razer BlackWidow X Ultimate"%string);
  (0x021A, "Razer BlackWidow X Tournament Edition Chroma"%string);
  (0x021E, "Razer Ornata Chroma"%string);
  (0x021F, "Razer Ornata"%string);
  (0x0220, "Razer Blade Stealth (Late 2016)"%string);
  (0x0221, "Razer BlackWidow Chroma V2"%string);
  (0x0224, "Razer Blade (Late 2016)"%string);
  (0x0225, "Razer Blade Pro (2017)"%string);
  (0x0226, "Razer Huntsman Elite"%string);
  (0x0227, "Razer Huntsman"%string);
  (0x0228, "Razer BlackWidow Elite"%string);
  (0x022A, "Razer Cynosa Chroma"%string);
  (0x022B, "Razer Tartarus V2"%string);
  (0x022C, "Razer Cynosa Chroma Pro"%string);
  (0x022D, "Razer Blade Stealth (Mid 2017)"%string);
  (0x022F, "Razer Blade Pro FullHD (2017)"%string);
  (0x0232, "Razer Blade Stealth (Late 2017)"%string);
  (0x0233, "Razer Blade 15 (2018)"%string);
  (0x0234, "Razer Blade Pro 17 (2019)"%string);
  (0x0235, "Razer BlackWidow Lite"%string);
  (0x0237, "Razer BlackWidow Essential"%string);
  (0x0239, "Razer Blade Stealth (2019)"%string);
  (0x023A, "Razer Blade 15 (2019) Advanced"%string);
  (0x023B, "Razer Blade 15 (2018) Base Model"%string);
  (0x023F, "Razer Cynosa Lite"%string);
  (0x0240, "Razer Blade 15 (2018) Mercury"%string);
  (0x0241, "Razer BlackWidow 2019"%string);
  (0x0243, "Razer Huntsman Tournament Edition"%string);
  (0x0244, "Razer Tartarus Pro"%string);
  (0x0245, "Razer Blade 15 (Mid 2019) Mercury"%string);
  (0x0246, "Razer Blade 15 (Mid 2019) Base Model"%string);
  (0x024A, "Razer Blade Stealth (Late 2019)"%string);
  (0x024B, "Razer Blade Advanced (Late 2019)"%string);
  (0x024C, "Razer Blade Pro (Late 2019)"%string);
  (0x024D, "Razer Blade 15 Studio Edition (2019)"%string);
  (0x024E, "Razer BlackWidow V3"%string);
  (0x0252, "Razer Blade Stealth (Early 2020)"%string);
  (0x0253, "Razer Blade 15 Advanced (2020)"%string);
  (0x0255, "Razer Blade Base (Early 2020)"%string);
  (0x0256, "Razer Blade Pro (Early 2020)"%string);
  (0x0257, "Razer Huntsman Mini"%string);
  (0x0258, "Razer BlackWidow V3 Mini HyperSpeed (Wired)"%string);
  (0x0259, "Razer Blade Stealth (Late 2020)"%string);
  (0x025A, "Razer BlackWidow V3 Pro Wired"%string);
  (0x025C, "Razer BlackWidow V3 Pro 2.4 Ghz Wireless"%string);
  (0x025D, "Razer Ornata V2"%string);
  (0x025E, "Razer Cynosa V2"%string);
  (0x0266, "Razer Huntsman V2 Analog"%string);
  (0x0268, "Razer Blade Late 2020 Base"%string);
  (0x0269, "Razer Huntsman Mini JP"%string);
  (0x026A, "Razer Book (2020)"%string);
  (0x026B, "Razer Huntsman V2 Tenkeyless"%string);
  (0x026C, "Razer Huntsman V2"%string);
  (0x026D, "Razer Blade 15 Advanced (Early 2021)"%string);
  (0x026E, "Razer Blade 17 Pro (Early 2021)"%string);
  (0x026F, "Razer Blade Base (Early 2021)"%string);
  (0x0270, "Razer Blade 14 (2021)"%string);
  (0x0271, "Razer BlackWidow V3 Mini HyperSpeed (Wireless)"%string);
  (0x0276, "Razer Blade 15 Advanced (Mid 2021)"%string);
  (0x0279, "Razer Blade 17 Pro (Mid 2021)"%string);
  (0x027A, "Razer Blade Base (Early 2022)"%string);
  (0x0282, "Razer Huntsman Mini Analog"%string);
  (0x0287, "Razer BlackWidow V4"%string);
  (0x028A, "Razer Blade 15 Advanced (Early 2022)"%string);
  (0x028B, "Razer Blade 17 (2022)"%string);
  (0x028C, "Razer Blade 14 (2022)"%string);
  (0x028D, "Razer BlackWidow V4 Pro"%string);
  (0x028F, "Razer Ornata V3 (Alternate)"%string);
  (0x0290, "Razer DeathStalker V2 Pro (Wireless)"%string);
  (0x0292, "Razer DeathStalker V2 Pro (Wired)"%string);
  (0x0293, "Razer BlackWidow V4 X"%string);
  (0x0294, "Razer Ornata V3 X"%string);
  (0x0295, "Razer DeathStalker V2"%string);
  (0x0296, "Razer DeathStalker V2 Pro TKL (Wireless)"%string);
  (0x0298, "Razer DeathStalker V2 Pro TKL (Wired)"%string);
  (0x029D, "Razer Blade 14 (2023)"%string);
  (0x029E, "Razer Blade 15 (2023)"%string);
  (0x029F, "Razer Blade 16 (2023)"%string);
  (0x02A0, "Razer Blade 18 (2023)"%string);
  (0x02A1, "Razer Ornata V3"%string);
  (0x02A2, "Razer Ornata V3 X (Alternate)"%string);
  (0x02A3, "Razer Ornata V3 Tenkeyless"%string);
  (0x02A5, "Razer BlackWidow V4 75%"%string);
  (0x02A6, "Razer Huntsman V3 Pro"%string);
  (0x02A7, "Razer Huntsman V3 Pro TKL"%string);
  (0x02B6, "Razer Blade 14 (2024)"%string);
  (0x02B8, "Razer Blade 18 (2024)"%string);
  (0x02B9, "Razer BlackWidow V4 Mini HyperSpeed (Wired)"%string);
  (0x02BA, "Razer BlackWidow V4 Mini HyperSpeed (Wireless)"%string);
  (0x02C5, "Razer Blade 14 (2025)"%string);
  (0x02C6, "Razer Blade 16 (2025)"%string);
  (0x02C7, "Razer Blade 18 (2025)"%string);
  (0x0501, "Razer Kraken 7.1"%string);
  (0x0504, "Razer Kraken 7.1 Chroma"%string);
  (0x0506, "Razer Kraken 7.1 (Alternate)"%string);
  (0x0510, "Razer Kraken 7.1 V2"%string);
  (0x0517, "Razer Nommo Chroma (Speakers)"%string);
  (0x0518, "Razer Nommo Pro (Speakers)"%string);
  (0x0527, "Razer Kraken Ultimate"%string);
  (0x0560, "Razer Kraken Kitty V2"%string);
  (0x0A24, "Razer BlackWidow V3 TK"%string);
  (0x0C00, "Razer Firefly (2013)"%string);
  (0x0C01, "Razer Goliathus (2018)"%string);
  (0x0C02, "Razer Goliathus Extended (2018)"%string);
  (0x0C04, "Razer Firefly V2"%string);
  (0x0C05, "Razer Strider Chroma"%string);
  (0x0C06, "Razer Goliathus Chroma 3XL"%string);
  (0x0C08, "Razer Firefly V2 Pro"%string);
  (0x0F07, "Razer Chroma Mug Holder"%string);
  (0x0F08, "Razer Base Station Chroma (Headphone Stand)"%string);
  (0x0F09, "Razer Chroma Hardware Development Kit (HDK)"%string);
  (0x0F0D, "Razer Laptop Stand Chroma"%string);
  (0x0F12, "Razer Raptor 27"%string);
  (0x0F17, "Razer Tomahawk ATX"%string);
  (0x0F19, "Razer Kraken Kitty Edition"%string);
  (0x0F1A, "Razer Core X Chroma"%string);
  (0x0F1D, "Razer Mouse Bungee V3 Chroma"%string);
  (0x0F1F, "Razer Chroma Addressable RGB Controller"%string);
  (0x0F20, "Razer Base Station V2 Chroma"%string);
  (0x0F21, "Razer Thunderbolt 4 Dock Chroma"%string);
  (0x0F26, "Razer Charging Pad Chroma"%string);
  (0x0A00, "Razer DeathAdder Chroma"%string);
  (0x0A01, "Razer Mamba Chroma"%string);
  (0x0A02, "Razer Cynosa Chroma"%string);
  (0x0A03, "Razer Tartarus Chroma"%string);
  (0x0F2B, "Razer Laptop Stand Chroma V2"%string)
].

Definition RAZER_DEVICE_TYPES_items : list (Z * string) := [
  (0x010D, "keyboard"%string); (0x010E, "keyboard"%string); (0x010F, "keyboard"%string);
  (0x0111, "keyboard"%string); (0x0113, "keyboard"%string); (0x0118, "keyboard"%string);
  (0x011A, "keyboard"%string); (0x011B, "keyboard"%string); (0x011C, "keyboard"%string);
  (0x0201, "keyboard"%string); (0x0202, "keyboard"%string); (0x0203, "keyboard"%string);
  (0x0204, "keyboard"%string); (0x0205, "keyboard"%string); (0x0207, "keyboard"%string);
  (0x0208, "keyboard"%string); (0x0209, "keyboard"%string); (0x020F, "keyboard"%string);
  (0x0210, "keyboard"%string); (0x0211, "keyboard"%string); (0x0214, "keyboard"%string);
  (0x0216, "keyboard"%string); (0x0217, "keyboard"%string); (0x021A, "keyboard"%string);
  (0x021E, "keyboard"%string); (0x021F, "keyboard"%string); (0x0220, "keyboard"%string);
  (0x0221, "keyboard"%string); (0x0224, "keyboard"%string); (0x0225, "keyboard"%string);
  (0x0226, "keyboard"%string); (0x0227, "keyboard"%string); (0x0228, "keyboard"%string);
  (0x022A, "keyboard"%string); (0x022B, "keyboard"%string); (0x022C, "keyboard"%string);
  (0x022D, "keyboard"%string); (0x022F, "keyboard"%string); (0x0232, "keyboard"%string);
  (0x0233, "keyboard"%string); (0x0234, "keyboard"%string); (0x0235, "keyboard"%string);
  (0x0237, "keyboard"%string); (0x0239, "keyboard"%string); (0x023A, "keyboard"%string);
  (0x023B, "keyboard"%string); (0x023F, "keyboard"%string); (0x0240, "keyboard"%string);
  (0x0241, "keyboard"%string); (0x0243, "keyboard"%string); (0x0244, "keyboard"%string);
  (0x0245, "keyboard"%string); (0x0246, "keyboard"%string); (0x024A, "keyboard"%string);
  (0x024B, "keyboard"%string); (0x024C, "keyboard"%string); (0x024D, "keyboard"%string);
  (0x024E, "keyboard"%string); (0x0252, "keyboard"%string); (0x0253, "keyboard"%string);
  (0x0255, "keyboard"%string); (0x0256, "keyboard"%string); (0x0257, "keyboard"%string);
  (0x0258, "keyboard"%string); (0x0259, "keyboard"%string); (0x025A, "keyboard"%string);
  (0x025C, "keyboard"%string); (0x025D, "keyboard"%string); (0x025E, "keyboard"%string);
  (0x0266, "keyboard"%string); (0x0268, "keyboard"%string); (0x0269, "keyboard"%string);
  (0x026A, "keyboard"%string); (0x026B, "keyboard"%string); (0x026C, "keyboard"%string);
  (0x026D, "keyboard"%string); (0x026E, "keyboard"%string); (0x026F, "keyboard"%string);
  (0x0270, "keyboard"%string); (0x0271, "keyboard"%string); (0x0276, "keyboard"%string);
  (0x0279, "keyboard"%string); (0x027A, "keyboard"%string); (0x0282, "keyboard"%string);
  (0x0287, "keyboard"%string); (0x028A, "keyboard"%string); (0x028B, "keyboard"%string);
  (0x028C, "keyboard"%string); (0x028D, "keyboard"%string); (0x028F, "keyboard"%string);
  (0x0290, "keyboard"%string); (0x0292, "keyboard"%string); (0x0293, "keyboard"%string);
  (0x0294, "keyboard"%string); (0x0295, "keyboard"%string); (0x0296, "keyboard"%string);
  (0x0298, "keyboard"%string); (0x029D, "keyboard"%string); (0x029E, "keyboard"%string);
  (0x029F, "keyboard"%string); (0x02A0, "keyboard"%string); (0x02A1, "keyboard"%string);
  (0x02A2, "keyboard"%string); (0x02A3, "keyboard"%string); (0x02A5, "keyboard"%string);
  (0x02A6, "keyboard"%string); (0x02A7, "keyboard"%string); (0x02B6, "keyboard"%string);
  (0x02B8, "keyboard"%string); (0x02B9, "keyboard"%string); (0x02BA, "keyboard"%string);
  (0x02C5, "keyboard"%string); (0x02C6, "keyboard"%string); (0x02C7, "keyboard"%string);
  (0x0A24, "keyboard"%string); (0x0A00, "mouse"%string); (0x0A01, "mouse"%string);
  (0x0A02, "keyboard"%string); (0x0A03, "keyboard"%string); (0x0013, "mouse"%string);
  (0x0015, "mouse"%string); (0x0016, "mouse"%string); (0x001F, "mouse"%string);
  (0x0020, "mouse"%string); (0x0024, "mouse"%string); (0x0025, "mouse"%string);
  (0x0029, "mouse"%string); (0x002E, "mouse"%string); (0x002F, "mouse"%string);
  (0x0032, "mouse"%string); (0x0034, "mouse"%string); (0x0036, "mouse"%string);
  (0x0037, "mouse"%string); (0x0038, "mouse"%string); (0x0039, "mouse"%string);
  (0x003E, "mouse"%string); (0x003F, "mouse"%string); (0x0040, "mouse"%string);
  (0x0041, "mouse"%string); (0x0042, "mouse"%string); (0x0043, "mouse"%string);
  (0x0044, "mouse"%string); (0x0045, "mouse"%string); (0x0046, "mouse"%string);
  (0x0048, "mouse"%string); (0x004C, "mouse"%string); (0x004F, "mouse"%string);
  (0x0050, "mouse"%string); (0x0053, "mouse"%string); (0x0054, "mouse"%string);
  (0x0059, "mouse"%string); (0x005A, "mouse"%string); (0x005B, "mouse"%string);
  (0x005C, "mouse"%string); (0x005E, "mouse"%string); (0x0060, "mouse"%string);
  (0x0062, "mouse"%string); (0x0064, "mouse"%string); (0x0065, "mouse"%string);
  (0x0067, "mouse"%string); (0x006A, "mouse"%string); (0x006B, "mouse"%string);
  (0x006C, "mouse"%string); (0x006E, "mouse"%string); (0x006F, "mouse"%string);
  (0x0070, "mouse"%string); (0x0071, "mouse"%string); (0x0072, "mouse"%string);
  (0x0073, "mouse"%string); (0x0077, "mouse"%string); (0x0078, "mouse"%string);
  (0x007A, "mouse"%string); (0x007B, "mouse"%string); (0x007C, "mouse"%string);
  (0x007D, "mouse"%string); (0x0080, "mouse"%string); (0x0083, "mouse"%string);
  (0x0084, "mouse"%string); (0x0085, "mouse"%string); (0x0086, "mouse"%string);
  (0x0088, "mouse"%string); (0x008A, "mouse"%string); (0x008C, "mouse"%string);
  (0x008D, "mouse"%string); (0x008F, "mouse"%string); (0x0090, "mouse"%string);
  (0x0091, "mouse"%string); (0x0094, "mouse"%string); (0x0095, "mouse"%string);
  (0x0096, "mouse"%string); (0x0098, "mouse"%string); (0x0099, "mouse"%string);
  (0x009A, "mouse"%string); (0x009C, "mouse"%string); (0x009E, "mouse"%string);
  (0x009F, "mouse"%string); (0x00A1, "mouse"%string); (0x00A3, "mouse"%string);
  (0x00A5, "mouse"%string); (0x00A6, "mouse"%string); (0x00A7, "mouse"%string);
  (0x00A8, "mouse"%string); (0x00AA, "mouse"%string); (0x00AB, "mouse"%string);
  (0x00AF, "mouse"%string); (0x00B0, "mouse"%string); (0x00B2, "mouse"%string);
  (0x00B3, "dongle"%string); (0x00B4, "mouse"%string); (0x00B6, "mouse"%string);
  (0x00B7, "mouse"%string); (0x00B8, "mouse"%string); (0x00B9, "mouse"%string);
  (0x00BE, "mouse"%string); (0x00BF, "mouse"%string); (0x00C0, "mouse"%string);
  (0x00C1, "mouse"%string); (0x00C2, "mouse"%string); (0x00C3, "mouse"%string);
  (0x00C4, "mouse"%string); (0x00C5, "mouse"%string); (0x00C7, "mouse"%string);
  (0x00C8, "mouse"%string); (0x00CB, "mouse"%string); (0x00CC, "mouse"%string);
  (0x00CD, "mouse"%string); (0x00D0, "mouse"%string); (0x00D1, "mouse"%string);
  (0x00D6, "mouse"%string); (0x00D7, "mouse"%string); (0x0068, "mousepad"%string);
  (0x0C00, "mousepad"%string); (0x0C01, "mousepad"%string); (0x0C02, "mousepad"%string);
  (0x0C04, "mousepad"%string); (0x0C05, "mousepad"%string); (0x0C06, "mousepad"%string);
  (0x0C08, "mousepad"%string); (0x0501, "headset"%string); (0x0504, "headset"%string);
  (0x0506, "headset"%string); (0x0510, "headset"%string); (0x0527, "headset"%string);
  (0x0560, "headset"%string); (0x0F19, "headset"%string); (0x0517, "speaker"%string);
  (0x0518, "speaker"%string); (0x007E, "accessory"%string); (0x0215, "accessory"%string);
  (0x0F07, "accessory"%string); (0x0F08, "accessory"%string); (0x0F09, "accessory"%string);
  (0x0F0D, "accessory"%string); (0x0F12, "accessory"%string); (0x0F17, "accessory"%string);
  (0x0F1A, "accessory"%string); (0x0F1D, "accessory"%string); (0x0F1F, "accessory"%string);
  (0x0F20, "accessory"%string); (0x0F21, "accessory"%string); (0x0F26, "accessory"%string);
  (0x0F2B, "accessory"%string)
].

Definition RAZER_TRANSACTION_IDS_items : list (Z * Z) := [
  (0x0013, 0xFF); (0x0015, 0x3F); (0x0016, 0x3F); (0x001F, 0x3F); (0x0020, 0x3F);
  (0x0024, 0x3F); (0x0025, 0x3F); (0x0029, 0x3F); (0x002E, 0x3F); (0x002F, 0x3F);
  (0x0032, 0x3F); (0x0034, 0x3F); (0x0036, 0x3F); (0x0037, 0x3F); (0x0038, 0x3F);
  (0x0039, 0x3F); (0x003E, 0x3F); (0x003F, 0x3F); (0x0040, 0xFF); (0x0041, 0x3F);
  (0x0042, 0x3F); (0x0043, 0x3F); (0x0044, 0x3F); (0x0045, 0x3F); (0x0046, 0x3F);
  (0x0048, 0x3F); (0x004C, 0x3F); (0x004F, 0x3F); (0x0050, 0x3F); (0x0053, 0x3F);
  (0x0054, 0x3F); (0x0059, 0x3F); (0x005A, 0x3F); (0x005B, 0x3F); (0x005C, 0x3F);
  (0x005E, 0x3F); (0x0060, 0x3F); (0x0062, 0x1F); (0x0064, 0x3F); (0x0065, 0x3F);
  (0x0067, 0x1F); (0x006A, 0x3F); (0x006B, 0x3F); (0x006C, 0x1F); (0x006E, 0x3F);
  (0x006F, 0x1F); (0x0070, 0x1F); (0x0071, 0x3F); (0x0072, 0x3F); (0x0073, 0x3F);
  (0x0077, 0x1F); (0x0078, 0x3F); (0x007A, 0x3F); (0x007B, 0x3F); (0x007C, 0x3F);
  (0x007D, 0x3F); (0x0080, 0x1F); (0x0083, 0xFF); (0x0084, 0x3F); (0x0085, 0x1F);
  (0x0086, 0x1F); (0x0088, 0x1F); (0x008A, 0x3F); (0x008C, 0x3F); (0x008D, 0x1F);
  (0x008F, 0x1F); (0x0090, 0x1F); (0x0091, 0x1F); (0x0094, 0x1F); (0x0095, 0x1F);
  (0x0096, 0x1F); (0x0098, 0x3F); (0x0099, 0x1F); (0x009A, 0x1F); (0x009C, 0x1F);
  (0x009E, 0x1F); (0x009F, 0x1F); (0x00A1, 0x1F); (0x00A3, 0x1F); (0x00A5, 0x1F);
  (0x00A6, 0x1F); (0x00A7, 0x1F); (0x00A8, 0x1F); (0x00AA, 0x1F); (0x00AB, 0x1F);
  (0x00AF, 0x1F); (0x00B0, 0x1F); (0x00B2, 0x1F); (0x00B3, 0x1F); (0x00B4, 0x1F);
  (0x00B6, 0x1F); (0x00B7, 0x1F); (0x00B8, 0x1F); (0x00B9, 0x1F); (0x00BE, 0x1F);
  (0x00BF, 0x1F); (0x00C0, 0x1F); (0x00C1, 0x1F); (0x00C2, 0x1F); (0x00C3, 0x1F);
  (0x00C4, 0x1F); (0x00C5, 0x1F); (0x00C7, 0x1F); (0x00C8, 0x1F); (0x00CB, 0x1F);
  (0x00CC, 0x1F); (0x00CD, 0x1F); (0x00D0, 0x1F); (0x00D1, 0x1F); (0x00D6, 0x1F);
  (0x00D7, 0x1F); (0x010D, 0xFF); (0x010E, 0xFF); (0x010F, 0xFF); (0x0111, 0xFF);
  (0x0113, 0xFF); (0x0118, 0xFF); (0x011A, 0xFF); (0x011B, 0xFF); (0x011C, 0xFF);
  (0x0201, 0xFF); (0x0202, 0xFF); (0x0203, 0xFF); (0x0204, 0xFF); (0x0205, 0xFF);
  (0x0207, 0x3F); (0x0208, 0xFF); (0x0209, 0xFF); (0x020F, 0xFF); (0x0210, 0xFF);
  (0x0211, 0xFF); (0x0214, 0xFF); (0x0216, 0xFF); (0x0217, 0xFF); (0x021A, 0xFF);
  (0x021E, 0x3F); (0x021F, 0x3F); (0x0220, 0xFF); (0x0221, 0x3F); (0x0224, 0x3F);
  (0x0225, 0xFF); (0x0226, 0x3F); (0x0227, 0x3F); (0x0228, 0x1F); (0x022A, 0x3F);
  (0x022B, 0x1F); (0x022C, 0x3F); (0x022D, 0xFF); (0x022F, 0xFF); (0x0232, 0xFF);
  (0x0233, 0xFF); (0x0234, 0xFF); (0x0235, 0x3F); (0x0237, 0x3F); (0x0239, 0xFF);
  (0x023A, 0xFF); (0x023B, 0xFF); (0x023F, 0x3F); (0x0240, 0xFF); (0x0241, 0x3F);
  (0x0243, 0x3F); (0x0244, 0x1F); (0x0245, 0xFF); (0x0246, 0xFF); (0x024A, 0xFF);
  (0x024B, 0xFF); (0x024C, 0xFF); (0x024D, 0xFF); (0x024E, 0x1F); (0x0252, 0xFF);
  (0x0253, 0xFF); (0x0255, 0xFF); (0x0256, 0xFF); (0x0257, 0x3F); (0x0258, 0x1F);
  (0x0259, 0xFF); (0x025A, 0x1F); (0x025C, 0x9F); (0x025D, 0x1F); (0x025E, 0x1F);
  (0x0266, 0x1F); (0x0268, 0xFF); (0x0269, 0x3F); (0x026A, 0xFF); (0x026B, 0x1F);
  (0x026C, 0x1F); (0x026D, 0xFF); (0x026E, 0xFF); (0x026F, 0xFF); (0x0270, 0xFF);
  (0x0271, 0x9F); (0x0276, 0xFF); (0x0279, 0xFF); (0x027A, 0x1F); (0x0282, 0x1F);
  (0x0287, 0x1F); (0x028A, 0xFF); (0x028B, 0xFF); (0x028C, 0xFF); (0x028D, 0x1F);
  (0x028F, 0x1F); (0x0290, 0x9F); (0x0292, 0x1F); (0x0293, 0x1F); (0x0294, 0x1F);
  (0x0295, 0x1F); (0x0296, 0x9F); (0x0298, 0x1F); (0x029D, 0xFF); (0x029E, 0xFF);
  (0x029F, 0xFF); (0x02A0, 0xFF); (0x02A1, 0x1F); (0x02A2, 0x1F); (0x02A3, 0x1F);
  (0x02A5, 0x1F); (0x02A6, 0x1F); (0x02A7, 0x1F); (0x02B6, 0xFF); (0x02B8, 0xFF);
  (0x02B9, 0x1F); (0x02BA, 0x9F); (0x02C5, 0xFF); (0x02C6, 0xFF); (0x02C7, 0xFF);
  (0x0A00, 0x1F); (0x0A01, 0x1F); (0x0A02, 0x3F); (0x0A03, 0x3F); (0x0A24, 0x1F)
].

Definition RAZER_DEVICES : gmap Z string := list_to_map RAZER_DEVICES_items.
Definition RAZER_DEVICE_TYPES : gmap Z string := list_to_map RAZER_DEVICE_TYPES_items.
Definition RAZER_TRANSACTION_IDS : gmap Z Z := list_to_map RAZER_TRANSACTION_IDS_items.

Definition get_device_type (pid : Z) : string :=
  default "unknown"%string (RAZER_DEVICE_TYPES !! pid).

Definition get_transaction_id (pid : Z) : Z :=
  default 0x00 (RAZER_TRANSACTION_IDS !! pid).

(** ** Device descriptors and HID enumeration entries

    The dictionaries of the module are records; a field of type [option] is
    a key that may be absent. *)

Module Iface.
Record t : Type := mk {
  path : string;
  interface_number : option Z;
}.
End Iface.

Module Dev.
Record t : Type := mk {
  name : string;
  pid : Z;
  type : string;
  transaction_id : option Z;
  interfaces : list Iface.t;
  preferred_interface_path : option string;
  _diag_last_ok : option bool;
  _diag_last_command : option string;
  _diag_last_interface : option Z;
  _diag_last_attempted_interfaces : option (list Z);
  _diag_last_io_errors : option (list string);
  _diag_last_open_failed_count : option Z;
}.
End Dev.

Module Entry.
Record t : Type := mk {
  product_id : option Z;
  path : option string;
  interface_number : option Z;
  serial_number : option string;
  product_string : option string;
}.
End Entry.

(** [d[key]]: a [KeyError] when the key is absent. *)
Definition getitem {A : Type} (key : string) (field : option A) : result A :=
  match field with
  | Some v => Ok v
  | None => Raise (KeyError key)
  end.

(** A dict that remembers insertion order, as Python's does. *)
Section Dict.
Context {K V : Type} `{EqDecision K}.

Fixpoint dict_get (k : K) (d : list (K * V)) : option V :=
  match d with
  | [] => None
  | (k', v) :: d' => if decide (k = k') then Some v else dict_get k d'
  end.

Fixpoint dict_set (k : K) (v : V) (d : list (K * V)) : list (K * V) :=
  match d with
  | [] => [(k, v)]
  | (k', v') :: d' =>
      if decide (k = k') then (k, v) :: d' else (k', v') :: dict_set k v d'
  end.
End Dict.

(** The format [{pid:04X}] for a product id, which is never negative. *)
Definition hex_digit (d : Z) : ascii :=
  nth (Z.to_nat d) (list_ascii_of_string "0123456789ABCDEF") "0"%char.

Fixpoint hex_digits (fuel : nat) (n : Z) (acc : list ascii) : list ascii :=
  match fuel with
  | O => acc
  | S fuel' =>
      let acc' := hex_digit (n mod 16) :: acc in
      if n / 16 =? 0 then acc' else hex_digits fuel' (n / 16) acc'
  end.

Definition format_04X (n : Z) : string :=
  let ds := hex_digits (S (Z.to_nat (Z.log2 n))) n [] in
  string_of_list_ascii (replicate (4 - length ds) "0"%char ++ ds).

Definition unknown_device_name (pid : Z) : string :=
  ("Unknown (PID: 0x" ++ format_04X pid ++ ")")%string.

(** ** Device discovery *)

Abbreviation group_key := (string * string * Z)%type.

(** [d.get('product_id') in parameterized_pids] *)
Definition in_parameterized_pids (d : Entry.t) : bool :=
  match Entry.product_id d with
  | Some pid => bool_decide (is_Some (RAZER_DEVICES !! pid))
  | None => false
  end.

(** The body of the [try] in the loop of [scan_razer_devices]. *)
Definition scan_entry (devices_grouped : list (group_key * Dev.t)) (dev : Entry.t)
  : result (list (group_key * Dev.t)) :=
  pid <-- getitem "product_id" (Entry.product_id dev) ;;
  path <-- getitem "path" (Entry.path dev) ;;
  let name := default (unknown_device_name pid) (RAZER_DEVICES !! pid) in
  let device_type := get_device_type pid in
  let transaction_id := get_transaction_id pid in
  let interface_num := default (-1) (Entry.interface_number dev) in
  let serial := default "N/A"%string (Entry.serial_number dev) in
  let prod_str := default "N/A"%string (Entry.product_string dev) in
  let key := (serial, prod_str, pid) in
  let devices_grouped :=
    match dict_get key devices_grouped with
    | Some _ => devices_grouped
    | None =>
        dict_set key
          (Dev.mk name pid device_type (Some transaction_id) []
                  None None None None None None None)
          devices_grouped
    end in
  group <-- getitem "key" (dict_get key devices_grouped) ;;
  let existing_paths := Iface.path <$> Dev.interfaces group in
  if decide (path ∈ existing_paths)
  then Ok devices_grouped
  else
    let group' :=
      Dev.mk (Dev.name group) (Dev.pid group) (Dev.type group)
             (Dev.transaction_id group)
             (Dev.interfaces group ++ [Iface.mk path (Some interface_num)])
             (Dev.preferred_interface_path group)
             (Dev._diag_last_ok group) (Dev._diag_last_command group)
             (Dev._diag_last_interface group)
             (Dev._diag_last_attempted_interfaces group)
             (Dev._diag_last_io_errors group)
             (Dev._diag_last_open_failed_count group) in
    Ok (dict_set key group' devices_grouped).

(** The loop over [enumerated]: [KeyError] and [TypeError] skip the entry,
    any other exception leaves the function. *)
Fixpoint scan_loop (enumerated : list Entry.t)
    (devices_grouped : list (group_key * Dev.t))
  : result (list (group_key * Dev.t)) :=
  match enumerated with
  | [] => Ok devices_grouped
  | dev :: rest =>
      match scan_entry devices_grouped dev with
      | Ok devices_grouped' => scan_loop rest devices_grouped'
      | Raise (KeyError _) | Raise (TypeError _) => scan_loop rest devices_grouped
      | Raise e => Raise e
      end
  end.

(** [hid.enumerate(RAZER_VID, 0x0)] either raises or returns the entries. *)
Inductive enumerate_outcome : Type :=
| EnumerateRaises (msg : string)
| EnumerateReturns (all_devices : list Entry.t).

(** The dictionary [devices_grouped] at the end of the scan. *)
Definition scan_grouped (all_devices : list Entry.t)
  : result (list (group_key * Dev.t)) :=
  scan_loop (List.filter in_parameterized_pids all_devices) [].

Definition scan_razer_devices (enumeration : enumerate_outcome) : result (list Dev.t) :=
  match enumeration with
  | EnumerateRaises _ => Ok []
  | EnumerateReturns all_devices =>
      match all_devices with
      | [] => Ok []
      | _ =>
          let enumerated := List.filter in_parameterized_pids all_devices in
          match enumerated with
          | [] => Ok []
          | _ =>
              devices_grouped <-- scan_loop enumerated [] ;;
              Ok (snd <$> devices_grouped)
          end
      end
  end.

(** ** Transport *)

(** One pass through the [try] block of [send_and_receive_report] opens the
    path, sends the report and reads the answer.  The HID subsystem is a
    function of the calls made so far: it either raises, or hands back what
    [get_feature_report] returned after a clean close. *)
Record hid_call : Type := mk_call {
  call_path : string;
  call_data : list Z;
}.

Definition hid_env : Type := list hid_call -> hid_call -> result (option (list Z)).

(** [str(e)] *)
Definition exn_msg (e : exn) : string :=
  match e with
  | ValueError m | TypeError m | IndexError m | KeyError m
  | OverflowError m | OSError m | RuntimeError m => m
  end.

(** [msg.lower()] on the ASCII letters. *)
Definition lower_ascii (c : ascii) : ascii :=
  let n := nat_of_ascii c in
  if (65 <=? n)%nat && (n <=? 90)%nat then ascii_of_nat (n + 32) else c.

Fixpoint lower (s : string) : string :=
  match s with
  | EmptyString => EmptyString
  | String c s' => String (lower_ascii c) (lower s')
  end.

(** [sub in s] *)
Fixpoint contains (sub s : string) : bool :=
  if String.prefix sub s then true
  else match s with
       | EmptyString => false
       | String _ s' => contains sub s'
       end.

(** The sort key of an interface and the order of Python tuples. *)
Definition sort_key (preferred_path : option string) (iface : Iface.t) : Z * Z * Z :=
  ((match preferred_path with
    | Some p => if decide (Iface.path iface = p) then 0 else 1
    | None => 1
    end,
    if decide (default (-1) (Iface.interface_number iface) = 0) then 0 else 1),
   default 999 (Iface.interface_number iface)).

Definition key_ltb (a b : Z * Z * Z) : bool :=
  let '(a1, a2, a3) := a in
  let '(b1, b2, b3) := b in
  (a1 <? b1) || ((a1 =? b1) && ((a2 <? b2) || ((a2 =? b2) && (a3 <? b3)))).

(** [list.sort(key=...)] is stable: an element is placed after the elements
    with a smaller key and before the later elements with an equal key. *)
Section Sort.
Context {A : Type} (key : A -> Z * Z * Z).

Fixpoint insert_stable (x : A) (l : list A) : list A :=
  match l with
  | [] => [x]
  | y :: l' =>
      if key_ltb (key y) (key x) then y :: insert_stable x l' else x :: l
  end.

Fixpoint sort_by_key (l : list A) : list A :=
  match l with
  | [] => []
  | x :: l' => insert_stable x (sort_by_key l')
  end.
End Sort.

(** The local variables of one exchange, and the calls made so far. *)
Record exchange_state : Type := mk_state {
  attempted_ifaces : list Z;
  io_errors : list string;
  open_failed_count : Z;
  history : list hid_call;
}.

(** How one iteration of the attempt loop ends. *)
Inductive attempt_exit : Type :=
| ExitReturn (response : option (list Z))
| ExitBreak
| ExitContinue.

Definition attempt (env : hid_env) (report_with_id : list Z) (path : string)
    (st : exchange_state) : attempt_exit * exchange_state :=
  let call := mk_call path report_with_id in
  let h := history st ++ [call] in
  match env (history st) call with
  | Ok response =>
      let st' := mk_state (attempted_ifaces st) (io_errors st) (open_failed_count st) h in
      if fst (validate_response response)
      then (ExitReturn response, st')
      else (ExitBreak, st')
  | Raise (OSError msg) =>
      let count :=
        if contains "open failed" (lower msg)
        then open_failed_count st + 1
        else open_failed_count st in
      (ExitContinue, mk_state (attempted_ifaces st) (io_errors st ++ [msg]) count h)
  | Raise (ValueError msg) =>
      (ExitBreak,
       mk_state (attempted_ifaces st) (io_errors st ++ [msg]) (open_failed_count st) h)
  | Raise e =>
      (ExitContinue,
       mk_state (attempted_ifaces st) (io_errors st ++ [exn_msg e])
                (open_failed_count st) h)
  end.

(** [for attempt in range(2)]: [Some response] when the function returns
    from inside the loop, [None] when the loop is left for the next
    interface. *)
Fixpoint attempts_loop (env : hid_env) (report_with_id : list Z) (path : string)
    (attempts : list nat) (st : exchange_state)
  : option (option (list Z)) * exchange_state :=
  match attempts with
  | [] => (None, st)
  | _ :: rest =>
      match attempt env report_with_id path st with
      | (ExitReturn response, st') => (Some response, st')
      | (ExitBreak, st') => (None, st')
      | (ExitContinue, st') => attempts_loop env report_with_id path rest st'
      end
  end.

(** [for iface in interfaces] *)
Fixpoint interfaces_loop (env : hid_env) (report_with_id : list Z)
    (ifaces : list Iface.t) (st : exchange_state)
  : option (Iface.t * option (list Z)) * exchange_state :=
  match ifaces with
  | [] => (None, st)
  | iface :: rest =>
      let path := Iface.path iface in
      let iface_num := default (-1) (Iface.interface_number iface) in
      let st1 := mk_state (attempted_ifaces st ++ [iface_num]) (io_errors st)
                          (open_failed_count st) (history st) in
      match attempts_loop env report_with_id path (seq 0 2) st1 with
      | (Some response, st') => (Some (iface, response), st')
      | (None, st') => interfaces_loop env report_with_id rest st'
      end
  end.

(** [l[-5:]] *)
Definition last5 {A : Type} (l : list A) : list A := drop (length l - 5) l.

Definition send_and_receive_report (env : hid_env) (selected_device : Dev.t)
    (report : list Z) (command_desc : string) (h : list hid_call)
  : option (list Z) * Dev.t * list hid_call :=
  let report_with_id := 0 :: report in
  let preferred_path := Dev.preferred_interface_path selected_device in
  let interfaces :=
    sort_by_key (sort_key preferred_path) (Dev.interfaces selected_device) in
  let d := selected_device in
  match interfaces_loop env report_with_id interfaces (mk_state [] [] 0 h) with
  | (Some (iface, response), st) =>
      (response,
       Dev.mk (Dev.name d) (Dev.pid d) (Dev.type d) (Dev.transaction_id d)
              (Dev.interfaces d)
              (Some (Iface.path iface))
              (Some true)
              (Some command_desc)
              (Some (default (-1) (Iface.interface_number iface)))
              (Some (attempted_ifaces st))
              (Some (last5 (io_errors st)))
              (Some (open_failed_count st)),
       history st)
  | (None, st) =>
      (None,
       Dev.mk (Dev.name d) (Dev.pid d) (Dev.type d) (Dev.transaction_id d)
              (Dev.interfaces d)
              (Dev.preferred_interface_path d)
              (Some false)
              (Some command_desc)
              (Dev._diag_last_interface d)
              (Some (attempted_ifaces st))
              (Some (last5 (io_errors st)))
              (Some (open_failed_count st)),
       history st)
  end.

(** ** Battery queries *)

(** Python's [float] is IEEE 754 binary64; [spec_float] with precision 53 and
    [emax] 1024 is its specification.  [raw / 255 * 100] converts the
    integers to floats (exactly, below 2^53), divides and multiplies with one
    rounding each. *)
Definition float_of_int (z : Z) : spec_float := binary_normalize 53 1024 z 0 false.
Definition float_div (x y : spec_float) : spec_float := SFdiv 53 1024 x y.
Definition float_mul (x y : spec_float) : spec_float := SFmul 53 1024 x y.

(** [round(x)] on a float: the nearest integer, ties to the even one;
    infinities and NaN raise. *)
Definition py_round (x : spec_float) : result Z :=
  match x with
  | S754_zero _ => Ok 0
  | S754_infinity _ => Raise (OverflowError "cannot convert float infinity to integer")
  | S754_nan => Raise (ValueError "cannot convert float NaN to integer")
  | S754_finite s m e =>
      let n :=
        match e with
        | Zneg p =>
            let d := 2 ^ Zpos p in
            let q := Zpos m / d in
            let r := Zpos m mod d in
            match 2 * r ?= d with
            | Lt => q
            | Gt => q + 1
            | Eq => if Z.even q then q else q + 1
            end
        | _ => Zpos m * 2 ^ e
        end in
      Ok (if s then - n else n)
  end.

(** [min(max(round(raw / 255 * 100), 0), 100)] *)
Definition battery_percent (raw : Z) : result Z :=
  n <-- py_round (float_mul (float_div (float_of_int raw) (float_of_int 255))
                            (float_of_int 100)) ;;
  Ok (Z.min (Z.max n 0) 100).

(** [response and len(response) > 10], then [response[10]] *)
Definition usable_byte (response : option (list Z)) : option Z :=
  match response with
  | None => None
  | Some resp => if decide (10 < length resp)%nat then resp !! 10%nat else None
  end.

(** [for attempt in range(2)] of [get_battery_level] *)
Fixpoint battery_loop (env : hid_env) (device : Dev.t) (report : list Z)
    (attempts : list nat) (h : list hid_call) : result Z * Dev.t * list hid_call :=
  match attempts with
  | [] => (Ok (-1), device, h)
  | _ :: rest =>
      let '(response, device', h') :=
        send_and_receive_report env device report "get_battery_level" h in
      match usable_byte response with
      | Some raw => (battery_percent raw, device', h')
      | None => battery_loop env device' report rest h'
      end
  end.

Definition get_battery_level (env : hid_env) (device : Dev.t) (h : list hid_call)
  : result Z * Dev.t * list hid_call :=
  let tid := default 0x1F (Dev.transaction_id device) in
  match construct_razer_report tid 0x07 0x80 0x02 [PyInt 0x00; PyInt 0x00] with
  | Raise e => (Raise e, device, h)
  | Ok report => battery_loop env device report (seq 0 2) h
  end.

(** [for attempt in range(2)] of [get_charging_status] *)
Fixpoint charging_loop (env : hid_env) (device : Dev.t) (report : list Z)
    (attempts : list nat) (h : list hid_call) : result bool * Dev.t * list hid_call :=
  match attempts with
  | [] => (Ok false, device, h)
  | _ :: rest =>
      let '(response, device', h') :=
        send_and_receive_report env device report "get_charging_status" h in
      match usable_byte response with
      | Some raw => (Ok (0 <? raw), device', h')
      | None => charging_loop env device' report rest h'
      end
  end.

Definition get_charging_status (env : hid_env) (device : Dev.t) (h : list hid_call)
  : result bool * Dev.t * list hid_call :=
  let tid := default 0x1F (Dev.transaction_id device) in
  match construct_razer_report tid 0x07 0x84 0x02 [PyInt 0x00; PyInt 0x00] with
  | Raise e => (Raise e, device, h)
  | Ok report => charging_loop env device report (seq 0 2) h
  end.

(** ** Lighting arguments, device classes and the one-shot send *)

Definition VARSTORE : Z := 0x01.

Definition build_arguments (effect_code led_id : Z) (extra_params : list pyval)
  : list pyval :=
  [PyInt VARSTORE; PyInt led_id; PyInt effect_code; PyInt 0x00; PyInt 0x00; PyInt 0x01]
  ++ extra_params.

Definition is_mouse_device (pid : Z) : bool :=
  bool_decide (get_device_type pid = "mouse"%string).

Definition is_keyboard_device (pid : Z) : bool :=
  bool_decide (get_device_type pid = "keyboard"%string).

(** One pass through the [try] block of [send_report_to_device]: the HID
    subsystem raises, or [send_feature_report] returns the number of bytes
    written.  Every exception is logged and swallowed, and so is a failing
    [close]. *)
Definition send_env : Type := list hid_call -> hid_call -> result Z.

Fixpoint send_loop (env : send_env) (report_with_id : list Z)
    (ifaces : list Iface.t) (success : bool) (h : list hid_call)
  : bool * list hid_call :=
  match ifaces with
  | [] => (success, h)
  | iface :: rest =>
      let call := mk_call (Iface.path iface) report_with_id in
      let success' :=
        match env h call with
        | Ok bytes_written =>
            if decide (bytes_written = Z.of_nat (length report_with_id))
            then true else success
        | Raise _ => success
        end in
      send_loop env report_with_id rest success' (h ++ [call])
  end.

Definition send_report_to_device (env : send_env) (selected_device : Dev.t)
    (report : list Z) (h : list hid_call) : bool * list hid_call :=
  send_loop env (0 :: report) (Dev.interfaces selected_device) false h.

(** ** The callers in [razer_battery_tray.py] *)

Definition DISCONNECTED_POLL : Z := 30.
Definition MAX_FAILURE_BACKOFF : Z := 300.

Definition ICON_NAMES : gmap string string :=
  list_to_map
    [("critical", "battery_critical"); ("low", "battery_low");
     ("medium", "battery_medium"); ("full", "battery_full");
     ("charging_low", "battery_charging_low"); ("charging", "battery_charging");
     ("disconnected", "battery_disconnected")]%string.

Definition _get_icon_state (battery : Z) (charging : bool) : string :=
  if charging then (if 30 <? battery then "charging"%string else "charging_low"%string)
  else if battery <=? 10 then "critical"%string
  else if battery <=? 30 then "low"%string
  else if battery <=? 60 then "medium"%string
  else "full"%string.

Definition _failure_backoff (consecutive_failures : Z) : Z :=
  if consecutive_failures <=? 1 then DISCONNECTED_POLL
  else
    let exponent := Z.min (consecutive_failures - 1) 4 in
    Z.min (DISCONNECTED_POLL * 2 ^ exponent) MAX_FAILURE_BACKOFF.

(** [_prioritize_device_interfaces]: nothing happens without a device. *)
Definition _prioritize_device_interfaces (device : option Dev.t) : option Dev.t :=
  match device with
  | None => None
  | Some d =>
      let interfaces := Dev.interfaces d in
      let preferred_path := Dev.preferred_interface_path d in
      let interfaces := sort_by_key (sort_key preferred_path) interfaces in
      Some (Dev.mk (Dev.name d) (Dev.pid d) (Dev.type d) (Dev.transaction_id d)
                   interfaces
                   (Dev.preferred_interface_path d)
                   (Dev._diag_last_ok d) (Dev._diag_last_command d)
                   (Dev._diag_last_interface d)
                   (Dev._diag_last_attempted_interfaces d)
                   (Dev._diag_last_io_errors d)
                   (Dev._diag_last_open_failed_count d))
  end.

(** [_last_failure_is_full_open_failure(device)], with [self.device] as the
    second argument. *)
Definition _last_failure_is_full_open_failure (device self_device : option Dev.t)
  : bool :=
  let target := match device with Some d => Some d | None => self_device end in
  match target with
  | None => false
  | Some target =>
      if default true (Dev._diag_last_ok target) then false
      else
        let attempted := default [] (Dev._diag_last_attempted_interfaces target) in
        let open_failed_count := default 0 (Dev._diag_last_open_failed_count target) in
        match attempted with
        | [] => false
        | _ => Z.of_nat (length attempted) <=? open_failed_count
        end
  end.

(** The part of the application state that [find_device] writes. *)
Record app_device : Type := mk_app_device {
  device : option Dev.t;
  device_name_item_title : string;
}.

(** [find_device], given what [scan_razer_devices()] did. *)
Definition find_device (scan : result (list Dev.t)) (app : app_device) : app_device :=
  match scan with
  | Ok devices =>
      let mice := List.filter (fun d => bool_decide (Dev.type d = "mouse"%string)) devices in
      match mice with
      | m :: _ =>
          let device := _prioritize_device_interfaces (Some m) in
          mk_app_device device (Dev.name m)
      | [] => mk_app_device None "No device found"
      end
  | Raise _ => mk_app_device None "No device found"
  end.

(** [_check_low_battery]: the new flag [low_battery_notified] and the
    notification fired, given by its subtitle and the battery level shown in
    its message. *)
Definition _check_low_battery (low_battery_notify : bool) (threshold : Z)
    (device : option Dev.t) (battery : Z) (low_battery_notified : bool)
  : bool * option (string * Z) :=
  if negb low_battery_notify then (low_battery_notified, None)
  else if (battery <=? threshold) && negb low_battery_notified
  then
    let device_name :=
      match device with Some d => Dev.name d | None => "Razer Mouse"%string end in
    (true, Some (device_name, battery))
  else if threshold <? battery then (false, None)
  else (low_battery_notified, None).

(** ** Settings ([settings.py])

    A stored value is an int, a bool, a string or anything else JSON can
    hold; the settings file holds a JSON document, which [json.load] hands
    back as a dict or as something else. *)

Inductive jval : Type :=
| JInt (z : Z)
| JBool (b : bool)
| JStr (s : string)
| JOther.

Inductive setting_type : Type := TyInt | TyBool | TyStr.

(** [isinstance(val, expected_type)]: a bool is an int. *)
Definition isinstance (val : jval) (t : setting_type) : bool :=
  match t, val with
  | TyInt, JInt _ | TyInt, JBool _ | TyBool, JBool _ | TyStr, JStr _ => true
  | _, _ => false
  end.

Definition DEFAULTS_items : list (string * jval) :=
  [("poll_interval", JInt 300); ("low_battery_threshold", JInt 20);
   ("low_battery_notify", JBool true); ("display_mode", JStr "icon_percent");
   ("launch_at_login", JBool false)]%string.

Definition DEFAULTS : gmap string jval := list_to_map DEFAULTS_items.

Definition SETTING_TYPES : gmap string setting_type :=
  list_to_map
    [("poll_interval", TyInt); ("low_battery_threshold", TyInt);
     ("low_battery_notify", TyBool); ("display_mode", TyStr);
     ("launch_at_login", TyBool)]%string.

Definition VALID_DISPLAY_MODES : list string :=
  ["icon_percent"; "percent_only"; "icon_only"]%string.

(** [val in VALID_DISPLAY_MODES] *)
Definition in_valid_display_modes (val : jval) : bool :=
  match val with
  | JStr s => bool_decide (s ∈ VALID_DISPLAY_MODES)
  | _ => false
  end.

Inductive json : Type :=
| JDict (d : gmap string jval)
| JNotDict.

(** The settings file: absent, unreadable, not JSON, or a JSON document. *)
Inductive config_file : Type :=
| NoFile
| Unreadable
| Corrupt
| Holds (saved : json).

(** The body of [for key in DEFAULTS] in [load]. *)
Definition load_key (saved : gmap string jval) (data : gmap string jval)
    (key : string) : gmap string jval :=
  match saved !! key with
  | None => data
  | Some val =>
      let wrong_type :=
        match SETTING_TYPES !! key with
        | Some expected_type => negb (isinstance val expected_type)
        | None => false
        end in
      if wrong_type then data
      else if bool_decide (key = "display_mode"%string)
              && negb (in_valid_display_modes val)
      then data
      else <[key := val]> data
  end.

Definition settings_load (file : config_file) (data : gmap string jval)
  : gmap string jval :=
  match file with
  | Holds (JDict saved) => fold_left (load_key saved) (fst <$> DEFAULTS_items) data
  | _ => data
  end.

(** [Settings()] *)
Definition settings_init (file : config_file) : gmap string jval :=
  settings_load file DEFAULTS.

(** [save]: the file is replaced as a whole, or left alone when writing
    fails; the error is logged, not raised. *)
Definition settings_save (write_ok : bool) (data : gmap string jval)
    (file : config_file) : config_file :=
  if write_ok then Holds (JDict data) else file.

Definition settings_get (data : gmap string jval) (key : string) : option jval :=
  match data !! key with
  | Some v => Some v
  | None => DEFAULTS !! key
  end.

Definition settings_set (write_ok : bool) (key : string) (value : jval)
    (data : gmap string jval) (file : config_file)
  : result (gmap string jval * config_file) :=
  match SETTING_TYPES !! key with
  | None => Raise (ValueError "Unknown setting key")
  | Some expected_type =>
      if match expected_type with TyBool => true | _ => false end
         && isinstance value TyInt && negb (isinstance value TyBool)
      then Raise (TypeError "requires bool, got int")
      else if negb (isinstance value expected_type)
      then Raise (TypeError "wrong type")
      else if bool_decide (key = "display_mode"%string)
              && negb (in_valid_display_modes value)
      then Raise (ValueError "Invalid display mode")
      else
        let data' := <[key := value]> data in
        Ok (data', settings_save write_ok data' file)
  end.

(** ** Reference notions used in the statements *)

(** XOR of a list of bytes, left to right. *)
Definition xor_all (l : list Z) : Z := fold_left Z.lxor l 0.

Definition is_byte (z : Z) : Prop := 0 <= z <= 255.

(** The eight header bytes of a request. *)
Definition report_header (transaction_id command_class command_id data_size : Z)
  : list Z :=
  [0; transaction_id mod 256; 0; 0; 0;
   data_size mod 256; command_class mod 256; command_id mod 256].

(** The grouping key of an enumeration entry with product id [pid]. *)
Definition entry_key (e : Entry.t) (pid : Z) : group_key :=
  (default "N/A"%string (Entry.serial_number e),
   default "N/A"%string (Entry.product_string e), pid).

(** A well-formed entry: it has a product id and a path; [k] is its group
    and [p] its path. *)
Definition entry_has (e : Entry.t) (k : group_key) (p : string) : Prop :=
  exists pid, Entry.product_id e = Some pid /\ Entry.path e = Some p /\
              entry_key e pid = k.

Definition has_path (e : Entry.t) : bool :=
  match Entry.path e with Some _ => true | None => false end.

(** An entry that the scan is to leave out: it has no product id, or its
    product id is not in the device registry, or it has no path. *)
Definition entry_excluded (e : Entry.t) : Prop :=
  match Entry.product_id e with
  | Some pid => RAZER_DEVICES !! pid = None \/ Entry.path e = None
  | None => True
  end.

(** The descriptor of a group after an entry with path [p] was seen. *)
Definition add_interface (d : Dev.t) (p : string) (n : Z) : Dev.t :=
  if decide (p ∈ Iface.path <$> Dev.interfaces d) then d
  else Dev.mk (Dev.name d) (Dev.pid d) (Dev.type d) (Dev.transaction_id d)
              (Dev.interfaces d ++ [Iface.mk p (Some n)])
              (Dev.preferred_interface_path d)
              (Dev._diag_last_ok d) (Dev._diag_last_command d)
              (Dev._diag_last_interface d)
              (Dev._diag_last_attempted_interfaces d)
              (Dev._diag_last_io_errors d)
              (Dev._diag_last_open_failed_count d).

Definition fresh_group (pid : Z) : Dev.t :=
  Dev.mk (default (unknown_device_name pid) (RAZER_DEVICES !! pid)) pid
         (get_device_type pid) (Some (get_transaction_id pid)) []
         None None None None None None None.

(** What the scan maintains: the keys are distinct, a group exists exactly
    for the keys of the well-formed entries seen, and the interfaces of a
    group are the distinct paths of its entries. *)
Definition scan_inv (seen : list Entry.t) (g : list (group_key * Dev.t)) : Prop :=
  NoDup (fst <$> g)
  /\ (forall k, is_Some (dict_get k g) <-> exists e p, e ∈ seen /\ entry_has e k p)
  /\ (forall k d, dict_get k g = Some d ->
        Dev.pid d = snd k
        /\ NoDup (Iface.path <$> Dev.interfaces d)
        /\ (forall i, i ∈ Dev.interfaces d ->
              exists e, e ∈ seen /\ entry_has e k (Iface.path i)
                        /\ Iface.interface_number i
                           = Some (default (-1) (Entry.interface_number e)))
        /\ (forall e p, e ∈ seen -> entry_has e k p ->
              p ∈ Iface.path <$> Dev.interfaces d)).

(** The order of Python tuples on the sort keys, as a proposition. *)
Definition key_lt (a b : Z * Z * Z) : Prop :=
  a.1.1 < b.1.1 \/ (a.1.1 = b.1.1 /\ (a.1.2 < b.1.2 \/ (a.1.2 = b.1.2 /\ a.2 < b.2))).

Definition key_le (a b : Z * Z * Z) : Prop := ~ key_lt b a.

(** The calls of an exchange that tries the interfaces [ifaces] in order,
    the [i]-th one [ks !! i] times. *)
Definition calls_of (report_with_id : list Z) (ifaces : list Iface.t) (ks : list nat)
  : list hid_call :=
  concat (zip_with (fun iface k => replicate k (mk_call (Iface.path iface) report_with_id))
                   ifaces ks).

(** The retry policy on one interface, by the outcome [first] of the first
    call on it and the outcome [second] of a call made after that one:
    a response that validates is returned; a response that does not, and a
    [ValueError], end the interface after this one call; any other error is
    followed by one more call on the interface, after which a response that
    validates is returned and anything else ends the interface.  [k] is the
    number of calls made on the interface. *)
Definition retry_policy (returns : option (list Z) -> Prop) (moves_on : Prop)
    (k : nat) (first second : result (option (list Z))) : Prop :=
  match first with
  | Ok r =>
      k = 1%nat /\ (if fst (validate_response r) then returns r else moves_on)
  | Raise (ValueError _) => k = 1%nat /\ moves_on
  | Raise _ =>
      k = 2%nat
      /\ match second with
         | Ok r => if fst (validate_response r) then returns r else moves_on
         | Raise _ => moves_on
         end
  end.

(** The session diagnostic fields of a descriptor. *)
Definition diag_fields (d : Dev.t)
  : option bool * option string * option Z * option (list Z)
    * option (list string) * option Z :=
  (Dev._diag_last_ok d, Dev._diag_last_command d, Dev._diag_last_interface d,
   Dev._diag_last_attempted_interfaces d, Dev._diag_last_io_errors d,
   Dev._diag_last_open_failed_count d).

(** The same, without the most recent interface used. *)
Definition diag_fields_but_interface (d : Dev.t)
  : option bool * option string * option (list Z) * option (list string) * option Z :=
  (Dev._diag_last_ok d, Dev._diag_last_command d,
   Dev._diag_last_attempted_interfaces d, Dev._diag_last_io_errors d,
   Dev._diag_last_open_failed_count d).

(** Two descriptors that differ at most in what earlier calls left in the
    diagnostic fields. *)
Definition same_but_diag (d1 d2 : Dev.t) : Prop :=
  Dev.name d1 = Dev.name d2 /\ Dev.pid d1 = Dev.pid d2
  /\ Dev.type d1 = Dev.type d2
  /\ Dev.transaction_id d1 = Dev.transaction_id d2
  /\ Dev.interfaces d1 = Dev.interfaces d2
  /\ Dev.preferred_interface_path d1 = Dev.preferred_interface_path d2.

(** An environment in which every open fails. *)
Definition env_open_fails : hid_env :=
  fun _ _ => Raise (OSError "open failed").

(** An environment in which every exchange answers with [response]. *)
Definition env_answers (response : list Z) : hid_env :=
  fun _ _ => Ok (Some response).

(** The diagnostic fields after a call do not depend on what an earlier
    call left in them. *)
Definition overwrites_all_diag (env : hid_env) (d : Dev.t) (report : list Z)
    (label : string) (h : list hid_call) : Prop :=
  forall d0, same_but_diag d0 d ->
    diag_fields (snd (fst (send_and_receive_report env d0 report label h)))
    = diag_fields (snd (fst (send_and_receive_report env d report label h))).

(** The request of [get_battery_level] for transaction id 0x1F. *)
Definition battery_request : list Z :=
  [0; 0x1F; 0; 0; 0; 0x02; 0x07; 0x80] ++ replicate 80 0 ++ [0x85; 0].

(** [v] is within the range 0..100 and is the integer nearest to
    [raw * 100 / 255]. *)
Definition nearest_percent (raw v : Z) : bool :=
  (0 <=? v) && (v <=? 100) && (2 * Z.abs (255 * v - 100 * raw) <? 255).

Definition battery_percent_ok (raw : Z) : bool :=
  match battery_percent raw with
  | Ok v => nearest_percent raw v
  | Raise _ => false
  end.

(** An environment whose first [n] calls fail to open and whose later calls
    answer with [response]. *)
Definition env_fails_then_answers (n : nat) (response : list Z) : hid_env :=
  fun h _ =>
    if (length h <? n)%nat then Raise (OSError "open failed") else Ok (Some response).

(** The 91-byte response of the test suite: the report id, status success,
    the echoed header and [raw] at index 10 (the checksum is not set). *)
Definition make_razer_response (raw : Z) : list Z :=
  [0; 0x02; 0x1F; 0; 0; 0; 0x02; 0x07; 0x80; 0; raw] ++ replicate 80 0.

(** A descriptor as the scan creates it: name, type and transaction id are
    those of the registry for its product id, there is at least one
    interface, every interface carries an interface number, and no session
    field is set. *)
Definition descriptor_from_registry (d : Dev.t) : Prop :=
  RAZER_DEVICES !! Dev.pid d = Some (Dev.name d)
  /\ Dev.type d = get_device_type (Dev.pid d)
  /\ Dev.transaction_id d = Some (get_transaction_id (Dev.pid d))
  /\ Dev.interfaces d <> []
  /\ Forall (fun i => is_Some (Iface.interface_number i)) (Dev.interfaces d)
  /\ Dev.preferred_interface_path d = None
  /\ diag_fields d = (None, None, None, None, None, None).

(** Between two states of an exchange: the open-failure count grows by at
    most the number of errors recorded, which is at most the number of calls
    made. *)
Definition counts_grow (st st' : exchange_state) : Prop :=
  open_failed_count st <= open_failed_count st'
  /\ open_failed_count st' - open_failed_count st
     <= Z.of_nat (length (io_errors st')) - Z.of_nat (length (io_errors st))
  /\ Z.of_nat (length (io_errors st')) - Z.of_nat (length (io_errors st))
     <= Z.of_nat (length (history st')) - Z.of_nat (length (history st)).

(** Every open fails with a message that says so. *)
Definition every_open_fails (env : hid_env) : Prop :=
  forall h c, exists msg,
    env h c = Raise (OSError msg) /\ contains "open failed" (lower msg) = true.

(** The responses of the environment are lists of bytes. *)
Definition answers_bytes (env : hid_env) : Prop :=
  forall h c l, env h c = Ok (Some l) -> Forall is_byte l.

(** The interface number recorded for an attempt. *)
Definition iface_num (i : Iface.t) : Z := default (-1) (Iface.interface_number i).

(** [_check_low_battery] over successive battery readings: the final flag
    and the notifications fired, in order. *)
Fixpoint low_battery_run (low_battery_notify : bool) (threshold : Z)
    (device : option Dev.t) (readings : list Z) (notified : bool)
  : bool * list (string * Z) :=
  match readings with
  | [] => (notified, [])
  | battery :: rest =>
      let step := _check_low_battery low_battery_notify threshold device battery notified in
      let run := low_battery_run low_battery_notify threshold device rest (fst step) in
      (fst run, match snd step with Some n => n :: snd run | None => snd run end)
  end.

(** The keys of the settings, in the order of [DEFAULTS]. *)
Definition setting_keys : list string := fst <$> DEFAULTS_items.

(** A value that [load] and [set] accept for a key: of the type of the key
    and, for the display mode, one of the valid modes. *)
Definition accepts (key : string) (val : jval) : bool :=
  match SETTING_TYPES !! key with
  | Some expected_type => isinstance val expected_type
  | None => true
  end
  && negb (bool_decide (key = "display_mode"%string) && negb (in_valid_display_modes val)).

(** The value of a key after a load: the saved one when there is one and
    it is accepted, the one held before otherwise. *)
Definition merged_value (saved data : gmap string jval) (key : string) : option jval :=
  match saved !! key with
  | Some val => if accepts key val then Some val else data !! key
  | None => data !! key
  end.

(** The settings hold exactly the five keys, each with an accepted value. *)
Definition settings_valid (data : gmap string jval) : Prop :=
  (forall key val, data !! key = Some val -> key ∈ setting_keys /\ accepts key val = true)
  /\ (forall key, key ∈ setting_keys -> is_Some (data !! key)).

(** * Properties of the report codec *)

Section Codec.

Lemma in_byte_range_iff z : in_byte_range z = true <-> is_byte z.
Proof. unfold in_byte_range, is_byte. rewrite andb_true_iff. lia. Qed.

Lemma in_byte_range_false_iff z : in_byte_range z = false <-> ~ is_byte z.
Proof.
  rewrite <- in_byte_range_iff. destruct (in_byte_range z); split; congruence.
Qed.

Lemma land_0xFF x : Z.land x 0xFF = x mod 256.
Proof. change 0xFF with (Z.ones 8). rewrite Z.land_ones by lia. reflexivity. Qed.

Lemma is_byte_mod x : is_byte (x mod 256).
Proof. unfold is_byte. pose proof (Z.mod_pos_bound x 256). lia. Qed.

Lemma is_byte_land_fix z : is_byte z <-> Z.land z 0xFF = z.
Proof.
  rewrite land_0xFF. unfold is_byte. split.
  - intros H. apply Z.mod_small. lia.
  - intros <-. pose proof (Z.mod_pos_bound z 256). lia.
Qed.

Lemma is_byte_lxor a b : is_byte a -> is_byte b -> is_byte (Z.lxor a b).
Proof.
  rewrite !is_byte_land_fix. intros Ha Hb.
  assert (E : Z.land (Z.lxor a b) 255 = Z.lxor (Z.land a 255) (Z.land b 255)).
  { apply Z.bits_inj'. intros n Hn.
    rewrite Z.land_spec, !Z.lxor_spec, !Z.land_spec.
    destruct (Z.testbit a n), (Z.testbit b n), (Z.testbit 255 n); reflexivity. }
  rewrite E, Ha, Hb. reflexivity.
Qed.

Lemma is_byte_fold_lxor (l : list Z) acc :
  Forall is_byte l -> is_byte acc -> is_byte (fold_left Z.lxor l acc).
Proof.
  intros Hl. revert acc. induction Hl as [|b l Hb _ IH]; simpl; intros acc Hacc.
  - exact Hacc.
  - apply IH. apply is_byte_lxor; assumption.
Qed.

(** The loop of [calculate_crc] reads the slice [2:88] of the buffer. *)
Lemma crc_loop_slice (l : list Z) n a acc :
  fold_left
    (fun crc i => match l !! i with Some b => Z.lxor crc b | None => crc end)
    (seq a n) acc
  = fold_left Z.lxor (take n (drop a l)) acc.
Proof.
  revert a acc. induction n as [|n IH]; intros a acc; simpl.
  - reflexivity.
  - rewrite IH. destruct (l !! a) as [b|] eqn:E.
    + rewrite (drop_S l b a E). reflexivity.
    + apply lookup_ge_None in E.
      rewrite (drop_ge l a), (drop_ge l (S a)) by lia.
      rewrite !take_nil. reflexivity.
Qed.

Lemma calculate_crc_slice (l : list Z) :
  calculate_crc l = xor_all (take 86 (drop 2 l)).
Proof. apply crc_loop_slice. Qed.

Lemma is_byte_calculate_crc (l : list Z) :
  Forall is_byte l -> is_byte (calculate_crc l).
Proof.
  intros H. rewrite calculate_crc_slice. apply is_byte_fold_lxor.
  - apply Forall_take, Forall_drop, H.
  - unfold is_byte. lia.
Qed.

Lemma setitem_ok (r : list Z) i v :
  (i < length r)%nat -> is_byte v -> setitem r i v = Ok (<[i:=v]> r).
Proof.
  intros Hi Hv. unfold setitem.
  destruct (decide _) as [_|]; [|lia].
  apply in_byte_range_iff in Hv. rewrite Hv. reflexivity.
Qed.

Lemma bytes_of_ints (bs : list Z) :
  Forall is_byte bs -> bytes_of (PyInt <$> bs) = Ok bs.
Proof.
  induction 1 as [|b bs Hb _ IH].
  - reflexivity.
  - rewrite fmap_cons. cbn [bytes_of].
    apply in_byte_range_iff in Hb. rewrite Hb, IH. reflexivity.
Qed.

Lemma bytes_of_Ok args bs :
  bytes_of args = Ok bs -> args = PyInt <$> bs /\ Forall is_byte bs.
Proof.
  revert bs. induction args as [|[z|] args IH]; simpl; intros bs H.
  - inversion H. split; [reflexivity | constructor].
  - destruct (in_byte_range z) eqn:Ez; [|discriminate].
    destruct (bytes_of args) as [bs'|] eqn:E; simpl in H; [|discriminate].
    inversion H; subst. destruct (IH bs' eq_refl) as [-> Hb].
    split; [reflexivity|]. constructor; [|exact Hb].
    apply in_byte_range_iff, Ez.
  - discriminate.
Qed.

Lemma bytes_of_Raise args :
  (exists e, bytes_of args = Raise e) <-> Exists (fun a => is_byte_val a = false) args.
Proof.
  induction args as [|[z|] args IH]; simpl.
  - split; [intros [e H]; discriminate | intros H; inversion H].
  - destruct (in_byte_range z) eqn:Ez.
    + rewrite Exists_cons. simpl. rewrite Ez, <- IH.
      destruct (bytes_of args) as [bs|e']; simpl.
      * split; [intros [e H]; discriminate|].
        intros [H|[e H]]; discriminate.
      * split; [intros _; right|]; eauto.
    + split; [|eauto]. intros _. constructor. simpl. exact Ez.
  - split; [|eauto]. intros _. constructor. reflexivity.
Qed.

(** The report built from in-range arguments, written out. *)
Lemma construct_razer_report_value tid cc cid ds (bs : list Z) :
  (length bs <= 80)%nat -> Forall is_byte bs ->
  construct_razer_report tid cc cid ds (PyInt <$> bs)
  = Ok (report_header tid cc cid ds ++ bs ++ replicate (80 - length bs) 0
        ++ [calculate_crc (report_header tid cc cid ds ++ bs
                           ++ replicate (82 - length bs) 0); 0]).
Proof.
  intros Hlen Hbs. unfold construct_razer_report.
  rewrite length_fmap.
  destruct (decide _) as [?|_]; [lia|].
  rewrite bytes_of_ints by exact Hbs.
  unfold bytearray, REPORT_LEN. rewrite !land_0xFF.
  pose proof (is_byte_mod tid). pose proof (is_byte_mod cc).
  pose proof (is_byte_mod cid). pose proof (is_byte_mod ds).
  assert (Hz : is_byte 0) by (unfold is_byte; lia).
  do 8 (rewrite setitem_ok;
        [ cbn [rbind] | rewrite ?length_insert, length_replicate; lia | assumption ]).
  rewrite Nat.min_l by lia. rewrite firstn_all.
  set (hdr := report_header tid cc cid ds).
  assert (E : slice_assign
                (<[7%nat:=cid mod 256]> (<[6%nat:=cc mod 256]> (<[5%nat:=ds mod 256]>
                 (<[4%nat:=0]> (<[3%nat:=0]> (<[2%nat:=0]> (<[1%nat:=tid mod 256]>
                 (<[0%nat:=0]> (replicate 90 0)))))))))
                8 (8 + length bs) bs
              = hdr ++ bs ++ replicate (82 - length bs) 0).
  { unfold slice_assign. rewrite <- drop_drop.
    change (hdr ++ bs ++ drop (length bs) (replicate 82 0)
            = hdr ++ bs ++ replicate (82 - length bs) 0).
    rewrite drop_replicate. reflexivity. }
  rewrite E. clear E.
  assert (Hall : Forall is_byte (hdr ++ bs ++ replicate (82 - length bs) 0)).
  { apply Forall_app. split.
    - unfold hdr, report_header.
      repeat (apply List.Forall_cons; [assumption|]). apply List.Forall_nil.
    - apply Forall_app. split; [exact Hbs|]. apply Forall_replicate. exact Hz. }
  assert (Hl : length (hdr ++ bs ++ replicate (82 - length bs) 0) = 90%nat).
  { rewrite !length_app, length_replicate. unfold hdr. simpl. lia. }
  rewrite setitem_ok; [cbn [rbind] | lia | apply is_byte_calculate_crc, Hall].
  rewrite setitem_ok; [cbn [rbind] | rewrite length_insert; lia | exact Hz].
  f_equal.
  replace (82 - length bs)%nat with ((80 - length bs) + 2)%nat by lia.
  rewrite replicate_add. simpl (replicate 2 0).
  set (crc := calculate_crc _).
  assert (L8 : length hdr = 8%nat) by reflexivity.
  rewrite !(insert_app_r_alt hdr) by lia.
  rewrite !(insert_app_r_alt bs) by lia.
  rewrite !(insert_app_r_alt (replicate _ _)) by (rewrite length_replicate; lia).
  rewrite length_replicate, L8.
  replace (88 - 8 - length bs - (80 - length bs))%nat with 0%nat by lia.
  replace (89 - 8 - length bs - (80 - length bs))%nat with 1%nat by lia.
  reflexivity.
Qed.

Lemma take_80_args (bs tail : list Z) :
  (length bs <= 80)%nat ->
  take 80 (bs ++ replicate (80 - length bs) 0 ++ tail)
  = bs ++ replicate (80 - length bs) 0.
Proof.
  intros H. rewrite app_assoc. apply take_app_length'.
  rewrite length_app, length_replicate. lia.
Qed.

Lemma report_tail_lookup (hdr bs tail : list Z) n i :
  length hdr = 8%nat -> (8 + length bs + n <= i)%nat ->
  (hdr ++ bs ++ replicate n 0 ++ tail) !! i
  = tail !! (i - 8 - length bs - n)%nat.
Proof.
  intros Hh Hi.
  rewrite lookup_app_r by lia. rewrite lookup_app_r by lia.
  rewrite lookup_app_r by (rewrite length_replicate; lia).
  rewrite length_replicate, Hh. reflexivity.
Qed.

(** C1: for in-range arguments the report has 90 bytes, the header bytes are
    the parameters reduced modulo 256, bytes 8..87 are the arguments and
    zero padding, byte 89 is zero and byte 88 is the XOR of bytes 2..87 of
    the report that is returned. *)
Theorem construct_razer_report_layout tid cc cid ds (bs : list Z) :
  (length bs <= 80)%nat -> Forall is_byte bs ->
  exists r,
    construct_razer_report tid cc cid ds (PyInt <$> bs) = Ok r /\
    length r = 90%nat /\
    r !! 0%nat = Some 0 /\
    r !! 1%nat = Some (tid mod 256) /\
    r !! 2%nat = Some 0 /\ r !! 3%nat = Some 0 /\ r !! 4%nat = Some 0 /\
    r !! 5%nat = Some (ds mod 256) /\
    r !! 6%nat = Some (cc mod 256) /\
    r !! 7%nat = Some (cid mod 256) /\
    take 80 (drop 8 r) = bs ++ replicate (80 - length bs) 0 /\
    r !! 88%nat = Some (xor_all (take 86 (drop 2 r))) /\
    r !! 88%nat = Some (calculate_crc r) /\
    r !! 89%nat = Some 0.
Proof.
  intros Hlen Hbs.
  eexists. split; [apply construct_razer_report_value; assumption|].
  set (crc := calculate_crc _).
  assert (Hcrc : xor_all
            (take 86 (drop 2 (report_header tid cc cid ds ++ bs
                              ++ replicate (80 - length bs) 0 ++ [crc; 0]))) = crc).
  { unfold crc at 2. rewrite calculate_crc_slice. f_equal.
    cbn [report_header app drop take]. do 6 f_equal.
    rewrite take_80_args by exact Hlen.
    replace (82 - length bs)%nat with ((80 - length bs) + 2)%nat by lia.
    rewrite replicate_add. rewrite take_80_args by exact Hlen. reflexivity. }
  assert (H88 : (report_header tid cc cid ds ++ bs
                 ++ replicate (80 - length bs) 0 ++ [crc; 0]) !! 88%nat = Some crc).
  { rewrite (report_tail_lookup _ _ _ _ 88) by (reflexivity || lia).
    replace (88 - 8 - length bs - (80 - length bs))%nat with 0%nat by lia.
    reflexivity. }
  split; [rewrite !length_app, length_replicate; simpl; lia|].
  do 8 (split; [reflexivity|]).
  split; [cbn [report_header app drop]; apply take_80_args; exact Hlen|].
  split; [rewrite Hcrc; exact H88|].
  split; [rewrite calculate_crc_slice, Hcrc; exact H88|].
  rewrite (report_tail_lookup _ _ _ _ 89) by (reflexivity || lia).
  replace (89 - 8 - length bs - (80 - length bs))%nat with 1%nat by lia.
  reflexivity.
Qed.

Lemma construct_razer_report_layout_witness :
  exists r,
    construct_razer_report 0x1F 0x07 0x80 0x02 (PyInt <$> [0; 0]) = Ok r /\
    length r = 90%nat /\
    r !! 0%nat = Some 0 /\
    r !! 1%nat = Some (0x1F mod 256) /\
    r !! 2%nat = Some 0 /\ r !! 3%nat = Some 0 /\ r !! 4%nat = Some 0 /\
    r !! 5%nat = Some (0x02 mod 256) /\
    r !! 6%nat = Some (0x07 mod 256) /\
    r !! 7%nat = Some (0x80 mod 256) /\
    take 80 (drop 8 r) = [0; 0] ++ replicate (80 - length [0; 0]) 0 /\
    r !! 88%nat = Some (xor_all (take 86 (drop 2 r))) /\
    r !! 88%nat = Some (calculate_crc r) /\
    r !! 89%nat = Some 0.
Proof.
  apply (construct_razer_report_layout 0x1F 0x07 0x80 0x02 [0; 0]).
  - simpl. lia.
  - repeat (apply List.Forall_cons; [unfold is_byte; lia|]). apply List.Forall_nil.
Defined.

(** C10: the construction fails exactly when there are more than 80
    arguments or one of them is not an integer in 0..255, whatever the
    header parameters are; the failure is a [ValueError]. *)
Theorem construct_razer_report_fails_iff tid cc cid ds (args : list pyval) :
  ((exists e, construct_razer_report tid cc cid ds args = Raise e)
   <-> ((80 < length args)%nat \/ Exists (fun a => is_byte_val a = false) args))
  /\ (forall e, construct_razer_report tid cc cid ds args = Raise e ->
                is_ValueError e = true).
Proof.
  split; [split|].
  - intros [e He].
    destruct (decide (80 < length args)%nat) as [Hl|Hl]; [left; exact Hl|].
    right. destruct (bytes_of args) as [bs|e'] eqn:Eb.
    + destruct (bytes_of_Ok _ _ Eb) as [-> Hbs].
      rewrite length_fmap in Hl.
      rewrite construct_razer_report_value in He by (assumption || lia).
      discriminate.
    + apply bytes_of_Raise. eauto.
  - intros [Hl|Hex]; unfold construct_razer_report.
    + destruct (decide _) as [_|]; [eauto | contradiction].
    + destruct (decide _) as [_|_]; [eauto|].
      apply bytes_of_Raise in Hex. destruct Hex as [e' ->]. eauto.
  - intros e He.
    destruct (decide (80 < length args)%nat) as [Hl|Hl].
    + unfold construct_razer_report in He.
      destruct (decide _) as [_|]; [|contradiction]. inversion He. reflexivity.
    + destruct (bytes_of args) as [bs|e'] eqn:Eb.
      * destruct (bytes_of_Ok _ _ Eb) as [-> Hbs].
        rewrite length_fmap in Hl.
        rewrite construct_razer_report_value in He by (assumption || lia).
        discriminate.
      * unfold construct_razer_report in He.
        destruct (decide _) as [|_]; [contradiction|].
        rewrite Eb in He. inversion He. reflexivity.
Qed.

(** The verdict of [validate_response] on a response of more than nine
    bytes depends on the status byte alone. *)
Lemma validate_response_long (resp : list Z) (s : Z) :
  (9 < length resp)%nat -> resp !! 1%nat = Some s ->
  fst (validate_response (Some resp))
  = negb ((s =? 1) || (s =? 3) || (s =? 4) || (s =? 5)).
Proof.
  intros Hlen Hs. unfold validate_response.
  destruct resp as [|b0 resp']; [simpl in Hlen; lia|].
  destruct (decide _) as [?|_]; [lia|].
  rewrite Hs. cbn [default].
  unfold RAZER_STATUS_SUCCESS, RAZER_STATUS_BUSY, RAZER_STATUS_FAILURE,
    RAZER_STATUS_TIMEOUT, RAZER_STATUS_NOT_SUPPORTED.
  repeat (destruct (decide _)); cbn [fst];
    symmetry; rewrite ?negb_true_iff, ?negb_false_iff, ?orb_true_iff,
      ?orb_false_iff, ?Z.eqb_eq, ?Z.eqb_neq; unfold id in *; lia.
Qed.

Lemma validate_response_short (resp : list Z) :
  (length resp <= 9)%nat -> fst (validate_response (Some resp)) = false.
Proof.
  intros Hlen. unfold validate_response.
  destruct resp as [|b0 resp']; [reflexivity|].
  destruct (decide _) as [_|?]; [reflexivity | lia].
Qed.

(** C2: success, new/pending and unrecognised status bytes validate; busy,
    failure, timeout and not-supported do not; an absent, empty or
    at-most-nine-byte response does not. *)
Theorem validate_response_verdict :
  (forall (resp : list Z) (s : Z),
      (9 < length resp)%nat -> resp !! 1%nat = Some s ->
      (s = RAZER_STATUS_SUCCESS \/ s = RAZER_STATUS_NEW \/
       (s <> RAZER_STATUS_BUSY /\ s <> RAZER_STATUS_FAILURE /\
        s <> RAZER_STATUS_TIMEOUT /\ s <> RAZER_STATUS_NOT_SUPPORTED)) ->
      fst (validate_response (Some resp)) = true)
  /\ (forall (resp : list Z) (s : Z),
      (9 < length resp)%nat -> resp !! 1%nat = Some s ->
      (s = RAZER_STATUS_BUSY \/ s = RAZER_STATUS_FAILURE \/
       s = RAZER_STATUS_TIMEOUT \/ s = RAZER_STATUS_NOT_SUPPORTED) ->
      fst (validate_response (Some resp)) = false)
  /\ fst (validate_response None) = false
  /\ fst (validate_response (Some [])) = false
  /\ (forall resp : list Z,
      (length resp <= 9)%nat -> fst (validate_response (Some resp)) = false).
Proof.
  unfold RAZER_STATUS_SUCCESS, RAZER_STATUS_NEW, RAZER_STATUS_BUSY,
    RAZER_STATUS_FAILURE, RAZER_STATUS_TIMEOUT, RAZER_STATUS_NOT_SUPPORTED.
  repeat split.
  - intros resp s Hlen Hs Hst.
    rewrite (validate_response_long resp s Hlen Hs).
    rewrite negb_true_iff, !orb_false_iff, !Z.eqb_neq. lia.
  - intros resp s Hlen Hs Hst.
    rewrite (validate_response_long resp s Hlen Hs).
    rewrite negb_false_iff, !orb_true_iff, !Z.eqb_eq. lia.
  - exact validate_response_short.
Qed.

(** The statuses 0x06 and 0xFF of the test suite, and the four rejections. *)
Example validate_response_examples :
  map (fun s => fst (validate_response (Some (0 :: s :: replicate 89 0))))
      [0x02; 0x00; 0x06; 0xFF; 0x01; 0x03; 0x04; 0x05]
  = [true; true; true; true; false; false; false; false].
Proof. vm_compute. reflexivity. Qed.

Lemma response_crc_insert_89 (resp : list Z) (c : Z) :
  response_crc (<[89%nat:=c]> resp) = response_crc resp.
Proof.
  unfold response_crc.
  assert (G : forall (l : list nat) acc,
             Forall (fun i => i <> 89%nat) l ->
             fold_left (fun crc i => Z.lxor crc (default 0 (<[89%nat:=c]> resp !! i))) l acc
             = fold_left (fun crc i => Z.lxor crc (default 0 (resp !! i))) l acc).
  { induction l as [|i l IH]; intros acc Hl; [reflexivity|].
    apply Forall_cons in Hl. destruct Hl as [Hi Hl]. cbn [fold_left].
    rewrite list_lookup_insert_ne by congruence. apply IH, Hl. }
  apply G. apply Forall_forall. intros i Hi.
  apply list_elem_of_In, in_seq in Hi. lia.
Qed.

Lemma validate_response_success (resp : list Z) :
  (9 < length resp)%nat -> resp !! 1%nat = Some RAZER_STATUS_SUCCESS ->
  validate_response (Some resp) = (true, crc_check resp).
Proof.
  intros Hlen Hs. unfold validate_response.
  destruct resp as [|b0 resp']; [simpl in Hlen; lia|].
  destruct (decide _) as [?|_]; [lia|].
  rewrite Hs. cbn [default].
  destruct (decide _) as [_|?]; [reflexivity | contradiction].
Qed.

(** C3: on a response of at least 90 bytes with status success, replacing
    the checksum byte leaves the verdict at true; a checksum that does not
    match is only logged. *)
Theorem validate_response_ignores_checksum (resp : list Z) (c : Z) :
  (90 <= length resp)%nat -> resp !! 1%nat = Some RAZER_STATUS_SUCCESS ->
  fst (validate_response (Some (<[89%nat:=c]> resp))) = true
  /\ fst (validate_response (Some (<[89%nat:=c]> resp)))
     = fst (validate_response (Some resp))
  /\ (c <> response_crc resp ->
      snd (validate_response (Some (<[89%nat:=c]> resp)))
      = [LogCrcMismatch (response_crc resp) c]).
Proof.
  intros Hlen Hs.
  assert (Hs' : <[89%nat:=c]> resp !! 1%nat = Some RAZER_STATUS_SUCCESS)
    by (rewrite list_lookup_insert_ne by lia; exact Hs).
  assert (Hl' : length (<[89%nat:=c]> resp) = length resp) by apply length_insert.
  assert (H9 : (9 < length resp)%nat) by lia.
  assert (H9' : (9 < length (<[89%nat:=c]> resp))%nat) by lia.
  split; [|split].
  - rewrite (validate_response_long _ _ H9' Hs'). reflexivity.
  - rewrite (validate_response_long _ _ H9' Hs').
    rewrite (validate_response_long _ _ H9 Hs). reflexivity.
  - intros Hc.
    rewrite (validate_response_success _ H9' Hs').
    cbn [snd]. unfold crc_check.
    destruct (decide _) as [_|?]; [|lia].
    rewrite response_crc_insert_89.
    rewrite list_lookup_insert_eq by lia. cbn [default].
    destruct (decide _) as [_|Heq]; [reflexivity|].
    exfalso. apply Heq. unfold id. intros E. apply Hc. symmetry. exact E.
Qed.

Lemma validate_response_ignores_checksum_witness :
  let resp := 0 :: 2 :: replicate 89 0 in
  fst (validate_response (Some (<[89%nat:=0x55]> resp))) = true
  /\ fst (validate_response (Some (<[89%nat:=0x55]> resp)))
     = fst (validate_response (Some resp))
  /\ (0x55 <> response_crc resp ->
      snd (validate_response (Some (<[89%nat:=0x55]> resp)))
      = [LogCrcMismatch (response_crc resp) 0x55]).
Proof.
  apply (validate_response_ignores_checksum (0 :: 2 :: replicate 89 0) 0x55).
  - simpl. lia.
  - reflexivity.
Defined.

End Codec.

(** * Properties of device discovery *)

Section DictFacts.
Context {K V : Type} `{EqDecision K}.
Implicit Types (d : list (K * V)) (k : K) (v : V).

Lemma dict_get_set_eq k v d : dict_get k (dict_set k v d) = Some v.
Proof.
  induction d as [|[k' v'] d IH]; simpl.
  - destruct (decide (k = k)); [reflexivity | contradiction].
  - destruct (decide (k = k')) as [->|Hne]; simpl.
    + destruct (decide (k' = k')); [reflexivity | contradiction].
    + destruct (decide (k = k')); [contradiction | exact IH].
Qed.

Lemma dict_get_set_ne k k' v d :
  k <> k' -> dict_get k' (dict_set k v d) = dict_get k' d.
Proof.
  intros Hne. induction d as [|[k1 v1] d IH]; simpl.
  - destruct (decide (k' = k)); [congruence | reflexivity].
  - destruct (decide (k = k1)) as [->|Hk]; simpl.
    + destruct (decide (k' = k1)); [congruence | reflexivity].
    + destruct (decide (k' = k1)); [reflexivity | exact IH].
Qed.

Lemma dict_set_set k v v' d : dict_set k v (dict_set k v' d) = dict_set k v d.
Proof.
  induction d as [|[k1 v1] d IH]; simpl.
  - destruct (decide (k = k)); [reflexivity | contradiction].
  - destruct (decide (k = k1)) as [->|Hk]; simpl.
    + destruct (decide (k1 = k1)); [reflexivity | contradiction].
    + destruct (decide (k = k1)); [contradiction | rewrite IH; reflexivity].
Qed.

Lemma dict_set_id k v d : dict_get k d = Some v -> dict_set k v d = d.
Proof.
  induction d as [|[k1 v1] d IH]; simpl; [discriminate|].
  destruct (decide (k = k1)) as [->|Hk]; intros H.
  - congruence.
  - rewrite IH by exact H. reflexivity.
Qed.

Lemma dict_get_None k d : dict_get k d = None <-> k ∉ fst <$> d.
Proof.
  induction d as [|[k1 v1] d IH]; cbn [dict_get].
  - split; [intros _; apply not_elem_of_nil | reflexivity].
  - rewrite fmap_cons, not_elem_of_cons. cbn [fst].
    destruct (decide (k = k1)) as [->|Hk].
    + split; [discriminate | intros [? _]; contradiction].
    + rewrite IH. tauto.
Qed.

Lemma dict_get_elem_of k v d : dict_get k d = Some v -> (k, v) ∈ d.
Proof.
  induction d as [|[k1 v1] d IH]; simpl; [discriminate|].
  destruct (decide (k = k1)) as [->|Hk]; intros H.
  - inversion H. apply elem_of_cons. left. reflexivity.
  - apply elem_of_cons. right. apply IH, H.
Qed.

Lemma elem_of_dict_get k v d :
  NoDup (fst <$> d) -> (k, v) ∈ d -> dict_get k d = Some v.
Proof.
  induction d as [|[k1 v1] d IH]; cbn [dict_get]; intros Hnd Hin.
  - apply elem_of_nil in Hin. contradiction.
  - rewrite fmap_cons in Hnd. apply NoDup_cons in Hnd. destruct Hnd as [Hn Hnd].
    apply elem_of_cons in Hin. destruct Hin as [Heq|Hin].
    + inversion Heq; subst.
      destruct (decide (k1 = k1)); [reflexivity | contradiction].
    + destruct (decide (k = k1)) as [->|Hk]; [|apply IH; assumption].
      exfalso. apply Hn.
      apply (list_elem_of_fmap_2 fst) in Hin. exact Hin.
Qed.

Lemma dict_set_keys k v d :
  fst <$> dict_set k v d
  = if decide (k ∈ fst <$> d) then fst <$> d else (fst <$> d) ++ [k].
Proof.
  induction d as [|[k1 v1] d IH]; cbn [dict_set].
  - destruct (decide _) as [Hin|_]; [|reflexivity].
    apply elem_of_nil in Hin. contradiction.
  - destruct (decide (k = k1)) as [->|Hk]; rewrite !fmap_cons; cbn [fst].
    + clear IH. destruct (decide _) as [_|Hn]; [reflexivity|].
      exfalso. apply Hn, elem_of_cons. left. reflexivity.
    + rewrite IH. clear IH.
      destruct (decide (k ∈ fst <$> d)) as [Hin|Hn];
        destruct (decide _) as [Hin'|Hn']; try reflexivity.
      * exfalso. apply Hn', elem_of_cons. right. exact Hin.
      * apply elem_of_cons in Hin'. destruct Hin'; contradiction.
Qed.

Lemma dict_set_NoDup k v d :
  NoDup (fst <$> d) -> NoDup (fst <$> dict_set k v d).
Proof.
  intros Hnd. rewrite dict_set_keys.
  destruct (decide _) as [_|Hn]; [exact Hnd|].
  apply NoDup_app. split; [exact Hnd|]. split.
  - intros x Hx Hx'. apply list_elem_of_singleton in Hx'. subst. contradiction.
  - apply NoDup_singleton.
Qed.
End DictFacts.

Section Discovery.

Lemma entry_has_inv e k p pid p0 :
  entry_has e k p -> Entry.product_id e = Some pid -> Entry.path e = Some p0 ->
  k = entry_key e pid /\ p = p0.
Proof.
  intros (pid' & Hpid & Hp & Hk) Hpid0 Hp0.
  rewrite Hpid in Hpid0. rewrite Hp in Hp0.
  inversion Hpid0; inversion Hp0; subst. split; reflexivity.
Qed.

Lemma entry_has_malformed e k p :
  Entry.product_id e = None \/ Entry.path e = None -> ~ entry_has e k p.
Proof.
  intros [H|H] (pid' & Hpid & Hp & Hk); congruence.
Qed.

(** An entry without a product id or a path raises [KeyError] before the
    dictionary is touched. *)
Lemma scan_entry_malformed g e :
  Entry.product_id e = None \/ Entry.path e = None ->
  exists m, scan_entry g e = Raise (KeyError m).
Proof.
  intros H. unfold scan_entry.
  destruct (Entry.product_id e) as [pid|]; cbn [getitem rbind]; [|eauto].
  destruct H as [H|H]; [discriminate|]. rewrite H. cbn [getitem rbind]. eauto.
Qed.

(** A well-formed entry always succeeds, and sets its group to the old
    group (or a fresh one) with its path added. *)
Lemma scan_entry_ok g e pid p :
  Entry.product_id e = Some pid -> Entry.path e = Some p ->
  scan_entry g e
  = Ok (dict_set (entry_key e pid)
          (add_interface (default (fresh_group pid) (dict_get (entry_key e pid) g))
                         p (default (-1) (Entry.interface_number e)))
          g).
Proof.
  intros Hpid Hp. unfold scan_entry. rewrite Hpid, Hp. cbn [getitem rbind].
  cbv zeta. fold (entry_key e pid). fold (fresh_group pid).
  destruct (dict_get (entry_key e pid) g) as [group|] eqn:Eg;
    cbn [default from_option]; unfold id.
  - rewrite Eg. cbn [getitem rbind]. unfold add_interface.
    destruct (decide _) as [_|_]; [|reflexivity].
    rewrite dict_set_id by exact Eg. reflexivity.
  - rewrite dict_get_set_eq. cbn [getitem rbind]. unfold add_interface.
    destruct (decide _) as [Hin|_].
    + cbn in Hin. apply elem_of_nil in Hin. contradiction.
    + rewrite dict_set_set. reflexivity.
Qed.

Lemma add_interface_pid d p n : Dev.pid (add_interface d p n) = Dev.pid d.
Proof. unfold add_interface. destruct (decide _); reflexivity. Qed.

Lemma add_interface_elem d p n i :
  i ∈ Dev.interfaces (add_interface d p n) ->
  i ∈ Dev.interfaces d \/ (i = Iface.mk p (Some n)).
Proof.
  unfold add_interface. destruct (decide _); cbn [Dev.interfaces]; [tauto|].
  rewrite elem_of_app, list_elem_of_singleton. tauto.
Qed.

Lemma add_interface_paths d p n q :
  q ∈ Iface.path <$> Dev.interfaces (add_interface d p n)
  <-> q ∈ Iface.path <$> Dev.interfaces d \/ q = p.
Proof.
  unfold add_interface. destruct (decide _) as [Hin|Hn]; cbn [Dev.interfaces].
  - split; [tauto|]. intros [H| ->]; assumption.
  - rewrite fmap_app, elem_of_app. cbn. rewrite list_elem_of_singleton. tauto.
Qed.

Lemma add_interface_NoDup d p n :
  NoDup (Iface.path <$> Dev.interfaces d) ->
  NoDup (Iface.path <$> Dev.interfaces (add_interface d p n)).
Proof.
  intros Hnd. unfold add_interface.
  destruct (decide _) as [Hin|Hn]; cbn [Dev.interfaces]; [exact Hnd|].
  rewrite fmap_app. apply NoDup_app. split; [exact Hnd|]. split.
  - intros x Hx Hx'. cbn in Hx'. apply list_elem_of_singleton in Hx'.
    subst. contradiction.
  - apply NoDup_singleton.
Qed.

Lemma scan_inv_nil : scan_inv [] [].
Proof.
  split; [constructor|]. split.
  - intros k. cbn. split.
    + intros [x Hx]. discriminate.
    + intros (e & p & He & _). apply elem_of_nil in He. contradiction.
  - intros k d H. discriminate.
Qed.

Lemma scan_inv_skip seen g e :
  scan_inv seen g ->
  Entry.product_id e = None \/ Entry.path e = None ->
  scan_inv (seen ++ [e]) g.
Proof.
  intros (Hnd & Hkeys & Hgroups) Hbad.
  assert (Hmem : forall e' k p, e' ∈ seen ++ [e] -> entry_has e' k p -> e' ∈ seen).
  { intros e' k p Hin Hhas. apply elem_of_app in Hin. destruct Hin as [?|Hin]; [assumption|].
    apply list_elem_of_singleton in Hin. subst.
    exfalso. revert Hhas. apply entry_has_malformed, Hbad. }
  split; [exact Hnd|]. split.
  - intros k. rewrite Hkeys. split.
    + intros (e' & p & He' & Hhas). exists e', p. split; [|exact Hhas].
      apply elem_of_app. left. exact He'.
    + intros (e' & p & He' & Hhas). exists e', p. split; [|exact Hhas].
      eapply Hmem; eassumption.
  - intros k d Hd. destruct (Hgroups k d Hd) as (Hpid & Hndp & Hfrom & Hall).
    split; [exact Hpid|]. split; [exact Hndp|]. split.
    + intros i Hi. destruct (Hfrom i Hi) as (e' & He' & Hhas & Hnum).
      exists e'. split; [apply elem_of_app; left; exact He'|]. split; assumption.
    + intros e' p He' Hhas. apply (Hall e' p); [|exact Hhas].
      eapply Hmem; eassumption.
Qed.

Lemma scan_inv_step seen g e pid p :
  scan_inv seen g ->
  Entry.product_id e = Some pid -> Entry.path e = Some p ->
  scan_inv (seen ++ [e])
    (dict_set (entry_key e pid)
       (add_interface (default (fresh_group pid) (dict_get (entry_key e pid) g))
                      p (default (-1) (Entry.interface_number e)))
       g).
Proof.
  intros (Hnd & Hkeys & Hgroups) Hpid Hp.
  set (k0 := entry_key e pid).
  set (n := default (-1) (Entry.interface_number e)).
  set (old := default (fresh_group pid) (dict_get k0 g)).
  assert (He : entry_has e k0 p) by (exists pid; auto).
  assert (Hold : Dev.pid old = snd k0
                 /\ NoDup (Iface.path <$> Dev.interfaces old)
                 /\ (forall i, i ∈ Dev.interfaces old ->
                       exists e', e' ∈ seen /\ entry_has e' k0 (Iface.path i)
                         /\ Iface.interface_number i
                            = Some (default (-1) (Entry.interface_number e')))
                 /\ (forall e' q, e' ∈ seen -> entry_has e' k0 q ->
                       q ∈ Iface.path <$> Dev.interfaces old)).
  { unfold old. destruct (dict_get k0 g) as [d|] eqn:Ed; cbn [default from_option].
    - apply (Hgroups k0 d Ed).
    - split; [reflexivity|]. split; [constructor|]. split.
      + intros i Hi. apply elem_of_nil in Hi. contradiction.
      + intros e' q He' Hhas. exfalso.
        assert (Hs : is_Some (dict_get k0 g)) by (apply Hkeys; eauto).
        rewrite Ed in Hs. destruct Hs as [x Hx]. discriminate. }
  destruct Hold as (Hopid & Hond & Hofrom & Hoall).
  assert (Hother : forall e' k q, e' ∈ seen ++ [e] -> entry_has e' k q ->
                     k <> k0 -> e' ∈ seen).
  { intros e' k q Hin Hhas Hne. apply elem_of_app in Hin.
    destruct Hin as [?|Hin]; [assumption|].
    apply list_elem_of_singleton in Hin. subst e'.
    destruct (entry_has_inv _ _ _ _ _ Hhas Hpid Hp) as [Hk _]. contradiction. }
  split; [apply dict_set_NoDup, Hnd|]. split.
  - intros k. destruct (decide (k0 = k)) as [<-|Hne].
    + rewrite dict_get_set_eq. split; [|eauto].
      intros _. exists e, p. split; [|exact He].
      apply elem_of_app. right. apply list_elem_of_singleton. reflexivity.
    + rewrite dict_get_set_ne by exact Hne. rewrite Hkeys. split.
      * intros (e' & q & He' & Hhas). exists e', q. split; [|exact Hhas].
        apply elem_of_app. left. exact He'.
      * intros (e' & q & He' & Hhas). exists e', q. split; [|exact Hhas].
        apply (Hother e' k q); [assumption..|congruence].
  - intros k d. destruct (decide (k0 = k)) as [<-|Hne].
    + rewrite dict_get_set_eq. intros Hd. inversion Hd; subst d. clear Hd.
      split; [rewrite add_interface_pid; exact Hopid|].
      split; [apply add_interface_NoDup, Hond|]. split.
      * intros i Hi. apply add_interface_elem in Hi. destruct Hi as [Hi| ->].
        -- destruct (Hofrom i Hi) as (e' & He' & Hhas & Hnum).
           exists e'. split; [apply elem_of_app; left; exact He'|]. split; assumption.
        -- exists e. split; [|split; [exact He | reflexivity]].
           apply elem_of_app. right. apply list_elem_of_singleton. reflexivity.
      * intros e' q He' Hhas. apply add_interface_paths.
        apply elem_of_app in He'. destruct He' as [He'|He'].
        -- left. apply (Hoall e' q); assumption.
        -- apply list_elem_of_singleton in He'. subst e'. right.
           apply (entry_has_inv _ _ _ _ _ Hhas Hpid Hp).
    + rewrite dict_get_set_ne by exact Hne. intros Hd.
      destruct (Hgroups k d Hd) as (Hdpid & Hdnd & Hdfrom & Hdall).
      split; [exact Hdpid|]. split; [exact Hdnd|]. split.
      * intros i Hi. destruct (Hdfrom i Hi) as (e' & He' & Hhas & Hnum).
        exists e'. split; [apply elem_of_app; left; exact He'|]. split; assumption.
      * intros e' q He' Hhas. apply (Hdall e' q); [|exact Hhas].
        apply (Hother e' k q); [assumption..|congruence].
Qed.

(** The loop never raises and maintains the invariant. *)
Lemma scan_loop_inv l : forall seen g,
  scan_inv seen g ->
  exists g', scan_loop l g = Ok g' /\ scan_inv (seen ++ l) g'.
Proof.
  induction l as [|e l IH]; intros seen g Hinv.
  - exists g. rewrite app_nil_r. split; [reflexivity | exact Hinv].
  - cbn [scan_loop].
    replace (seen ++ e :: l) with ((seen ++ [e]) ++ l)
      by (rewrite <- app_assoc; reflexivity).
    destruct (Entry.product_id e) as [pid|] eqn:Hpid;
      [destruct (Entry.path e) as [p|] eqn:Hp|].
    + rewrite (scan_entry_ok g e pid p Hpid Hp).
      apply IH. apply scan_inv_step; assumption.
    + destruct (scan_entry_malformed g e (or_intror Hp)) as [m ->].
      apply IH. apply scan_inv_skip; [assumption | right; exact Hp].
    + destruct (scan_entry_malformed g e (or_introl Hpid)) as [m ->].
      apply IH. apply scan_inv_skip; [assumption | left; exact Hpid].
Qed.

(** Entries without a path can be removed without changing the outcome. *)
Lemma scan_loop_drop_malformed l : forall g,
  scan_loop (List.filter has_path l) g = scan_loop l g.
Proof.
  induction l as [|e l IH]; intros g; [reflexivity|].
  cbn [List.filter]. unfold has_path at 1.
  destruct (Entry.path e) as [p|] eqn:Hp.
  - cbn [scan_loop]. destruct (scan_entry g e) as [g'|[]]; auto.
  - cbn [scan_loop].
    destruct (scan_entry_malformed g e (or_intror Hp)) as [m ->]. apply IH.
Qed.

Lemma filter_filter_comm {A} (f h : A -> bool) (l : list A) :
  List.filter f (List.filter h l) = List.filter h (List.filter f l).
Proof.
  induction l as [|x l IH]; [reflexivity|]. cbn [List.filter].
  destruct (h x) eqn:Eh, (f x) eqn:Ef; cbn [List.filter];
    rewrite ?Eh, ?Ef, IH; reflexivity.
Qed.

Lemma filter_idem {A} (f : A -> bool) (l : list A) :
  List.filter f (List.filter f l) = List.filter f l.
Proof.
  induction l as [|x l IH]; [reflexivity|]. cbn [List.filter].
  destruct (f x) eqn:Ef; cbn [List.filter]; rewrite ?Ef, IH; reflexivity.
Qed.

(** The two early returns of [scan_razer_devices] agree with the loop. *)
Lemma scan_razer_devices_grouped all_devices :
  scan_razer_devices (EnumerateReturns all_devices)
  = (g <-- scan_grouped all_devices ;; Ok (snd <$> g)).
Proof.
  unfold scan_razer_devices, scan_grouped.
  destruct all_devices as [|e l]; [reflexivity|].
  destruct (List.filter in_parameterized_pids (e :: l)); reflexivity.
Qed.

Lemma elem_of_filter_bool {A} (f : A -> bool) (l : list A) (x : A) :
  x ∈ List.filter f l <-> x ∈ l /\ f x = true.
Proof. rewrite !list_elem_of_In. apply filter_In. Qed.

Lemma in_parameterized_pids_registered e pid :
  in_parameterized_pids e = true -> Entry.product_id e = Some pid ->
  is_Some (RAZER_DEVICES !! pid).
Proof.
  unfold in_parameterized_pids. intros H Hpid. rewrite Hpid in H.
  apply bool_decide_eq_true in H. exact H.
Qed.

Lemma entry_has_registered e k p :
  entry_has e k p ->
  (in_parameterized_pids e = true <-> is_Some (RAZER_DEVICES !! snd k)).
Proof.
  intros (pid & Hpid & _ & Hk). unfold in_parameterized_pids. rewrite Hpid, <- Hk.
  cbn [entry_key snd]. apply bool_decide_eq_true.
Qed.

(** Leaving out entries that are unregistered or malformed does not change
    the outcome of the loop. *)
Lemma scan_loop_drop_excluded (keep : Entry.t -> bool) l :
  (forall e, e ∈ l -> keep e = false -> entry_excluded e) ->
  forall g,
    scan_loop (List.filter in_parameterized_pids (List.filter keep l)) g
    = scan_loop (List.filter in_parameterized_pids l) g.
Proof.
  induction l as [|e l IH]; intros Hex g; [reflexivity|].
  assert (Hl : forall e', e' ∈ l -> keep e' = false -> entry_excluded e')
    by (intros e' He'; apply Hex, elem_of_cons; right; exact He').
  specialize (IH Hl).
  cbn [List.filter]. destruct (keep e) eqn:Ek.
  - cbn [List.filter]. destruct (in_parameterized_pids e); [|apply IH].
    cbn [scan_loop]. destruct (scan_entry g e) as [g'|[]]; auto.
  - destruct (in_parameterized_pids e) eqn:Ereg; [|apply IH].
    assert (He : entry_excluded e)
      by (apply Hex; [apply elem_of_cons; left; reflexivity | exact Ek]).
    unfold entry_excluded in He. unfold in_parameterized_pids in Ereg.
    cbn [scan_loop].
    destruct (Entry.product_id e) as [pid|] eqn:Hpid; [|discriminate].
    apply bool_decide_eq_true in Ereg. destruct Ereg as [name Hname].
    destruct He as [He|He]; [congruence|].
    destruct (scan_entry_malformed g e (or_intror He)) as [m ->]. apply IH.
Qed.

(** C8: a failed enumeration gives the empty list; otherwise the scan does
    not raise and builds one descriptor per (serial, product string,
    product id) of the entries that have a path and a product id of the
    device registry: a key has a descriptor exactly when its product id is
    registered and some entry with a path has this key, and the descriptor
    lists exactly the distinct paths of these entries.  So every entry with
    a registered product id and a path is represented, no descriptor has an
    unregistered product id, and leaving entries that are unregistered or
    malformed out of the enumeration changes nothing. *)
Theorem scan_razer_devices_discovery :
  (forall msg, scan_razer_devices (EnumerateRaises msg) = Ok [])
  /\ forall all_devices, exists grouped,
      scan_grouped all_devices = Ok grouped
      /\ scan_razer_devices (EnumerateReturns all_devices) = Ok (snd <$> grouped)
      /\ NoDup (fst <$> grouped)
      /\ (forall k, k ∈ fst <$> grouped <->
            is_Some (RAZER_DEVICES !! snd k)
            /\ exists e p, e ∈ all_devices /\ entry_has e k p)
      /\ (forall k d, (k, d) ∈ grouped ->
            Dev.pid d = snd k
            /\ is_Some (RAZER_DEVICES !! Dev.pid d)
            /\ NoDup (Iface.path <$> Dev.interfaces d)
            /\ (forall p, p ∈ Iface.path <$> Dev.interfaces d <->
                  exists e, e ∈ all_devices /\ entry_has e k p))
      /\ (forall e pid p,
            e ∈ all_devices -> Entry.product_id e = Some pid ->
            Entry.path e = Some p -> is_Some (RAZER_DEVICES !! pid) ->
            exists d, (entry_key e pid, d) ∈ grouped
                      /\ d ∈ snd <$> grouped
                      /\ Dev.pid d = pid
                      /\ p ∈ Iface.path <$> Dev.interfaces d)
      /\ (forall keep : Entry.t -> bool,
            (forall e, e ∈ all_devices -> keep e = false -> entry_excluded e) ->
            scan_razer_devices (EnumerateReturns (List.filter keep all_devices))
            = scan_razer_devices (EnumerateReturns all_devices)).
Proof.
  split; [reflexivity|]. intros all_devices.
  destruct (scan_loop_inv (List.filter in_parameterized_pids all_devices) [] []
              scan_inv_nil) as (grouped & Hrun & Hnd & Hkeys & Hgroups).
  rewrite app_nil_l in Hkeys, Hgroups.
  assert (Hsome : forall k, k ∈ fst <$> grouped <-> is_Some (dict_get k grouped)).
  { intros k. pose proof (dict_get_None k grouped) as Hn.
    destruct (dict_get k grouped) as [d|].
    - split; [eauto|]. intros _.
      destruct (decide (k ∈ fst <$> grouped)) as [?|Hno]; [assumption|].
      apply Hn in Hno. discriminate.
    - split; [|intros [x Hx]; discriminate].
      intros Hin. exfalso. apply Hn in Hin; [assumption | reflexivity]. }
  assert (Hk : forall k, k ∈ fst <$> grouped <->
                 is_Some (RAZER_DEVICES !! snd k)
                 /\ exists e p, e ∈ all_devices /\ entry_has e k p).
  { intros k. rewrite Hsome, Hkeys. split.
    - intros (e & p & He & Hhas). apply elem_of_filter_bool in He.
      destruct He as [He Hreg].
      split; [apply (entry_has_registered e k p Hhas), Hreg | eauto].
    - intros (Hreg & e & p & He & Hhas). exists e, p.
      split; [|exact Hhas]. apply elem_of_filter_bool.
      split; [exact He | apply (entry_has_registered e k p Hhas), Hreg]. }
  assert (Hg : forall k d, (k, d) ∈ grouped ->
                 Dev.pid d = snd k
                 /\ is_Some (RAZER_DEVICES !! Dev.pid d)
                 /\ NoDup (Iface.path <$> Dev.interfaces d)
                 /\ (forall p, p ∈ Iface.path <$> Dev.interfaces d <->
                       exists e, e ∈ all_devices /\ entry_has e k p)).
  { intros k d Hin.
    assert (Hkin : k ∈ fst <$> grouped)
      by (apply (list_elem_of_fmap_2 fst) in Hin; exact Hin).
    apply Hk in Hkin. destruct Hkin as [Hreg _].
    apply (elem_of_dict_get _ _ _ Hnd) in Hin.
    destruct (Hgroups k d Hin) as (Hpid & Hndp & Hfrom & Hall).
    split; [exact Hpid|]. split; [rewrite Hpid; exact Hreg|].
    split; [exact Hndp|]. intros p. split.
    - intros Hp. apply list_elem_of_fmap in Hp. destruct Hp as (i & -> & Hi).
      destruct (Hfrom i Hi) as (e & He & Hhas & _).
      apply elem_of_filter_bool in He. exists e. tauto.
    - intros (e & He & Hhas). apply (Hall e p); [|exact Hhas].
      apply elem_of_filter_bool.
      split; [exact He | apply (entry_has_registered e k p Hhas), Hreg]. }
  exists grouped. split; [exact Hrun|].
  split; [rewrite scan_razer_devices_grouped; unfold scan_grouped in Hrun |- *;
          rewrite Hrun; reflexivity|].
  split; [exact Hnd|]. split; [exact Hk|]. split; [exact Hg|]. split.
  - intros e pid p He Hpid Hp Hreg.
    assert (Hhas : entry_has e (entry_key e pid) p) by (exists pid; auto).
    assert (Hkin : entry_key e pid ∈ fst <$> grouped).
    { apply Hk. split; [exact Hreg | eauto]. }
    apply Hsome in Hkin. destruct Hkin as [d Hd].
    apply dict_get_elem_of in Hd.
    exists d. split; [exact Hd|].
    split; [apply (list_elem_of_fmap_2 snd) in Hd; exact Hd|].
    destruct (Hg _ _ Hd) as (Hpd & _ & _ & Hpaths).
    split; [exact Hpd|]. apply Hpaths. eauto.
  - intros keep Hex. rewrite !scan_razer_devices_grouped. unfold scan_grouped.
    rewrite (scan_loop_drop_excluded keep all_devices Hex). reflexivity.
Qed.

(** The scenarios of the test suite: two entries of one device with the
    same path, a second interface, an entry without a path, an unregistered
    product id and a second device. *)
Example scan_razer_devices_example :
  scan_razer_devices
    (EnumerateReturns
       [Entry.mk (Some 0x00B7) (Some "/dev/hid0") (Some 0) (Some "SN1") (Some "DA V3");
        Entry.mk (Some 0x00B7) (Some "/dev/hid0") (Some 0) (Some "SN1") (Some "DA V3");
        Entry.mk (Some 0x00B7) None (Some 2) (Some "SN_BAD") (Some "Bad");
        Entry.mk (Some 0xFFFF) (Some "/dev/hid9") (Some 0) (Some "SN9") (Some "Unknown");
        Entry.mk (Some 0x0099) (Some "/dev/hid2") None (Some "SN2") (Some "Basilisk V3");
        Entry.mk (Some 0x00B7) (Some "/dev/hid1") (Some 1) (Some "SN1") (Some "DA V3")]%string)
  = Ok [Dev.mk "Razer DeathAdder V3 Pro (Wireless)" 0x00B7 "mouse" (Some 0x1F)
               [Iface.mk "/dev/hid0" (Some 0); Iface.mk "/dev/hid1" (Some 1)]
               None None None None None None None;
        Dev.mk "Razer Basilisk V3" 0x0099 "mouse" (Some 0x1F)
               [Iface.mk "/dev/hid2" (Some (-1))]
               None None None None None None None]%string.
Proof. vm_compute. reflexivity. Qed.

End Discovery.

(** * Properties of the transport *)

Section SortFacts.

Lemma key_ltb_lt a b : key_ltb a b = true <-> key_lt a b.
Proof.
  destruct a as [[a1 a2] a3], b as [[b1 b2] b3]. unfold key_ltb, key_lt. cbn.
  rewrite !orb_true_iff, !andb_true_iff, !orb_true_iff, !andb_true_iff,
    !Z.ltb_lt, !Z.eqb_eq. tauto.
Qed.

Lemma key_ltb_ge a b : key_ltb a b = false <-> key_le b a.
Proof.
  unfold key_le. rewrite <- key_ltb_lt. destruct (key_ltb a b); split; congruence.
Qed.

Lemma key_lt_irrefl a : ~ key_lt a a.
Proof. unfold key_lt. lia. Qed.

Lemma key_le_trans a b c : key_le a b -> key_le b c -> key_le a c.
Proof. unfold key_le, key_lt. lia. Qed.

Lemma key_lt_le a b : key_lt a b -> key_le a b.
Proof. unfold key_le, key_lt. lia. Qed.

Context {A : Type} (key : A -> Z * Z * Z).

Lemma insert_stable_perm x l : insert_stable key x l ≡ₚ x :: l.
Proof.
  induction l as [|y l IH]; cbn [insert_stable]; [reflexivity|].
  destruct (key_ltb (key y) (key x)); [|reflexivity].
  rewrite IH. apply Permutation_swap.
Qed.

Lemma sort_by_key_perm l : sort_by_key key l ≡ₚ l.
Proof.
  induction l as [|x l IH]; cbn [sort_by_key]; [reflexivity|].
  rewrite insert_stable_perm, IH. reflexivity.
Qed.

Lemma insert_stable_sorted x l :
  StronglySorted (fun a b => key_le (key a) (key b)) l ->
  StronglySorted (fun a b => key_le (key a) (key b)) (insert_stable key x l).
Proof.
  induction 1 as [|y l Hs IH Hy]; cbn [insert_stable].
  - constructor; constructor.
  - destruct (key_ltb (key y) (key x)) eqn:E.
    + constructor; [exact IH|].
      apply Forall_forall. intros z Hz.
      apply (elem_of_Permutation_proper _ _ _ (insert_stable_perm x l)) in Hz.
      apply elem_of_cons in Hz. destruct Hz as [->|Hz].
      * apply key_lt_le, key_ltb_lt, E.
      * rewrite Forall_forall in Hy. apply Hy, Hz.
    + apply key_ltb_ge in E. constructor; [constructor; assumption|].
      constructor; [exact E|].
      apply Forall_forall. intros z Hz. rewrite Forall_forall in Hy.
      eapply key_le_trans; [exact E | apply Hy, Hz].
Qed.

Lemma sort_by_key_sorted l :
  StronglySorted (fun a b => key_le (key a) (key b)) (sort_by_key key l).
Proof.
  induction l as [|x l IH]; cbn [sort_by_key]; [constructor|].
  apply insert_stable_sorted, IH.
Qed.

(** Stability: the elements with one key keep their order. *)
Lemma insert_stable_filter x l k :
  filter (fun y => key y = k) (insert_stable key x l)
  = filter (fun y => key y = k) (x :: l).
Proof.
  induction l as [|y l IH]; cbn [insert_stable]; [reflexivity|].
  destruct (key_ltb (key y) (key x)) eqn:E; [|reflexivity].
  apply key_ltb_lt in E.
  rewrite (filter_cons _ y), IH, !(filter_cons _ x), (filter_cons _ y).
  destruct (decide (key x = k)) as [Hx|Hx]; [|reflexivity].
  destruct (decide (key y = k)) as [Hy|Hy]; [|reflexivity].
  exfalso. rewrite Hx, Hy in E. exact (key_lt_irrefl _ E).
Qed.

Lemma sort_by_key_stable l k :
  filter (fun y => key y = k) (sort_by_key key l) = filter (fun y => key y = k) l.
Proof.
  induction l as [|x l IH]; cbn [sort_by_key]; [reflexivity|].
  rewrite insert_stable_filter, !filter_cons, IH. reflexivity.
Qed.

(** The first element of the sorted list has a least key. *)
Lemma sort_by_key_head x rest l y :
  sort_by_key key l = x :: rest -> y ∈ l -> key_le (key x) (key y).
Proof.
  intros Hs Hy.
  pose proof (sort_by_key_sorted l) as Hsorted. rewrite Hs in Hsorted.
  apply (elem_of_Permutation_proper _ _ _ (sort_by_key_perm l)) in Hy.
  rewrite Hs in Hy. apply elem_of_cons in Hy. destruct Hy as [->|Hy].
  - exact (key_lt_irrefl _).
  - apply StronglySorted_inv in Hsorted. destruct Hsorted as [_ Hall].
    rewrite Forall_forall in Hall. apply Hall, Hy.
Qed.

End SortFacts.

Section Exchange.

Variable env : hid_env.
Variable report_with_id : list Z.

Lemma attempt_history path st :
  history (snd (attempt env report_with_id path st))
  = history st ++ [mk_call path report_with_id].
Proof.
  unfold attempt.
  destruct (env (history st) (mk_call path report_with_id)) as [r|[]];
    try reflexivity.
  destruct (fst (validate_response r)); reflexivity.
Qed.

Lemma attempt_attempted path st :
  attempted_ifaces (snd (attempt env report_with_id path st)) = attempted_ifaces st.
Proof.
  unfold attempt.
  destruct (env (history st) (mk_call path report_with_id)) as [r|[]];
    try reflexivity.
  destruct (fst (validate_response r)); reflexivity.
Qed.

(** A returned response is what the call just made answered, and it
    validates. *)
Lemma attempt_return path st r st' :
  attempt env report_with_id path st = (ExitReturn r, st') ->
  env (history st) (mk_call path report_with_id) = Ok r
  /\ fst (validate_response r) = true.
Proof.
  unfold attempt.
  destruct (env (history st) (mk_call path report_with_id)) as [r0|[]];
    try discriminate.
  destruct (fst (validate_response r0)) eqn:E; [|discriminate].
  intros H. inversion H; subst. split; [reflexivity | exact E].
Qed.

(** The attempt loop makes between one and two calls, all on its path. *)
Lemma attempts_loop_shape path attempts : forall st,
  exists k,
    (k <= length attempts)%nat
    /\ (attempts <> [] -> 1 <= k)%nat
    /\ history (snd (attempts_loop env report_with_id path attempts st))
       = history st ++ replicate k (mk_call path report_with_id)
    /\ attempted_ifaces (snd (attempts_loop env report_with_id path attempts st))
       = attempted_ifaces st
    /\ (forall r, fst (attempts_loop env report_with_id path attempts st) = Some r ->
          fst (validate_response r) = true
          /\ exists pre, history (snd (attempts_loop env report_with_id path attempts st))
                         = pre ++ [mk_call path report_with_id]
                         /\ env pre (mk_call path report_with_id) = Ok r).
Proof.
  induction attempts as [|a attempts IH]; intros st.
  - exists 0%nat. cbn [attempts_loop fst snd length replicate]. rewrite app_nil_r.
    split; [lia|]. split; [congruence|]. split; [reflexivity|].
    split; [reflexivity|]. intros r H. discriminate.
  - cbn [attempts_loop].
    pose proof (attempt_history path st) as Hh.
    pose proof (attempt_attempted path st) as Ha.
    destruct (attempt env report_with_id path st) as [[r| |] st'] eqn:E;
      cbn [fst snd] in *.
    + exists 1%nat. cbn [length replicate].
      split; [lia|]. split; [lia|]. split; [exact Hh|]. split; [exact Ha|].
      intros r0 Hr. inversion Hr; subst r0.
      destruct (attempt_return _ _ _ _ E) as [He Hv].
      split; [exact Hv|]. exists (history st). split; [exact Hh | exact He].
    + exists 1%nat. cbn [length replicate].
      split; [lia|]. split; [lia|]. split; [exact Hh|]. split; [exact Ha|].
      intros r0 Hr. discriminate.
    + destruct (IH st') as (k & Hk & _ & Hh' & Ha' & Hr').
      exists (S k). cbn [length]. split; [lia|]. split; [lia|].
      split; [|split].
      * rewrite Hh', Hh, <- app_assoc. reflexivity.
      * rewrite Ha', Ha. reflexivity.
      * exact Hr'.
Qed.

Lemma calls_of_cons iface rest k ks :
  calls_of report_with_id (iface :: rest) (k :: ks)
  = replicate k (mk_call (Iface.path iface) report_with_id)
    ++ calls_of report_with_id rest ks.
Proof. reflexivity. Qed.

Lemma calls_of_nil_r ifaces : calls_of report_with_id ifaces [] = [].
Proof. destruct ifaces; reflexivity. Qed.

(** The interface loop visits a prefix of its list in order, with one or
    two calls on each visited interface; it stops at the first response
    that validates, which is the answer to the last call made. *)
Lemma interfaces_loop_shape ifaces : forall st,
  exists ks,
    (length ks <= length ifaces)%nat
    /\ Forall (fun k => 1 <= k <= 2)%nat ks
    /\ history (snd (interfaces_loop env report_with_id ifaces st))
       = history st ++ calls_of report_with_id ifaces ks
    /\ attempted_ifaces (snd (interfaces_loop env report_with_id ifaces st))
       = attempted_ifaces st
         ++ ((fun i => default (-1) (Iface.interface_number i))
               <$> take (length ks) ifaces)
    /\ (fst (interfaces_loop env report_with_id ifaces st) = None ->
          length ks = length ifaces)
    /\ (forall iface r,
          fst (interfaces_loop env report_with_id ifaces st) = Some (iface, r) ->
          ifaces !! (length ks - 1)%nat = Some iface
          /\ (1 <= length ks)%nat
          /\ fst (validate_response r) = true
          /\ exists pre,
               history (snd (interfaces_loop env report_with_id ifaces st))
               = pre ++ [mk_call (Iface.path iface) report_with_id]
               /\ env pre (mk_call (Iface.path iface) report_with_id) = Ok r).
Proof.
  induction ifaces as [|iface rest IH]; intros st.
  - exists []. cbn [interfaces_loop fst snd length take fmap list_fmap].
    unfold calls_of. cbn [zip_with concat]. rewrite !app_nil_r.
    split; [lia|]. split; [constructor|]. split; [reflexivity|].
    split; [reflexivity|]. split; [reflexivity|]. intros i r H. discriminate.
  - cbn [interfaces_loop].
    set (st1 := mk_state _ _ _ _).
    destruct (attempts_loop_shape (Iface.path iface) (seq 0 2) st1)
      as (k & Hk & Hk1 & Hh & Ha & Hr).
    assert (Hk12 : (1 <= k <= 2)%nat).
    { split; [apply Hk1; discriminate | exact Hk]. }
    destruct (attempts_loop env report_with_id (Iface.path iface) (seq 0 2) st1)
      as [[r|] st'] eqn:E; cbn [fst snd] in *.
    + exists [k]. rewrite calls_of_cons, calls_of_nil_r, app_nil_r.
      cbn [length take fmap list_fmap].
      split; [lia|]. split; [apply List.Forall_cons; [lia | apply List.Forall_nil]|].
      split; [exact Hh|]. split; [rewrite Ha; destruct rest; reflexivity|].
      split; [discriminate|].
      intros i r0 H. inversion H; subst i r0.
      destruct (Hr r eq_refl) as (Hv & pre & Hpre & Henv).
      split; [reflexivity|]. split; [lia|]. split; [exact Hv|].
      exists pre. split; assumption.
    + destruct (IH st') as (ks & Hlen & Hall & Hh' & Ha' & Hnone & Hsome).
      exists (k :: ks). rewrite calls_of_cons. cbn [length].
      split; [lia|]. split; [apply List.Forall_cons; assumption|].
      split; [rewrite Hh', Hh, <- app_assoc; reflexivity|].
      split; [rewrite Ha', Ha; cbn [st1 attempted_ifaces take];
              rewrite fmap_cons, <- app_assoc; reflexivity|].
      split; [intros H; rewrite (Hnone H); reflexivity|].
      intros i r H. destruct (Hsome i r H) as (Hi & Hl1 & Hv & Hpre).
      split; [|split; [lia|split; [exact Hv | exact Hpre]]].
      replace (S (length ks) - 1)%nat with (S (length ks - 1)) by lia.
      exact Hi.
Qed.

End Exchange.

Section Policy.

Variable env : hid_env.

(** The attempt loop, by the outcome of its first call. *)
Lemma attempts_loop_valid rwi path st r :
  env (history st) (mk_call path rwi) = Ok r ->
  fst (validate_response r) = true ->
  attempts_loop env rwi path (seq 0 2) st
  = (Some r, mk_state (attempted_ifaces st) (io_errors st) (open_failed_count st)
                      (history st ++ [mk_call path rwi])).
Proof.
  intros He Hv. cbn [seq attempts_loop]. unfold attempt. rewrite He, Hv. reflexivity.
Qed.

Lemma attempts_loop_invalid rwi path st r :
  env (history st) (mk_call path rwi) = Ok r ->
  fst (validate_response r) = false ->
  attempts_loop env rwi path (seq 0 2) st
  = (None, mk_state (attempted_ifaces st) (io_errors st) (open_failed_count st)
                    (history st ++ [mk_call path rwi])).
Proof.
  intros He Hv. cbn [seq attempts_loop]. unfold attempt. rewrite He, Hv. reflexivity.
Qed.

Lemma attempts_loop_value_error rwi path st msg :
  env (history st) (mk_call path rwi) = Raise (ValueError msg) ->
  attempts_loop env rwi path (seq 0 2) st
  = (None, mk_state (attempted_ifaces st) (io_errors st ++ [msg])
                    (open_failed_count st) (history st ++ [mk_call path rwi])).
Proof.
  intros He. cbn [seq attempts_loop]. unfold attempt. rewrite He. reflexivity.
Qed.

Lemma attempts_loop_io_error rwi path st msg :
  env (history st) (mk_call path rwi) = Raise (OSError msg) ->
  let st1 := snd (attempt env rwi path st) in
  history st1 = history st ++ [mk_call path rwi]
  /\ io_errors st1 = io_errors st ++ [msg]
  /\ attempts_loop env rwi path (seq 0 2) st
     = match attempt env rwi path st1 with
       | (ExitReturn r, st2) => (Some r, st2)
       | (_, st2) => (None, st2)
       end.
Proof.
  intros He. cbn zeta.
  assert (E1 : attempt env rwi path st
               = (ExitContinue,
                  mk_state (attempted_ifaces st) (io_errors st ++ [msg])
                    (if contains "open failed" (lower msg)
                     then open_failed_count st + 1 else open_failed_count st)
                    (history st ++ [mk_call path rwi])))
    by (unfold attempt; rewrite He; reflexivity).
  cbn [seq attempts_loop]. rewrite E1. cbn [snd history io_errors].
  split; [reflexivity|]. split; [reflexivity|].
  destruct (attempt _ _ _ _) as [[r| |] st2]; reflexivity.
Qed.

(** A response that validates ends the interface loop at once. *)
Lemma interfaces_loop_stops rwi iface rest st r st' :
  attempts_loop env rwi (Iface.path iface) (seq 0 2)
    (mk_state (attempted_ifaces st ++ [default (-1) (Iface.interface_number iface)])
              (io_errors st) (open_failed_count st) (history st))
  = (Some r, st') ->
  interfaces_loop env rwi (iface :: rest) st = (Some (iface, r), st').
Proof. intros H. cbn [interfaces_loop]. rewrite H. reflexivity. Qed.

(** The two exits of [send_and_receive_report]. *)
Lemma send_and_receive_report_exits d report label h :
  let loop :=
    interfaces_loop env (0 :: report)
      (sort_by_key (sort_key (Dev.preferred_interface_path d)) (Dev.interfaces d))
      (mk_state [] [] 0 h) in
  let res := send_and_receive_report env d report label h in
  snd res = history (snd loop)
  /\ Dev._diag_last_attempted_interfaces (snd (fst res))
     = Some (attempted_ifaces (snd loop))
  /\ Dev._diag_last_io_errors (snd (fst res)) = Some (last5 (io_errors (snd loop)))
  /\ Dev._diag_last_open_failed_count (snd (fst res))
     = Some (open_failed_count (snd loop))
  /\ Dev._diag_last_command (snd (fst res)) = Some label
  /\ Dev.interfaces (snd (fst res)) = Dev.interfaces d
  /\ match fst loop with
     | Some (iface, r) =>
         fst (fst res) = r
         /\ Dev._diag_last_ok (snd (fst res)) = Some true
         /\ Dev.preferred_interface_path (snd (fst res)) = Some (Iface.path iface)
         /\ Dev._diag_last_interface (snd (fst res))
            = Some (default (-1) (Iface.interface_number iface))
     | None =>
         fst (fst res) = None
         /\ Dev._diag_last_ok (snd (fst res)) = Some false
         /\ Dev.preferred_interface_path (snd (fst res))
            = Dev.preferred_interface_path d
         /\ Dev._diag_last_interface (snd (fst res)) = Dev._diag_last_interface d
     end.
Proof.
  cbn zeta. unfold send_and_receive_report.
  destruct (interfaces_loop _ _ _ _) as [[[iface r]|] st]; cbn; repeat split.
Qed.

End Policy.

Section RetryPolicy.

Variable env : hid_env.
Variable rwi : list Z.

Lemma retry_policy_impl (R R' : option (list Z) -> Prop) (M M' : Prop) k first second :
  (forall r, R r -> R' r) -> (M -> M') ->
  retry_policy R M k first second -> retry_policy R' M' k first second.
Proof.
  intros HR HM. unfold retry_policy.
  destruct first as [r|[]]; intros [Hk H]; (split; [exact Hk|]);
    try (destruct second as [r2|e2]);
    repeat match goal with
           | |- context [if ?b then _ else _] => destruct b
           end; auto.
Qed.

(** The attempt loop follows the policy on its path. *)
Lemma attempts_loop_policy path st :
  exists k,
    (1 <= k <= 2)%nat
    /\ history (snd (attempts_loop env rwi path (seq 0 2) st))
       = history st ++ replicate k (mk_call path rwi)
    /\ retry_policy
         (fun r => fst (attempts_loop env rwi path (seq 0 2) st) = Some r)
         (fst (attempts_loop env rwi path (seq 0 2) st) = None)
         k
         (env (history st) (mk_call path rwi))
         (env (history st ++ [mk_call path rwi]) (mk_call path rwi)).
Proof.
  cbn [seq attempts_loop]. unfold retry_policy, attempt.
  destruct (env (history st) (mk_call path rwi)) as [r|e] eqn:E1.
  - destruct (fst (validate_response r)); exists 1%nat;
      cbn [fst snd history replicate]; (split; [lia|]); auto.
  - destruct e.
    1: { exists 1%nat. cbn [fst snd history replicate]. split; [lia|]. auto. }
    all: cbn [history fst snd];
      (destruct (env (history st ++ [mk_call path rwi]) (mk_call path rwi))
         as [r2|e2];
       [destruct (fst (validate_response r2)) | destruct e2]);
      exists 2%nat; cbn [fst snd history replicate];
      rewrite <- ?app_assoc; (split; [lia|]); auto.
Qed.

Lemma interfaces_loop_policy ifaces : forall st,
  exists ks,
    (length ks <= length ifaces)%nat
    /\ (ifaces <> [] -> ks <> [])
    /\ Forall (fun k => 1 <= k <= 2)%nat ks
    /\ history (snd (interfaces_loop env rwi ifaces st))
       = history st ++ calls_of rwi ifaces ks
    /\ (fst (interfaces_loop env rwi ifaces st) = None ->
          length ks = length ifaces)
    /\ (forall iface r,
          fst (interfaces_loop env rwi ifaces st) = Some (iface, r) ->
          ifaces !! (length ks - 1)%nat = Some iface
          /\ (1 <= length ks)%nat
          /\ fst (validate_response r) = true
          /\ exists pre,
               history (snd (interfaces_loop env rwi ifaces st))
               = pre ++ [mk_call (Iface.path iface) rwi]
               /\ env pre (mk_call (Iface.path iface) rwi) = Ok r)
    /\ (forall j iface k,
          ifaces !! j = Some iface -> ks !! j = Some k ->
          retry_policy
            (fun r => (exists i, fst (interfaces_loop env rwi ifaces st) = Some (i, r))
                      /\ length ks = S j)
            ((S j < length ifaces -> S j < length ks)%nat
             /\ (S j = length ifaces ->
                 fst (interfaces_loop env rwi ifaces st) = None))
            k
            (env (history st ++ calls_of rwi (take j ifaces) (take j ks))
                 (mk_call (Iface.path iface) rwi))
            (env ((history st ++ calls_of rwi (take j ifaces) (take j ks))
                  ++ [mk_call (Iface.path iface) rwi])
                 (mk_call (Iface.path iface) rwi))).
Proof.
  induction ifaces as [|iface rest IH]; intros st.
  - exists []. cbn [interfaces_loop fst snd length].
    unfold calls_of at 1. cbn [zip_with concat]. rewrite app_nil_r.
    split; [lia|]. split; [congruence|]. split; [constructor|].
    split; [reflexivity|]. split; [reflexivity|].
    split; [intros i r H; discriminate|].
    intros j i k H. rewrite lookup_nil in H. discriminate.
  - cbn [interfaces_loop].
    set (st1 := mk_state _ _ _ _).
    destruct (attempts_loop_shape env rwi (Iface.path iface) (seq 0 2) st1)
      as (_ & _ & _ & _ & _ & Hr).
    destruct (attempts_loop_policy (Iface.path iface) st1) as (k & Hk12 & Hh & Hpol).
    change (history st1) with (history st) in Hh, Hpol.
    destruct (attempts_loop env rwi (Iface.path iface) (seq 0 2) st1)
      as [[r|] st'] eqn:E; cbn [fst snd] in *.
    + exists [k]. rewrite calls_of_cons, calls_of_nil_r, app_nil_r.
      cbn [length].
      split; [lia|]. split; [congruence|].
      split; [apply List.Forall_cons; [lia | apply List.Forall_nil]|].
      split; [exact Hh|]. split; [discriminate|]. split.
      * intros i r0 H. inversion H; subst i r0.
        destruct (Hr r eq_refl) as (Hv & pre & Hpre & Henv).
        split; [reflexivity|]. split; [lia|]. split; [exact Hv|].
        exists pre. split; assumption.
      * intros j i k0 Hi Hk0. destruct j as [|j]; [|discriminate Hk0].
        cbn in Hi, Hk0. inversion Hi; subst i. inversion Hk0; subst k0.
        cbn [take]. rewrite calls_of_nil_r, app_nil_r.
        eapply retry_policy_impl; [| |exact Hpol].
        -- intros r0 H0. inversion H0; subst r0. split; [eauto | reflexivity].
        -- intros H0. discriminate.
    + destruct (IH st') as (ks & Hlen & Hne & Hall & Hh' & Hnone & Hsome & Hp).
      exists (k :: ks). rewrite calls_of_cons. cbn [length].
      split; [lia|]. split; [congruence|].
      split; [apply List.Forall_cons; assumption|].
      split; [rewrite Hh', Hh, <- app_assoc; reflexivity|].
      split; [intros H; rewrite (Hnone H); reflexivity|]. split.
      * intros i r H. destruct (Hsome i r H) as (Hi & Hl1 & Hv & Hpre).
        split; [|split; [lia|split; [exact Hv | exact Hpre]]].
        replace (S (length ks) - 1)%nat with (S (length ks - 1)) by lia.
        exact Hi.
      * intros j i k0 Hi Hk0. destruct j as [|j].
        -- cbn in Hi, Hk0. inversion Hi; subst i. inversion Hk0; subst k0.
           cbn [take]. rewrite calls_of_nil_r, app_nil_r.
           eapply retry_policy_impl; [| |exact Hpol].
           ++ intros r0 H0. discriminate.
           ++ intros _. split.
              ** intros Hlt. destruct rest as [|i2 rest']; [cbn in Hlt; lia|].
                 assert (ks <> []) by (apply Hne; discriminate).
                 destruct ks; [contradiction | cbn; lia].
              ** intros Heq. destruct rest as [|i2 rest']; [reflexivity|].
                 cbn in Heq. lia.
        -- cbn [lookup list_lookup] in Hi, Hk0.
           specialize (Hp j i k0 Hi Hk0).
           cbn [take]. rewrite calls_of_cons.
           rewrite (app_assoc (history st)), <- Hh.
           eapply retry_policy_impl; [| |exact Hp].
           ++ intros r0 [H1 H2]. split; [exact H1 | lia].
           ++ intros [H1 H2]. split; [lia|]. intros H3. apply H2. lia.
Qed.

End RetryPolicy.

(** C5: the calls of one exchange go through a prefix of the sorted
    interfaces in order, with one or two calls on each, and a validated
    response is the answer to the last call made.  On every interface
    tried, by the outcome of the first call on it: a response that
    validates is returned and no further call is made; a response that
    does not validate and a [ValueError] are followed by no second call on
    the interface, and the next interface is tried (or [None] is returned
    after the last one); an I/O error, like any other error, is followed
    by exactly one more call on the same interface, after which a response
    that validates is returned and anything else moves to the next
    interface. *)
Theorem send_and_receive_report_retry_policy
    (env : hid_env) (d : Dev.t) (report : list Z) (label : string)
    (h : list hid_call) :
  let rwi := 0 :: report in
  let sorted :=
    sort_by_key (sort_key (Dev.preferred_interface_path d)) (Dev.interfaces d) in
  let res := send_and_receive_report env d report label h in
  exists ks,
    (length ks <= length sorted)%nat
    /\ Forall (fun k => 1 <= k <= 2)%nat ks
    /\ snd res = h ++ calls_of rwi sorted ks
    /\ (fst (fst res) = None -> length ks = length sorted)
    /\ (fst (fst res) <> None ->
        fst (validate_response (fst (fst res))) = true
        /\ exists iface pre,
             sorted !! (length ks - 1)%nat = Some iface
             /\ (1 <= length ks)%nat
             /\ snd res = pre ++ [mk_call (Iface.path iface) rwi]
             /\ env pre (mk_call (Iface.path iface) rwi) = Ok (fst (fst res)))
    /\ (forall j iface k,
          sorted !! j = Some iface -> ks !! j = Some k ->
          let before := h ++ calls_of rwi (take j sorted) (take j ks) in
          let call := mk_call (Iface.path iface) rwi in
          retry_policy
            (fun r => fst (fst res) = r /\ length ks = S j)
            ((S j < length sorted -> S j < length ks)%nat
             /\ (S j = length sorted -> fst (fst res) = None))
            k (env before call) (env (before ++ [call]) call)).
Proof.
  intros rwi sorted res.
  destruct (send_and_receive_report_exits env d report label h)
    as (Hh & _ & _ & _ & _ & _ & Hexit).
  fold rwi sorted res in Hh, Hexit.
  destruct (interfaces_loop_policy env rwi sorted (mk_state [] [] 0 h))
    as (ks & Hlen & _ & Hall & Hhist & Hnone & Hsome & Hpol).
  cbn [history] in Hhist, Hpol.
  exists ks. split; [exact Hlen|]. split; [exact Hall|].
  split; [rewrite Hh, Hhist; reflexivity|].
  destruct (fst (interfaces_loop env rwi sorted (mk_state [] [] 0 h)))
    as [[iface r]|] eqn:E.
  - destruct Hexit as (Hr & _).
    destruct (Hsome iface r eq_refl) as (Hi & Hl1 & Hv & pre & Hpre & Henv).
    split; [|split].
    + intros Hn. rewrite Hr in Hn. rewrite Hn in Hv.
      unfold validate_response in Hv. discriminate.
    + intros _. rewrite Hr. split; [exact Hv|].
      exists iface, pre. rewrite Hh. repeat split; assumption.
    + intros j i k Hi' Hk. cbn zeta.
      eapply retry_policy_impl; [| |exact (Hpol j i k Hi' Hk)].
      * intros r0 [[i0 H0] H1]. injection H0 as Hi0 Hr0. rewrite <- Hr0.
        split; [exact Hr | exact H1].
      * intros [H1 H2]. split; [exact H1|]. intros H3. specialize (H2 H3).
        discriminate.
  - destruct Hexit as (Hr & _). split; [intros _; apply Hnone; reflexivity|].
    split; [intros Hn; contradiction|].
    intros j i k Hi' Hk. cbn zeta.
    eapply retry_policy_impl; [| |exact (Hpol j i k Hi' Hk)].
    + intros r0 [[i0 H0] H1]. discriminate.
    + intros [H1 H2]. split; [exact H1|]. intros _. exact Hr.
Qed.

Section InterfaceOrder.

(** The interface with the cached path is tried first. *)
Lemma sorted_preferred_first (p : string) (ifaces : list Iface.t) i0 rest :
  (exists i, i ∈ ifaces /\ Iface.path i = p) ->
  sort_by_key (sort_key (Some p)) ifaces = i0 :: rest ->
  Iface.path i0 = p.
Proof.
  intros (i & Hi & Hp) Hs.
  pose proof (sort_by_key_head (sort_key (Some p)) i0 rest ifaces i Hs Hi) as Hle.
  unfold key_le, key_lt, sort_key in Hle. cbn [fst snd] in Hle.
  destruct (decide (Iface.path i = p)) as [_|]; [|contradiction].
  destruct (decide (Iface.path i0 = p)) as [|_]; [assumption|].
  exfalso. apply Hle. left. lia.
Qed.

(** Without a cached path among the interfaces, interface 0 is tried
    first. *)
Lemma sorted_zero_first (pref : option string) (ifaces : list Iface.t) i0 rest :
  (forall i p, i ∈ ifaces -> pref = Some p -> Iface.path i <> p) ->
  (exists i, i ∈ ifaces /\ Iface.interface_number i = Some 0) ->
  sort_by_key (sort_key pref) ifaces = i0 :: rest ->
  Iface.interface_number i0 = Some 0.
Proof.
  intros Hnp (i & Hi & Hz) Hs.
  pose proof (sort_by_key_head (sort_key pref) i0 rest ifaces i Hs Hi) as Hle.
  assert (Hi0 : i0 ∈ ifaces).
  { apply (elem_of_Permutation_proper _ _ _ (sort_by_key_perm (sort_key pref) ifaces)).
    rewrite Hs. apply elem_of_cons. left. reflexivity. }
  unfold key_le, key_lt, sort_key in Hle. cbn [fst snd] in Hle. rewrite Hz in Hle.
  cbn [default from_option] in Hle. unfold id in Hle.
  destruct pref as [p|].
  - pose proof (Hnp i p Hi eq_refl) as Hpi. pose proof (Hnp i0 p Hi0 eq_refl) as Hpi0.
    destruct (decide (Iface.path i0 = p)) as [|_]; [contradiction|].
    destruct (decide (Iface.path i = p)) as [|_]; [contradiction|].
    destruct (decide (0 = 0)) as [_|]; [|contradiction].
    destruct (Iface.interface_number i0) as [num|]; cbn [default from_option] in *;
      unfold id in *.
    + destruct (decide (num = 0)) as [|Hnum]; [congruence|].
      exfalso. apply Hle. right. split; [reflexivity|]. left. reflexivity.
    + exfalso. apply Hle. right. split; [reflexivity|]. left. reflexivity.
  - destruct (decide (0 = 0)) as [_|]; [|contradiction].
    destruct (Iface.interface_number i0) as [num|]; cbn [default from_option] in *;
      unfold id in *.
    + destruct (decide (num = 0)) as [|Hnum]; [congruence|].
      exfalso. apply Hle. right. split; [reflexivity|]. left. reflexivity.
    + exfalso. apply Hle. right. split; [reflexivity|]. left. reflexivity.
Qed.

(** C4 (failing input): a descriptor built by [scan_razer_devices] from an
    enumeration that reports interface 1 and an interface of unknown number
    (-1).  Every open fails, so all interfaces are tried: the unknown
    interface is tried first, before interface 1, not last. *)
Theorem send_and_receive_report_unknown_interface_first :
  exists d d' h',
    scan_razer_devices
      (EnumerateReturns
         [Entry.mk (Some 0x00B7) (Some "/dev/hid1") (Some 1) (Some "SN1") (Some "DA V3");
          Entry.mk (Some 0x00B7) (Some "/dev/hid0") (Some (-1)) (Some "SN1")
                   (Some "DA V3")]%string)
    = Ok [d]
    /\ Dev.interfaces d
       = [Iface.mk "/dev/hid1" (Some 1); Iface.mk "/dev/hid0" (Some (-1))]%string
    /\ send_and_receive_report env_open_fails d battery_request "get_battery_level" []
       = (None, d', h')
    /\ call_path <$> h' = ["/dev/hid0"; "/dev/hid0"; "/dev/hid1"; "/dev/hid1"]%string
    /\ Dev._diag_last_attempted_interfaces d' = Some [-1; 1].
Proof.
  eexists _, _, _. split; [vm_compute; reflexivity|].
  split; [reflexivity|]. split; [vm_compute; reflexivity|].
  split; reflexivity.
Qed.

End InterfaceOrder.

Section Diagnostics.

Lemma last5_length {A : Type} (l : list A) : (length (last5 l) <= 5)%nat.
Proof. unfold last5. rewrite length_drop. lia. Qed.

(** Descriptors that differ only in old diagnostics run the same loop. *)
Lemma same_but_diag_loop env d0 d report h :
  same_but_diag d0 d ->
  interfaces_loop env (0 :: report)
    (sort_by_key (sort_key (Dev.preferred_interface_path d0)) (Dev.interfaces d0))
    (mk_state [] [] 0 h)
  = interfaces_loop env (0 :: report)
      (sort_by_key (sort_key (Dev.preferred_interface_path d)) (Dev.interfaces d))
      (mk_state [] [] 0 h).
Proof. intros (_ & _ & _ & _ & -> & ->). reflexivity. Qed.

(** C9 (as stated) fails: after an exchange that exhausts the interfaces,
    the most recent interface used is still the one an earlier call left
    there, here interface 7 of a descriptor whose only interface is 0. *)
Lemma diag_last_interface_not_overwritten :
  ~ overwrites_all_diag env_open_fails
      (Dev.mk "Razer DeathAdder V3 Pro (Wireless)" 0x00B7 "mouse" (Some 0x1F)
              [Iface.mk "/dev/hid0" (Some 0)]
              None None None None None None None)
      battery_request "get_battery_level" [].
Proof.
  intros H.
  specialize (H (Dev.mk "Razer DeathAdder V3 Pro (Wireless)" 0x00B7 "mouse" (Some 0x1F)
                        [Iface.mk "/dev/hid0" (Some 0)]
                        None (Some true) (Some "get_charging_status"%string) (Some 7)
                        (Some [7]) (Some []) (Some 0))).
  assert (Hs : same_but_diag
                 (Dev.mk "Razer DeathAdder V3 Pro (Wireless)" 0x00B7 "mouse" (Some 0x1F)
                         [Iface.mk "/dev/hid0" (Some 0)]
                         None (Some true) (Some "get_charging_status"%string) (Some 7)
                         (Some [7]) (Some []) (Some 0))
                 (Dev.mk "Razer DeathAdder V3 Pro (Wireless)" 0x00B7 "mouse" (Some 0x1F)
                         [Iface.mk "/dev/hid0" (Some 0)]
                         None None None None None None None))
    by (repeat split).
  specialize (H Hs). vm_compute in H. discriminate H.
Qed.

(** C9 (amended): the success flag, the command, the attempted interfaces,
    the trimmed error list (at most five entries, the last of this call)
    and the open-failure count are overwritten on both exits; the most
    recent interface used is overwritten on the success exit and left as it
    was on the exit after all interfaces failed. *)
Theorem send_and_receive_report_diag_overwritten
    (env : hid_env) (d d0 : Dev.t) (report : list Z) (label : string)
    (h : list hid_call) :
  same_but_diag d0 d ->
  let res := send_and_receive_report env d report label h in
  let res0 := send_and_receive_report env d0 report label h in
  fst (fst res0) = fst (fst res)
  /\ snd res0 = snd res
  /\ diag_fields_but_interface (snd (fst res0))
     = diag_fields_but_interface (snd (fst res))
  /\ Dev._diag_last_command (snd (fst res)) = Some label
  /\ (exists errs, Dev._diag_last_io_errors (snd (fst res)) = Some errs
                   /\ (length errs <= 5)%nat)
  /\ (fst (fst res) <> None ->
      Dev._diag_last_ok (snd (fst res)) = Some true
      /\ diag_fields (snd (fst res0)) = diag_fields (snd (fst res)))
  /\ (fst (fst res) = None ->
      Dev._diag_last_ok (snd (fst res)) = Some false
      /\ Dev._diag_last_interface (snd (fst res)) = Dev._diag_last_interface d
      /\ Dev._diag_last_interface (snd (fst res0)) = Dev._diag_last_interface d0).
Proof.
  intros Hsame res res0.
  destruct (send_and_receive_report_exits env d report label h)
    as (Hh & Hatt & Herr & Hcnt & Hcmd & _ & Hexit).
  destruct (send_and_receive_report_exits env d0 report label h)
    as (Hh0 & Hatt0 & Herr0 & Hcnt0 & Hcmd0 & _ & Hexit0).
  rewrite (same_but_diag_loop env d0 d report h Hsame) in Hh0, Hatt0, Herr0, Hcnt0, Hexit0.
  fold res in Hh, Hatt, Herr, Hcnt, Hcmd, Hexit.
  fold res0 in Hh0, Hatt0, Herr0, Hcnt0, Hcmd0, Hexit0.
  destruct (interfaces_loop_shape env (0 :: report)
              (sort_by_key (sort_key (Dev.preferred_interface_path d)) (Dev.interfaces d))
              (mk_state [] [] 0 h)) as (ks & _ & _ & _ & _ & _ & Hsome).
  destruct (interfaces_loop env (0 :: report) _ _) as [[[iface r]|] st];
    cbn [fst snd] in *.
  - destruct Hexit as (Hr & Hok & Hpref & Hif).
    destruct Hexit0 as (Hr0 & Hok0 & Hpref0 & Hif0).
    destruct (Hsome iface r eq_refl) as (_ & _ & Hv & _).
    assert (Hne : r <> None).
    { intros ->. unfold validate_response in Hv. discriminate. }
    split; [congruence|]. split; [congruence|].
    split; [unfold diag_fields_but_interface; congruence|].
    split; [exact Hcmd|].
    split; [eexists; split; [exact Herr | apply last5_length]|].
    split.
    + intros _. split; [exact Hok|]. unfold diag_fields. congruence.
    + intros Hn. rewrite Hr in Hn. contradiction.
  - destruct Hexit as (Hr & Hok & Hpref & Hif).
    destruct Hexit0 as (Hr0 & Hok0 & Hpref0 & Hif0).
    split; [congruence|]. split; [congruence|].
    split; [unfold diag_fields_but_interface; congruence|].
    split; [exact Hcmd|].
    split; [eexists; split; [exact Herr | apply last5_length]|].
    split.
    + intros Hn. rewrite Hr in Hn. contradiction.
    + intros _. split; [exact Hok|]. split; assumption.
Qed.

Lemma send_and_receive_report_diag_overwritten_witness :
  let d := Dev.mk "Razer DeathAdder V3 Pro (Wireless)" 0x00B7 "mouse" (Some 0x1F)
                  [Iface.mk "/dev/hid0" (Some 0)]
                  None None None None None None None in
  let d0 := Dev.mk "Razer DeathAdder V3 Pro (Wireless)" 0x00B7 "mouse" (Some 0x1F)
                   [Iface.mk "/dev/hid0" (Some 0)]
                   None (Some true) (Some "get_charging_status"%string) (Some 7)
                   (Some [7]) (Some []) (Some 0) in
  let res := send_and_receive_report env_open_fails d battery_request "x" [] in
  let res0 := send_and_receive_report env_open_fails d0 battery_request "x" [] in
  same_but_diag d0 d
  /\ diag_fields_but_interface (snd (fst res0))
     = diag_fields_but_interface (snd (fst res)).
Proof.
  cbn zeta. split; [repeat split|].
  apply (send_and_receive_report_diag_overwritten env_open_fails
           (Dev.mk "Razer DeathAdder V3 Pro (Wireless)" 0x00B7 "mouse" (Some 0x1F)
                   [Iface.mk "/dev/hid0" (Some 0)]
                   None None None None None None None)
           (Dev.mk "Razer DeathAdder V3 Pro (Wireless)" 0x00B7 "mouse" (Some 0x1F)
                   [Iface.mk "/dev/hid0" (Some 0)]
                   None (Some true) (Some "get_charging_status"%string) (Some 7)
                   (Some [7]) (Some []) (Some 0))
           battery_request "x" []).
  repeat split.
Defined.

End Diagnostics.

(** * Properties of the battery queries *)

Section Battery.

Lemma battery_request_eq :
  construct_razer_report 0x1F 0x07 0x80 0x02 [PyInt 0x00; PyInt 0x00]
  = Ok battery_request.
Proof. vm_compute. reflexivity. Qed.

Lemma query_report_ok tid cid :
  exists report,
    construct_razer_report tid 0x07 cid 0x02 [PyInt 0x00; PyInt 0x00] = Ok report.
Proof.
  eexists. apply (construct_razer_report_value tid 0x07 cid 0x02 [0; 0]).
  - simpl. lia.
  - repeat (apply List.Forall_cons; [unfold is_byte; lia|]). apply List.Forall_nil.
Qed.

Lemma usable_byte_None resp :
  usable_byte resp = None
  <-> resp = None \/ exists l, resp = Some l /\ (length l <= 10)%nat.
Proof.
  unfold usable_byte. destruct resp as [l|].
  - destruct (decide (10 < length l)%nat) as [Hl|Hl].
    + split.
      * intros H. apply lookup_ge_None in H. lia.
      * intros [H|(l' & H & Hl')]; [discriminate|]. inversion H; subst. lia.
    + split; [|reflexivity]. intros _. right. exists l. split; [reflexivity | lia].
  - split; [left; reflexivity | reflexivity].
Qed.

Lemma usable_byte_Some resp raw :
  usable_byte resp = Some raw
  <-> exists l, resp = Some l /\ (10 < length l)%nat /\ l !! 10%nat = Some raw.
Proof.
  unfold usable_byte. destruct resp as [l|].
  - destruct (decide (10 < length l)%nat) as [Hl|Hl].
    + split; [intros H; exists l; auto|].
      intros (l' & H & _ & Hr). inversion H; subst. exact Hr.
    + split; [discriminate|].
      intros (l' & H & Hl' & _). inversion H; subst. contradiction.
  - split; [discriminate|]. intros (l' & H & _). discriminate.
Qed.

(** The two iterations of the loop of [get_battery_level], written out. *)
Lemma battery_loop_two env d report h :
  let r1 := send_and_receive_report env d report "get_battery_level" h in
  let r2 := send_and_receive_report env (snd (fst r1)) report "get_battery_level"
              (snd r1) in
  battery_loop env d report (seq 0 2) h
  = match usable_byte (fst (fst r1)) with
    | Some raw => (battery_percent raw, snd (fst r1), snd r1)
    | None =>
        match usable_byte (fst (fst r2)) with
        | Some raw => (battery_percent raw, snd (fst r2), snd r2)
        | None => (Ok (-1), snd (fst r2), snd r2)
        end
    end.
Proof.
  cbn zeta. cbn [seq battery_loop].
  destruct (send_and_receive_report env d report _ h) as [[resp1 d1] h1].
  cbn [fst snd]. destruct (usable_byte resp1); [reflexivity|].
  destruct (send_and_receive_report env d1 report _ h1) as [[resp2 d2] h2].
  cbn [fst snd]. destruct (usable_byte resp2); reflexivity.
Qed.

Lemma charging_loop_two env d report h :
  let r1 := send_and_receive_report env d report "get_charging_status" h in
  let r2 := send_and_receive_report env (snd (fst r1)) report "get_charging_status"
              (snd r1) in
  charging_loop env d report (seq 0 2) h
  = match usable_byte (fst (fst r1)) with
    | Some raw => (Ok (0 <? raw), snd (fst r1), snd r1)
    | None =>
        match usable_byte (fst (fst r2)) with
        | Some raw => (Ok (0 <? raw), snd (fst r2), snd r2)
        | None => (Ok false, snd (fst r2), snd r2)
        end
    end.
Proof.
  cbn zeta. cbn [seq charging_loop].
  destruct (send_and_receive_report env d report _ h) as [[resp1 d1] h1].
  cbn [fst snd]. destruct (usable_byte resp1); [reflexivity|].
  destruct (send_and_receive_report env d1 report _ h1) as [[resp2 d2] h2].
  cbn [fst snd]. destruct (usable_byte resp2); reflexivity.
Qed.

Lemma battery_percent_bytes :
  forallb battery_percent_ok (Z.of_nat <$> seq 0 256) = true.
Proof. vm_compute. reflexivity. Qed.

Lemma battery_percent_byte raw :
  is_byte raw ->
  exists v, battery_percent raw = Ok v
            /\ 0 <= v <= 100 /\ 2 * Z.abs (255 * v - 100 * raw) < 255.
Proof.
  intros Hb.
  pose proof battery_percent_bytes as Hall. rewrite forallb_forall in Hall.
  assert (Hin : In raw (Z.of_nat <$> seq 0 256)).
  { apply list_elem_of_In, list_elem_of_fmap. exists (Z.to_nat raw).
    split; [unfold is_byte in Hb; lia|].
    apply list_elem_of_In, in_seq. unfold is_byte in Hb. lia. }
  specialize (Hall raw Hin). unfold battery_percent_ok in Hall.
  destruct (battery_percent raw) as [v|e]; [|discriminate].
  exists v. split; [reflexivity|]. unfold nearest_percent in Hall.
  rewrite !andb_true_iff, !Z.leb_le, Z.ltb_lt in Hall. lia.
Qed.

Lemma battery_percent_range raw v : battery_percent raw = Ok v -> 0 <= v <= 100.
Proof.
  unfold battery_percent. destruct (py_round _) as [n|e]; cbn [rbind]; [|discriminate].
  intros H. inversion H. lia.
Qed.

(** C6: when the first exchange, or else the second, hands back more than
    ten bytes, [get_battery_level] returns
    [min(max(round(raw / 255 * 100), 0), 100)] for the byte [raw] at index
    10; for a byte this is the integer nearest to [raw * 100 / 255], it lies
    in 0..100, and the listed pairs hold. *)
Theorem get_battery_level_scaling (env : hid_env) (d : Dev.t) (h : list hid_call) :
  (exists report,
      construct_razer_report (default 0x1F (Dev.transaction_id d)) 0x07 0x80 0x02
        [PyInt 0x00; PyInt 0x00] = Ok report
      /\ let r1 := send_and_receive_report env d report "get_battery_level" h in
         let r2 := send_and_receive_report env (snd (fst r1)) report
                     "get_battery_level" (snd r1) in
         (forall raw, usable_byte (fst (fst r1)) = Some raw ->
            get_battery_level env d h = (battery_percent raw, snd (fst r1), snd r1))
         /\ (forall raw, usable_byte (fst (fst r1)) = None ->
               usable_byte (fst (fst r2)) = Some raw ->
               get_battery_level env d h
               = (battery_percent raw, snd (fst r2), snd r2)))
  /\ (forall resp raw,
        usable_byte resp = Some raw
        <-> exists l, resp = Some l /\ (10 < length l)%nat /\ l !! 10%nat = Some raw)
  /\ (forall raw, is_byte raw ->
        exists v, battery_percent raw = Ok v
                  /\ 0 <= v <= 100 /\ 2 * Z.abs (255 * v - 100 * raw) < 255)
  /\ (forall raw v, battery_percent raw = Ok v -> 0 <= v <= 100)
  /\ battery_percent <$> [0; 13; 51; 64; 128; 191; 200; 230; 255]
     = Ok <$> [0; 5; 20; 25; 50; 75; 78; 90; 100].
Proof.
  split; [|split; [|split; [|split]]].
  - destruct (query_report_ok (default 0x1F (Dev.transaction_id d)) 0x80)
      as [report Hrep].
    exists report. split; [exact Hrep|]. cbn zeta.
    unfold get_battery_level. rewrite Hrep.
    pose proof (battery_loop_two env d report h) as Hloop. cbn zeta in Hloop.
    rewrite Hloop. split.
    + intros raw ->. reflexivity.
    + intros raw -> ->. reflexivity.
  - exact usable_byte_Some.
  - exact battery_percent_byte.
  - exact battery_percent_range.
  - vm_compute. reflexivity.
Qed.

(** C7: both queries make a second exchange exactly when the first one
    gives no response or at most ten bytes, and none after that; the result
    is that of the first usable response, [raw > 0] for the charging
    status, and -1 or [False] when neither exchange is usable. *)
Theorem battery_queries_retry_once (env : hid_env) (d : Dev.t) (h : list hid_call) :
  (exists report,
      construct_razer_report (default 0x1F (Dev.transaction_id d)) 0x07 0x80 0x02
        [PyInt 0x00; PyInt 0x00] = Ok report
      /\ let r1 := send_and_receive_report env d report "get_battery_level" h in
         let r2 := send_and_receive_report env (snd (fst r1)) report
                     "get_battery_level" (snd r1) in
         get_battery_level env d h
         = match usable_byte (fst (fst r1)) with
           | Some raw => (battery_percent raw, snd (fst r1), snd r1)
           | None =>
               match usable_byte (fst (fst r2)) with
               | Some raw => (battery_percent raw, snd (fst r2), snd r2)
               | None => (Ok (-1), snd (fst r2), snd r2)
               end
           end)
  /\ (exists report,
      construct_razer_report (default 0x1F (Dev.transaction_id d)) 0x07 0x84 0x02
        [PyInt 0x00; PyInt 0x00] = Ok report
      /\ let r1 := send_and_receive_report env d report "get_charging_status" h in
         let r2 := send_and_receive_report env (snd (fst r1)) report
                     "get_charging_status" (snd r1) in
         get_charging_status env d h
         = match usable_byte (fst (fst r1)) with
           | Some raw => (Ok (0 <? raw), snd (fst r1), snd r1)
           | None =>
               match usable_byte (fst (fst r2)) with
               | Some raw => (Ok (0 <? raw), snd (fst r2), snd r2)
               | None => (Ok false, snd (fst r2), snd r2)
               end
           end)
  /\ (forall resp,
        usable_byte resp = None
        <-> resp = None \/ exists l, resp = Some l /\ (length l <= 10)%nat)
  /\ (forall resp raw,
        usable_byte resp = Some raw
        <-> exists l, resp = Some l /\ (10 < length l)%nat /\ l !! 10%nat = Some raw)
  /\ (forall raw, (0 <? raw) = true <-> raw > 0).
Proof.
  split; [|split; [|split; [|split]]].
  - destruct (query_report_ok (default 0x1F (Dev.transaction_id d)) 0x80)
      as [report Hrep].
    exists report. split; [exact Hrep|].
    unfold get_battery_level. rewrite Hrep. apply battery_loop_two.
  - destruct (query_report_ok (default 0x1F (Dev.transaction_id d)) 0x84)
      as [report Hrep].
    exists report. split; [exact Hrep|].
    unfold get_charging_status. rewrite Hrep. apply charging_loop_two.
  - exact usable_byte_None.
  - exact usable_byte_Some.
  - intros raw. rewrite Z.ltb_lt. lia.
Qed.

(** The scenarios of the test suite on a descriptor with one interface:
    raw 200 gives 78; a first exchange whose two attempts fail is followed
    by a second one that succeeds; two failed exchanges give -1 and
    [False] after four opens. *)
Example battery_scenarios :
  let d := Dev.mk "Razer DeathAdder V3 Pro (Wireless)" 0x00B7 "mouse" (Some 0x1F)
                  [Iface.mk "/dev/hid0" (Some 0)]
                  None None None None None None None in
  fst (fst (get_battery_level (env_answers (make_razer_response 200)) d [])) = Ok 78
  /\ fst (fst (get_battery_level (env_fails_then_answers 2 (make_razer_response 200)) d []))
     = Ok 78
  /\ length (snd (get_battery_level (env_fails_then_answers 2 (make_razer_response 200)) d []))
     = 3%nat
  /\ fst (fst (get_battery_level env_open_fails d [])) = Ok (-1)
  /\ length (snd (get_battery_level env_open_fails d [])) = 4%nat
  /\ fst (fst (get_charging_status (env_answers (make_razer_response 1)) d [])) = Ok true
  /\ fst (fst (get_charging_status (env_answers (make_razer_response 0)) d [])) = Ok false
  /\ fst (fst (get_charging_status env_open_fails d [])) = Ok false
  /\ fst (fst (get_battery_level (env_answers (replicate 10 0)) d [])) = Ok (-1).
Proof. vm_compute. repeat split; reflexivity. Qed.

End Battery.

(** * Further properties of the report codec *)

Section CodecFurther.

Lemma fold_lxor_acc (l : list Z) acc :
  fold_left Z.lxor l acc = Z.lxor acc (xor_all l).
Proof.
  unfold xor_all. revert acc. induction l as [|x l IH]; intros acc; cbn [fold_left].
  - rewrite Z.lxor_0_r. reflexivity.
  - rewrite IH, (IH (Z.lxor 0 x)), Z.lxor_0_l, Z.lxor_assoc. reflexivity.
Qed.

Lemma xor_all_app (l1 l2 : list Z) :
  xor_all (l1 ++ l2) = Z.lxor (xor_all l1) (xor_all l2).
Proof. unfold xor_all at 1. rewrite fold_left_app, fold_lxor_acc. reflexivity. Qed.

Lemma xor_all_cons x (l : list Z) : xor_all (x :: l) = Z.lxor x (xor_all l).
Proof.
  unfold xor_all at 1. cbn [fold_left]. rewrite fold_lxor_acc, Z.lxor_0_l. reflexivity.
Qed.

Lemma xor_all_insert (s : list Z) j old v :
  s !! j = Some old -> xor_all (<[j:=v]> s) = Z.lxor (xor_all s) (Z.lxor old v).
Proof.
  intros Hj. pose proof (lookup_lt_Some _ _ _ Hj) as Hlt.
  rewrite insert_take_drop by exact Hlt.
  rewrite <- (take_drop_middle s j old Hj) at 3.
  rewrite !xor_all_app, !xor_all_cons.
  apply Z.bits_inj'. intros n _. rewrite !Z.lxor_spec.
  destruct (Z.testbit (xor_all (take j s)) n), (Z.testbit old n), (Z.testbit v n),
    (Z.testbit (xor_all (drop (S j) s)) n); reflexivity.
Qed.

(** Changing one byte inside the window 2..87 changes the checksum by the
    XOR of the old and the new byte; a byte outside the window does not
    count. *)
Lemma calculate_crc_insert (l : list Z) i old v :
  (2 <= i < 88)%nat -> l !! i = Some old ->
  calculate_crc (<[i:=v]> l) = Z.lxor (calculate_crc l) (Z.lxor old v).
Proof.
  intros Hi Hl. rewrite !calculate_crc_slice.
  rewrite drop_insert_ge by lia. rewrite take_insert_lt by lia.
  apply xor_all_insert.
  rewrite lookup_take_lt by lia. rewrite lookup_drop.
  replace (2 + (i - 2))%nat with i by lia. exact Hl.
Qed.

Lemma calculate_crc_insert_outside (l : list Z) i v :
  (i < 2 \/ 88 <= i)%nat -> calculate_crc (<[i:=v]> l) = calculate_crc l.
Proof.
  intros Hi. rewrite !calculate_crc_slice. destruct Hi as [Hi|Hi].
  - rewrite drop_insert_lt by lia. reflexivity.
  - rewrite drop_insert_ge by lia. rewrite take_insert_ge by lia. reflexivity.
Qed.

Lemma lxor_fixed a x : Z.lxor a x = a -> x = 0.
Proof.
  intros H. apply (f_equal (Z.lxor a)) in H.
  rewrite <- Z.lxor_assoc, Z.lxor_nilpotent, Z.lxor_0_l in H. exact H.
Qed.

Lemma report_checksum_lookup tid cc cid ds (bs : list Z) c :
  (length bs <= 80)%nat ->
  (report_header tid cc cid ds ++ bs ++ replicate (80 - length bs) 0 ++ [c; 0])
    !! 88%nat = Some c.
Proof.
  intros Hlen. rewrite (report_tail_lookup _ _ _ _ 88) by (reflexivity || lia).
  replace (88 - 8 - length bs - (80 - length bs))%nat with 0%nat by lia.
  reflexivity.
Qed.

(** X1: a request whose arguments differ from another's in exactly one byte
    has a different checksum byte: the XOR of the two differs by the XOR of
    the old and the new argument. *)
Theorem checksum_detects_changed_argument tid cc cid ds (bs : list Z) i old v :
  (length bs <= 80)%nat -> Forall is_byte bs -> is_byte v ->
  bs !! i = Some old -> v <> old ->
  exists r1 r2 c1 c2,
    construct_razer_report tid cc cid ds (PyInt <$> bs) = Ok r1
    /\ construct_razer_report tid cc cid ds (PyInt <$> <[i:=v]> bs) = Ok r2
    /\ r1 !! 88%nat = Some c1 /\ r2 !! 88%nat = Some c2
    /\ c2 = Z.lxor c1 (Z.lxor old v)
    /\ c1 <> c2.
Proof.
  intros Hlen Hbs Hv Hi Hne.
  pose proof (lookup_lt_Some _ _ _ Hi) as Hlt.
  assert (Hbs' : Forall is_byte (<[i:=v]> bs)).
  { apply Forall_insert; assumption. }
  assert (Hlen' : (length (<[i:=v]> bs) <= 80)%nat) by (rewrite length_insert; exact Hlen).
  eexists _, _, _, _.
  split; [apply construct_razer_report_value; assumption|].
  split; [apply construct_razer_report_value; assumption|].
  split; [apply report_checksum_lookup; exact Hlen|].
  split; [apply report_checksum_lookup; exact Hlen'|].
  assert (E : calculate_crc (report_header tid cc cid ds ++ <[i:=v]> bs
                             ++ replicate (82 - length (<[i:=v]> bs)) 0)
              = Z.lxor (calculate_crc (report_header tid cc cid ds ++ bs
                                       ++ replicate (82 - length bs) 0))
                       (Z.lxor old v)).
  { rewrite length_insert.
    rewrite <- (insert_app_l bs) by exact Hlt.
    replace (report_header tid cc cid ds ++ <[i:=v]> (bs ++ replicate (82 - length bs) 0))
      with (<[(8 + i)%nat:=v]> (report_header tid cc cid ds ++ bs
                                ++ replicate (82 - length bs) 0))
      by (apply (insert_app_r (report_header tid cc cid ds))).
    apply calculate_crc_insert; [lia|].
    rewrite lookup_app_r by (simpl; lia).
    replace (8 + i - length (report_header tid cc cid ds))%nat with i by (simpl; lia).
    rewrite lookup_app_l by exact Hlt. exact Hi. }
  split; [exact E|].
  rewrite E. intros Heq. symmetry in Heq. apply lxor_fixed in Heq.
  apply Z.lxor_eq in Heq. congruence.
Qed.

Lemma checksum_detects_changed_argument_witness :
  exists r1 r2 c1 c2,
    construct_razer_report 0x1F 0x0F 0x02 9 (PyInt <$> [1; 5; 1; 0; 0; 1; 255; 0; 0]) = Ok r1
    /\ construct_razer_report 0x1F 0x0F 0x02 9
         (PyInt <$> <[6%nat:=0]> [1; 5; 1; 0; 0; 1; 255; 0; 0]) = Ok r2
    /\ r1 !! 88%nat = Some c1 /\ r2 !! 88%nat = Some c2
    /\ c2 = Z.lxor c1 (Z.lxor 255 0)
    /\ c1 <> c2.
Proof.
  apply (checksum_detects_changed_argument 0x1F 0x0F 0x02 9
           [1; 5; 1; 0; 0; 1; 255; 0; 0] 6 255 0).
  - simpl. lia.
  - repeat (apply List.Forall_cons; [unfold is_byte; lia|]). apply List.Forall_nil.
  - unfold is_byte. lia.
  - reflexivity.
  - lia.
Defined.

(** X2: the checksum does not cover the transaction id: two requests that
    differ only in the transaction id carry the same checksum byte and
    differ in byte 1 alone. *)
Theorem checksum_ignores_transaction_id tid tid' cc cid ds (bs : list Z) :
  (length bs <= 80)%nat -> Forall is_byte bs ->
  exists r r',
    construct_razer_report tid cc cid ds (PyInt <$> bs) = Ok r
    /\ construct_razer_report tid' cc cid ds (PyInt <$> bs) = Ok r'
    /\ r !! 88%nat = r' !! 88%nat
    /\ (forall i, i <> 1%nat -> r !! i = r' !! i).
Proof.
  intros Hlen Hbs. eexists _, _.
  split; [apply construct_razer_report_value; assumption|].
  split; [apply construct_razer_report_value; assumption|].
  assert (E : calculate_crc (report_header tid cc cid ds ++ bs
                             ++ replicate (82 - length bs) 0)
              = calculate_crc (report_header tid' cc cid ds ++ bs
                               ++ replicate (82 - length bs) 0))
    by (rewrite !calculate_crc_slice; reflexivity).
  rewrite E. split.
  - rewrite !report_checksum_lookup by exact Hlen. reflexivity.
  - intros [|[|i]] Hi; [reflexivity | contradiction | reflexivity].
Qed.

Lemma checksum_ignores_transaction_id_witness :
  exists r r',
    construct_razer_report 0x1F 0x07 0x80 0x02 (PyInt <$> [0; 0]) = Ok r
    /\ construct_razer_report 0x3F 0x07 0x80 0x02 (PyInt <$> [0; 0]) = Ok r'
    /\ r !! 88%nat = r' !! 88%nat
    /\ (forall i, i <> 1%nat -> r !! i = r' !! i).
Proof.
  apply (checksum_ignores_transaction_id 0x1F 0x3F 0x07 0x80 0x02 [0; 0]).
  - simpl. lia.
  - repeat (apply List.Forall_cons; [unfold is_byte; lia|]). apply List.Forall_nil.
Defined.

(** With a report-id byte in front, the response-side CRC loop reads the
    window of [calculate_crc]. *)
Lemma response_crc_cons b (r : list Z) :
  (88 <= length r)%nat -> response_crc (b :: r) = calculate_crc r.
Proof.
  intros Hlen. unfold response_crc, calculate_crc.
  change (seq 3 86) with (seq (S 2) 86).
  assert (G : forall n a acc, (a + n <= length r)%nat ->
             fold_left (fun crc i => Z.lxor crc (default 0 ((b :: r) !! i)))
                       (seq (S a) n) acc
             = fold_left (fun crc i => match r !! i with
                                       | Some x => Z.lxor crc x
                                       | None => crc
                                       end) (seq a n) acc).
  { induction n as [|n IH]; intros a acc Ha; [reflexivity|].
    cbn [seq fold_left]. rewrite IH by lia.
    change ((b :: r) !! S a) with (r !! a).
    destruct (r !! a) as [x|] eqn:E; [reflexivity|].
    apply lookup_ge_None in E. lia. }
  apply G. lia.
Qed.

Lemma report_crc_self tid cc cid ds (bs : list Z) c :
  (length bs <= 80)%nat ->
  calculate_crc (report_header tid cc cid ds ++ bs
                 ++ replicate (80 - length bs) 0 ++ [c; 0])
  = calculate_crc (report_header tid cc cid ds ++ bs
                   ++ replicate (82 - length bs) 0).
Proof.
  intros Hlen. rewrite !calculate_crc_slice. f_equal.
  cbn [report_header app drop take]. do 6 f_equal.
  rewrite take_80_args by exact Hlen.
  replace (82 - length bs)%nat with ((80 - length bs) + 2)%nat by lia.
  rewrite replicate_add. rewrite take_80_args by exact Hlen. reflexivity.
Qed.

(** X3: a request sent back unchanged behind the report-id byte passes
    [validate_response]: its status byte reads as new/pending and its
    checksum matches the XOR that the response check computes over the
    shifted window, so no mismatch is logged. *)
Theorem request_echo_validates tid cc cid ds (bs : list Z) :
  (length bs <= 80)%nat -> Forall is_byte bs ->
  exists r,
    construct_razer_report tid cc cid ds (PyInt <$> bs) = Ok r
    /\ validate_response (Some (0 :: r)) = (true, [LogResponseStatus 0]).
Proof.
  intros Hlen Hbs. eexists.
  split; [apply construct_razer_report_value; assumption|].
  set (c := calculate_crc _).
  set (r := report_header tid cc cid ds ++ bs ++ replicate (80 - length bs) 0 ++ [c; 0]).
  assert (Hl : length r = 90%nat).
  { unfold r. rewrite !length_app, length_replicate. simpl. lia. }
  assert (H88 : r !! 88%nat = Some c) by (apply report_checksum_lookup; exact Hlen).
  assert (Hself : calculate_crc r = c) by (apply report_crc_self; exact Hlen).
  assert (H0 : r !! 0%nat = Some 0) by reflexivity.
  clearbody r c.
  unfold validate_response.
  destruct (decide (length (0%Z :: r) <= 9)%nat) as [Hs|_];
    [cbn [length] in Hs; lia|].
  change ((0 :: r) !! 1%nat) with (r !! 0%nat).
  rewrite H0. cbn [default from_option]. unfold id.
  unfold RAZER_STATUS_SUCCESS, RAZER_STATUS_BUSY, RAZER_STATUS_FAILURE,
    RAZER_STATUS_TIMEOUT, RAZER_STATUS_NOT_SUPPORTED.
  destruct (decide (0 = 2)) as [?|_]; [lia|].
  destruct (decide (0 = 1)) as [?|_]; [lia|].
  destruct (decide (0 = 3 \/ 0 = 4 \/ 0 = 5)) as [?|_]; [lia|].
  f_equal. f_equal. unfold crc_check.
  destruct (decide (90 <= length (0%Z :: r))%nat) as [_|Hn];
    [|cbn [length] in Hn; lia].
  change ((0 :: r) !! 89%nat) with (r !! 88%nat).
  rewrite H88, response_crc_cons by lia. rewrite Hself.
  cbn [default from_option]. unfold id.
  destruct (decide (c <> c)) as [?|_]; [contradiction | reflexivity].
Qed.

Lemma request_echo_validates_witness :
  exists r,
    construct_razer_report 0x1F 0x07 0x80 0x02 (PyInt <$> [0; 0]) = Ok r
    /\ validate_response (Some (0 :: r)) = (true, [LogResponseStatus 0]).
Proof.
  apply (request_echo_validates 0x1F 0x07 0x80 0x02 [0; 0]).
  - simpl. lia.
  - repeat (apply List.Forall_cons; [unfold is_byte; lia|]). apply List.Forall_nil.
Defined.

(** X4: [build_arguments] puts the six bytes [VARSTORE], LED id, effect
    code, 0, 0, 1 in front of the extra parameters, so a report takes at
    most 74 of them: with byte parameters the report is built and carries
    these six bytes and then the parameters from byte 8 on, and with more
    than 74 the construction raises [ValueError]. *)
Theorem build_arguments_fit tid cc cid ds effect_code led_id (extra : list Z) :
  is_byte effect_code -> is_byte led_id -> Forall is_byte extra ->
  ((length extra <= 74)%nat ->
   exists r,
     construct_razer_report tid cc cid ds
       (build_arguments effect_code led_id (PyInt <$> extra)) = Ok r
     /\ take (6 + length extra) (drop 8 r)
        = [VARSTORE; led_id; effect_code; 0; 0; 1] ++ extra)
  /\ ((74 < length extra)%nat ->
      exists msg,
        construct_razer_report tid cc cid ds
          (build_arguments effect_code led_id (PyInt <$> extra))
        = Raise (ValueError msg)).
Proof.
  intros He Hl Hx.
  assert (Eb : build_arguments effect_code led_id (PyInt <$> extra)
               = PyInt <$> ([VARSTORE; led_id; effect_code; 0; 0; 1] ++ extra))
    by (rewrite fmap_app; reflexivity).
  split.
  - intros Hlen. rewrite Eb.
    set (args := [VARSTORE; led_id; effect_code; 0; 0; 1] ++ extra).
    assert (Hargs : length args = (6 + length extra)%nat)
      by (unfold args; rewrite length_app; reflexivity).
    assert (Hb : Forall is_byte args).
    { unfold args. apply Forall_app. split; [|exact Hx].
      repeat (apply List.Forall_cons; [assumption || (unfold is_byte, VARSTORE; lia)|]).
      apply List.Forall_nil. }
    pose proof (construct_razer_report_value tid cc cid ds args ltac:(lia) Hb) as Hv.
    eexists. split; [exact Hv|].
    rewrite <- Hargs. clearbody args.
    change (drop 8 (report_header tid cc cid ds ++ ?x)) with x.
    apply take_app_length'. reflexivity.
  - intros Hlen. unfold construct_razer_report.
    destruct (decide _) as [_|Hn]; [eauto|].
    exfalso. apply Hn. unfold build_arguments. rewrite length_app, length_fmap.
    simpl. lia.
Qed.

Lemma build_arguments_fit_witness :
  ((length [255; 0; 0] <= 74)%nat ->
   exists r,
     construct_razer_report 0x1F 0x0F 0x02 9
       (build_arguments 0x01 0x05 (PyInt <$> [255; 0; 0])) = Ok r
     /\ take (6 + length [255; 0; 0]) (drop 8 r)
        = [VARSTORE; 0x05; 0x01; 0; 0; 1] ++ [255; 0; 0])
  /\ ((74 < length [255; 0; 0])%nat ->
      exists msg,
        construct_razer_report 0x1F 0x0F 0x02 9
          (build_arguments 0x01 0x05 (PyInt <$> [255; 0; 0]))
        = Raise (ValueError msg)).
Proof.
  apply (build_arguments_fit 0x1F 0x0F 0x02 9 0x01 0x05 [255; 0; 0]).
  - unfold is_byte. lia.
  - unfold is_byte. lia.
  - repeat (apply List.Forall_cons; [unfold is_byte; lia|]). apply List.Forall_nil.
Defined.

End CodecFurther.

(** * Properties of the device registry *)

Section Registry.

Lemma RAZER_DEVICES_NoDup : NoDup (fst <$> RAZER_DEVICES_items).
Proof. refine (bool_decide_unpack _ _). vm_compute. exact I. Qed.

Lemma RAZER_DEVICE_TYPES_NoDup : NoDup (fst <$> RAZER_DEVICE_TYPES_items).
Proof. refine (bool_decide_unpack _ _). vm_compute. exact I. Qed.

Lemma RAZER_TRANSACTION_IDS_NoDup : NoDup (fst <$> RAZER_TRANSACTION_IDS_items).
Proof. refine (bool_decide_unpack _ _). vm_compute. exact I. Qed.

Lemma types_checked :
  forallb (fun kt => bool_decide (is_Some (RAZER_DEVICES !! fst kt))
                     && bool_decide (snd kt ∈ ["mouse"; "keyboard"; "headset"; "speaker";
                                               "mousepad"; "accessory"; "dongle"]%string))
          RAZER_DEVICE_TYPES_items = true.
Proof. vm_compute. reflexivity. Qed.

Lemma devices_checked :
  forallb (fun kn => bool_decide (is_Some (RAZER_DEVICE_TYPES !! fst kn)))
          RAZER_DEVICES_items = true.
Proof. vm_compute. reflexivity. Qed.

Lemma transaction_ids_checked :
  forallb (fun kv => bool_decide (is_Some (RAZER_DEVICES !! fst kv))
                     && in_byte_range (snd kv))
          RAZER_TRANSACTION_IDS_items = true.
Proof. vm_compute. reflexivity. Qed.

Lemma RAZER_DEVICE_TYPES_lookup pid t :
  RAZER_DEVICE_TYPES !! pid = Some t ->
  is_Some (RAZER_DEVICES !! pid)
  /\ t ∈ ["mouse"; "keyboard"; "headset"; "speaker"; "mousepad"; "accessory";
           "dongle"]%string.
Proof.
  intros H. apply elem_of_list_to_map_2 in H.
  pose proof types_checked as Hc. rewrite forallb_forall in Hc.
  apply list_elem_of_In in H. specialize (Hc _ H). cbn [fst snd] in Hc.
  apply andb_true_iff in Hc. destruct Hc as [H1 H2].
  split; [exact (bool_decide_unpack _ (Is_true_true_2 _ H1))
         | exact (bool_decide_unpack _ (Is_true_true_2 _ H2))].
Qed.

Lemma RAZER_DEVICES_lookup pid n :
  RAZER_DEVICES !! pid = Some n -> is_Some (RAZER_DEVICE_TYPES !! pid).
Proof.
  intros H. apply elem_of_list_to_map_2 in H.
  pose proof devices_checked as Hc. rewrite forallb_forall in Hc.
  apply list_elem_of_In in H. specialize (Hc _ H). cbn [fst snd] in Hc.
  exact (bool_decide_unpack _ (Is_true_true_2 _ Hc)).
Qed.

Lemma RAZER_TRANSACTION_IDS_lookup pid v :
  RAZER_TRANSACTION_IDS !! pid = Some v ->
  is_Some (RAZER_DEVICES !! pid) /\ is_byte v.
Proof.
  intros H. apply elem_of_list_to_map_2 in H.
  pose proof transaction_ids_checked as Hc. rewrite forallb_forall in Hc.
  apply list_elem_of_In in H. specialize (Hc _ H). cbn [fst snd] in Hc.
  apply andb_true_iff in Hc. destruct Hc as [H1 H2].
  split; [exact (bool_decide_unpack _ (Is_true_true_2 _ H1))
         | apply in_byte_range_iff, H2].
Qed.

Lemma get_device_type_unknown pid :
  get_device_type pid = "unknown"%string <-> RAZER_DEVICES !! pid = None.
Proof.
  unfold get_device_type. split.
  - intros H. destruct (RAZER_DEVICES !! pid) as [n|] eqn:En; [|reflexivity].
    destruct (RAZER_DEVICES_lookup pid n En) as [t Ht]. rewrite Ht in H.
    cbn [default from_option] in H. unfold id in H. subst t.
    destruct (RAZER_DEVICE_TYPES_lookup pid _ Ht) as [_ Hin].
    exfalso. revert Hin. clear. intros Hin.
    repeat (apply elem_of_cons in Hin; destruct Hin as [Hin|Hin]; [discriminate|]).
    apply elem_of_nil in Hin. exact Hin.
  - intros Hn. destruct (RAZER_DEVICE_TYPES !! pid) as [t|] eqn:Et; [|reflexivity].
    destruct (RAZER_DEVICE_TYPES_lookup pid t Et) as [[n Hs] _]. congruence.
Qed.

(** X5: the three registry tables have no repeated key and agree on their
    product ids: a product id has a type exactly when it has a name, and a
    transaction id only when it has a name.  So [get_device_type] answers
    "unknown" exactly for unregistered product ids and one of the seven
    device classes otherwise, [get_transaction_id] is always a byte, and no
    product is both a mouse and a keyboard. *)
Theorem registry_consistent :
  NoDup (fst <$> RAZER_DEVICES_items)
  /\ NoDup (fst <$> RAZER_DEVICE_TYPES_items)
  /\ NoDup (fst <$> RAZER_TRANSACTION_IDS_items)
  /\ (forall pid, is_Some (RAZER_DEVICE_TYPES !! pid) <-> is_Some (RAZER_DEVICES !! pid))
  /\ (forall pid, is_Some (RAZER_TRANSACTION_IDS !! pid) -> is_Some (RAZER_DEVICES !! pid))
  /\ (forall pid, get_device_type pid = "unknown"%string <-> RAZER_DEVICES !! pid = None)
  /\ (forall pid, is_Some (RAZER_DEVICES !! pid) ->
        get_device_type pid ∈ ["mouse"; "keyboard"; "headset"; "speaker"; "mousepad";
                                "accessory"; "dongle"]%string)
  /\ (forall pid, is_byte (get_transaction_id pid))
  /\ (forall pid, is_mouse_device pid = true -> is_keyboard_device pid = false)
  /\ (forall pid, is_mouse_device pid = true -> is_Some (RAZER_DEVICES !! pid)).
Proof.
  split; [exact RAZER_DEVICES_NoDup|].
  split; [exact RAZER_DEVICE_TYPES_NoDup|].
  split; [exact RAZER_TRANSACTION_IDS_NoDup|].
  split; [|split; [|split; [|split; [|split; [|split]]]]].
  - intros pid. split.
    + intros [t Ht]. apply (RAZER_DEVICE_TYPES_lookup pid t Ht).
    + intros [n Hn]. apply (RAZER_DEVICES_lookup pid n Hn).
  - intros pid [v Hv]. apply (RAZER_TRANSACTION_IDS_lookup pid v Hv).
  - exact get_device_type_unknown.
  - intros pid [n Hn]. destruct (RAZER_DEVICES_lookup pid n Hn) as [t Ht].
    unfold get_device_type. rewrite Ht. apply (RAZER_DEVICE_TYPES_lookup pid t Ht).
  - intros pid. unfold get_transaction_id.
    destruct (RAZER_TRANSACTION_IDS !! pid) as [v|] eqn:Ev.
    + apply (RAZER_TRANSACTION_IDS_lookup pid v Ev).
    + unfold is_byte. cbn. lia.
  - intros pid Hm. unfold is_mouse_device, is_keyboard_device in *.
    apply bool_decide_eq_true in Hm. apply bool_decide_eq_false.
    rewrite Hm. discriminate.
  - intros pid Hm. unfold is_mouse_device in Hm. apply bool_decide_eq_true in Hm.
    destruct (RAZER_DEVICES !! pid) as [n|] eqn:En; [eauto|].
    apply get_device_type_unknown in En. rewrite En in Hm. discriminate.
Qed.

End Registry.

(** * Further properties of device discovery *)

Section DiscoveryFurther.

Lemma elem_of_dict_set {K V : Type} `{EqDecision K} (k k' : K) (v v' : V) d :
  (k', v') ∈ dict_set k v d -> (k', v') ∈ d \/ v' = v.
Proof.
  induction d as [|[k1 v1] d IH]; cbn [dict_set]; intros Hin.
  - apply list_elem_of_singleton in Hin. inversion Hin. right. reflexivity.
  - destruct (decide (k = k1)) as [->|Hne].
    + apply elem_of_cons in Hin. destruct Hin as [Hin|Hin].
      * inversion Hin. right. reflexivity.
      * left. apply elem_of_cons. right. exact Hin.
    + apply elem_of_cons in Hin. destruct Hin as [Hin|Hin].
      * left. apply elem_of_cons. left. exact Hin.
      * destruct (IH Hin) as [H1|H1]; [left; apply elem_of_cons; right; exact H1
                                       | right; exact H1].
Qed.

Lemma add_interface_from_registry d p n :
  descriptor_from_registry d -> descriptor_from_registry (add_interface d p n).
Proof.
  intros (H1 & H2 & H3 & H4 & H5 & H6 & H7). unfold add_interface.
  destruct (decide _) as [_|_]; [repeat split; assumption|].
  unfold descriptor_from_registry, diag_fields in *.
  cbn [Dev.name Dev.pid Dev.type Dev.transaction_id Dev.interfaces Dev.preferred_interface_path Dev._diag_last_ok Dev._diag_last_command Dev._diag_last_interface Dev._diag_last_attempted_interfaces Dev._diag_last_io_errors Dev._diag_last_open_failed_count].
  repeat split; try assumption.
  - intros Hnil. apply app_eq_nil in Hnil. destruct Hnil as [_ Hnil]. discriminate.
  - apply Forall_app. split; [exact H5|].
    apply List.Forall_cons; [eauto | apply List.Forall_nil].
Qed.

Lemma fresh_group_from_registry pid p n :
  is_Some (RAZER_DEVICES !! pid) ->
  descriptor_from_registry (add_interface (fresh_group pid) p n).
Proof.
  intros [name Hname]. unfold add_interface, fresh_group. cbn [Dev.interfaces].
  destruct (decide _) as [Hin|_].
  - cbn in Hin. apply elem_of_nil in Hin. contradiction.
  - unfold descriptor_from_registry, diag_fields.
    cbn [Dev.name Dev.pid Dev.type Dev.transaction_id Dev.interfaces Dev.preferred_interface_path Dev._diag_last_ok Dev._diag_last_command Dev._diag_last_interface Dev._diag_last_attempted_interfaces Dev._diag_last_io_errors Dev._diag_last_open_failed_count].
    rewrite Hname. cbn [default from_option]. unfold id.
    repeat split.
    + discriminate.
    + apply List.Forall_cons; [eauto | apply List.Forall_nil].
Qed.

Lemma scan_loop_descriptors l : forall g,
  Forall (fun e => in_parameterized_pids e = true) l ->
  Forall (fun kd => descriptor_from_registry (snd kd)) g ->
  exists g', scan_loop l g = Ok g'
             /\ Forall (fun kd => descriptor_from_registry (snd kd)) g'.
Proof.
  induction l as [|e l IH]; intros g Hreg Hg.
  - exists g. split; [reflexivity | exact Hg].
  - apply Forall_cons in Hreg. destruct Hreg as [He Hreg]. cbn [scan_loop].
    destruct (Entry.product_id e) as [pid|] eqn:Hpid;
      [|unfold in_parameterized_pids in He; rewrite Hpid in He; discriminate].
    destruct (Entry.path e) as [p|] eqn:Hp.
    + rewrite (scan_entry_ok g e pid p Hpid Hp). apply IH; [exact Hreg|].
      apply Forall_forall. intros [k' d'] Hin. cbn [snd].
      apply elem_of_dict_set in Hin. destruct Hin as [Hin| ->].
      * rewrite Forall_forall in Hg. apply (Hg (k', d') Hin).
      * destruct (dict_get (entry_key e pid) g) as [old|] eqn:Eo;
          cbn [default from_option]; unfold id.
        -- apply add_interface_from_registry.
           rewrite Forall_forall in Hg.
           apply (Hg (entry_key e pid, old)), dict_get_elem_of, Eo.
        -- apply fresh_group_from_registry.
           apply (in_parameterized_pids_registered e pid He Hpid).
    + destruct (scan_entry_malformed g e (or_intror Hp)) as [m ->].
      apply IH; assumption.
Qed.

Lemma filter_bool_Forall {A} (f : A -> bool) (l : list A) :
  Forall (fun x => f x = true) (List.filter f l).
Proof.
  apply Forall_forall. intros x Hx. apply elem_of_filter_bool in Hx. tauto.
Qed.

Lemma scan_descriptors enumeration :
  exists ds, scan_razer_devices enumeration = Ok ds
             /\ Forall descriptor_from_registry ds.
Proof.
  destruct enumeration as [msg|all_devices].
  - exists []. split; [reflexivity | constructor].
  - destruct (scan_loop_descriptors (List.filter in_parameterized_pids all_devices) []
                (filter_bool_Forall _ _) (List.Forall_nil _)) as (g & Hrun & Hg).
    exists (snd <$> g). split.
    + rewrite scan_razer_devices_grouped. unfold scan_grouped. rewrite Hrun. reflexivity.
    + apply Forall_fmap. exact Hg.
Qed.

(** X6: [scan_razer_devices] never raises, and every descriptor it returns
    has the name, type and transaction id that the registry gives for its
    product id, at least one interface, no cached path and no diagnostics.
    Every interface of a descriptor comes from an entry of the enumeration
    with the descriptor's product id and the interface's path, and carries
    the interface number of that entry, -1 when the entry gave none. *)
Theorem scan_razer_devices_descriptors (enumeration : enumerate_outcome) :
  exists ds,
    scan_razer_devices enumeration = Ok ds
    /\ Forall descriptor_from_registry ds
    /\ Forall (fun d => Forall (fun i => Iface.interface_number i <> None)
                               (Dev.interfaces d)) ds
    /\ (forall d i, d ∈ ds -> i ∈ Dev.interfaces d ->
          exists all_devices e,
            enumeration = EnumerateReturns all_devices
            /\ e ∈ all_devices
            /\ Entry.product_id e = Some (Dev.pid d)
            /\ Entry.path e = Some (Iface.path i)
            /\ Iface.interface_number i
               = Some (default (-1) (Entry.interface_number e))).
Proof.
  destruct (scan_descriptors enumeration) as (ds & Hrun & Hds).
  exists ds. split; [exact Hrun|]. split; [exact Hds|]. split.
  { eapply Forall_impl; [exact Hds|].
    intros d (_ & _ & _ & _ & Hnum & _). eapply Forall_impl; [exact Hnum|].
    intros i [n Hn]. congruence. }
  intros d i Hd Hi.
  destruct enumeration as [msg|all_devices].
  { cbn [scan_razer_devices] in Hrun. inversion Hrun; subst ds.
    apply elem_of_nil in Hd. contradiction. }
  destruct (scan_loop_inv (List.filter in_parameterized_pids all_devices) [] []
              scan_inv_nil) as (grouped & Hg & Hnd & _ & Hgroups).
  rewrite app_nil_l in Hgroups.
  rewrite scan_razer_devices_grouped in Hrun. unfold scan_grouped in Hrun.
  rewrite Hg in Hrun. cbn [rbind] in Hrun. inversion Hrun; subst ds. clear Hrun.
  apply list_elem_of_fmap in Hd. destruct Hd as ([k d'] & Hd' & Hin).
  cbn [snd] in Hd'. subst d'.
  apply (elem_of_dict_get _ _ _ Hnd) in Hin.
  destruct (Hgroups k d Hin) as (Hpid & _ & Hfrom & _).
  destruct (Hfrom i Hi) as (e & He & (pid & Hp1 & Hp2 & Hk) & Hnum).
  apply elem_of_filter_bool in He. destruct He as [He _].
  exists all_devices, e. split; [reflexivity|]. split; [exact He|].
  split; [|split; [exact Hp2 | exact Hnum]].
  rewrite Hpid, <- Hk. exact Hp1.
Qed.

Lemma scan_loop_app l1 : forall l2 g,
  scan_loop (l1 ++ l2) g = (g1 <-- scan_loop l1 g ;; scan_loop l2 g1).
Proof.
  induction l1 as [|e l1 IH]; intros l2 g; [reflexivity|].
  cbn [app scan_loop]. destruct (scan_entry g e) as [g'|[]]; auto.
Qed.

(** An entry that was already processed leaves the dictionary as it is. *)
Lemma scan_loop_seen l : forall seen g,
  scan_inv seen g -> (forall e, e ∈ l -> e ∈ seen) -> scan_loop l g = Ok g.
Proof.
  induction l as [|e l IH]; intros seen g Hinv Hsub; [reflexivity|].
  cbn [scan_loop].
  assert (Hl : forall e', e' ∈ l -> e' ∈ seen)
    by (intros e' He'; apply Hsub, elem_of_cons; right; exact He').
  assert (He : e ∈ seen) by (apply Hsub, elem_of_cons; left; reflexivity).
  destruct (Entry.product_id e) as [pid|] eqn:Hpid;
    [destruct (Entry.path e) as [p|] eqn:Hp|].
  - rewrite (scan_entry_ok g e pid p Hpid Hp).
    destruct Hinv as (Hnd & Hkeys & Hgroups).
    assert (Hhas : entry_has e (entry_key e pid) p) by (exists pid; auto).
    assert (Hs : is_Some (dict_get (entry_key e pid) g)) by (apply Hkeys; eauto).
    destruct Hs as [d Hd]. rewrite Hd. cbn [default from_option]. unfold id.
    destruct (Hgroups _ d Hd) as (_ & _ & _ & Hall).
    unfold add_interface.
    destruct (decide _) as [_|Hn]; [|exfalso; apply Hn, (Hall e p He Hhas)].
    rewrite (dict_set_id _ _ _ Hd).
    apply (IH seen g); [exact (conj Hnd (conj Hkeys Hgroups)) | exact Hl].
  - destruct (scan_entry_malformed g e (or_intror Hp)) as [m ->].
    apply (IH seen g); assumption.
  - destruct (scan_entry_malformed g e (or_introl Hpid)) as [m ->].
    apply (IH seen g); assumption.
Qed.

(** X7: entries that the enumeration reports again do not change the
    result: appending entries that already occur gives the same list of
    descriptors. *)
Theorem scan_razer_devices_ignores_repeats (all_devices again : list Entry.t) :
  (forall e, e ∈ again -> e ∈ all_devices) ->
  scan_razer_devices (EnumerateReturns (all_devices ++ again))
  = scan_razer_devices (EnumerateReturns all_devices).
Proof.
  intros Hsub. rewrite !scan_razer_devices_grouped. unfold scan_grouped.
  rewrite List.filter_app, scan_loop_app.
  destruct (scan_loop_inv (List.filter in_parameterized_pids all_devices) [] []
              scan_inv_nil) as (g & Hrun & Hinv).
  rewrite app_nil_l in Hinv. rewrite Hrun. cbn [rbind].
  rewrite (scan_loop_seen _ _ g Hinv); [reflexivity|].
  intros e He. apply elem_of_filter_bool in He. apply elem_of_filter_bool.
  split; [apply Hsub|]; tauto.
Qed.

Lemma scan_razer_devices_ignores_repeats_witness :
  let e0 := Entry.mk (Some 0x00B7) (Some "/dev/hid0"%string) (Some 0)
                     (Some "SN1"%string) (Some "DA V3"%string) in
  let e1 := Entry.mk (Some 0x00B7) (Some "/dev/hid1"%string) (Some 1)
                     (Some "SN1"%string) (Some "DA V3"%string) in
  scan_razer_devices (EnumerateReturns ([e0; e1] ++ [e1; e0]))
  = scan_razer_devices (EnumerateReturns [e0; e1]).
Proof.
  cbn zeta. apply scan_razer_devices_ignores_repeats.
  intros e He. apply elem_of_cons in He. destruct He as [->|He].
  - apply elem_of_cons. right. apply elem_of_cons. left. reflexivity.
  - apply list_elem_of_singleton in He. subst. apply elem_of_cons. left. reflexivity.
Defined.

Lemma filter_none {A} (f : A -> bool) (l : list A) :
  Forall (fun x => f x = false) l -> List.filter f l = [].
Proof.
  induction 1 as [|x l Hx _ IH]; [reflexivity|].
  cbn [List.filter]. rewrite Hx. exact IH.
Qed.

(** X8: [find_device] on the result of a scan selects the first descriptor
    whose type is mouse, which is a registered mouse product with at least
    one interface; it shows its name and orders its interfaces by the sort
    key of the transport.  Without a mouse in the scan there is no device
    and the menu shows "No device found". *)
Theorem find_device_selects_first_mouse (enumeration : enumerate_outcome)
    (app : app_device) :
  exists ds,
    scan_razer_devices enumeration = Ok ds
    /\ ((forall d, d ∈ ds -> Dev.type d <> "mouse"%string) ->
        find_device (scan_razer_devices enumeration) app
        = mk_app_device None "No device found")
    /\ (forall pre m post,
          ds = pre ++ m :: post ->
          Forall (fun d => Dev.type d <> "mouse"%string) pre ->
          Dev.type m = "mouse"%string ->
          exists d,
            find_device (scan_razer_devices enumeration) app
            = mk_app_device (Some d) (Dev.name m)
            /\ Dev.name d = Dev.name m /\ Dev.pid d = Dev.pid m
            /\ is_mouse_device (Dev.pid d) = true
            /\ RAZER_DEVICES !! Dev.pid d = Some (Dev.name d)
            /\ Dev.interfaces d ≡ₚ Dev.interfaces m
            /\ Dev.interfaces d <> []
            /\ StronglySorted
                 (fun a b => key_le (sort_key None a) (sort_key None b))
                 (Dev.interfaces d)).
Proof.
  destruct (scan_descriptors enumeration) as (ds & Hrun & Hds).
  exists ds. split; [exact Hrun|]. rewrite Hrun. split.
  - intros Hno. unfold find_device. rewrite filter_none; [reflexivity|].
    apply Forall_forall. intros d Hd. apply bool_decide_eq_false, Hno, Hd.
  - intros pre m post -> Hpre Hm.
    assert (Hreg : descriptor_from_registry m).
    { rewrite Forall_forall in Hds. apply Hds, elem_of_app. right.
      apply elem_of_cons. left. reflexivity. }
    destruct Hreg as (Hname & Htype & _ & Hne & _ & Hpref & _).
    unfold find_device. rewrite List.filter_app, filter_none.
    2:{ eapply Forall_impl; [exact Hpre|]. intros d Hd. apply bool_decide_eq_false, Hd. }
    cbn [List.app List.filter]. rewrite (bool_decide_eq_true_2 _ Hm).
    cbn [_prioritize_device_interfaces]. rewrite Hpref.
    eexists. split; [reflexivity|].
    cbn [Dev.name Dev.pid Dev.interfaces].
    split; [reflexivity|]. split; [reflexivity|].
    split; [unfold is_mouse_device; apply bool_decide_eq_true; congruence|].
    split; [exact Hname|].
    split; [apply sort_by_key_perm|].
    split; [|apply sort_by_key_sorted].
    intros Hnil. apply Hne.
    apply Permutation_nil. rewrite <- Hnil. apply sort_by_key_perm.
Qed.

End DiscoveryFurther.

(** * Further properties of the transport *)

Section TransportFurther.

Variable env : hid_env.

Lemma counts_grow_refl st : counts_grow st st.
Proof. unfold counts_grow. lia. Qed.

Lemma counts_grow_trans st1 st2 st3 :
  counts_grow st1 st2 -> counts_grow st2 st3 -> counts_grow st1 st3.
Proof. unfold counts_grow. lia. Qed.

Lemma attempt_counts rwi path st :
  counts_grow st (snd (attempt env rwi path st)).
Proof.
  unfold attempt, counts_grow.
  destruct (env (history st) (mk_call path rwi)) as [r|[]];
    try (destruct (fst (validate_response r)));
    try (destruct (contains _ _));
    cbn [snd open_failed_count io_errors history];
    rewrite ?length_app; cbn [length]; lia.
Qed.

Lemma attempts_loop_counts rwi path attempts : forall st,
  counts_grow st (snd (attempts_loop env rwi path attempts st)).
Proof.
  induction attempts as [|a attempts IH]; intros st; cbn [attempts_loop].
  - apply counts_grow_refl.
  - pose proof (attempt_counts rwi path st) as H1.
    destruct (attempt env rwi path st) as [[r| |] st']; cbn [snd] in *;
      try exact H1.
    eapply counts_grow_trans; [exact H1 | apply IH].
Qed.

Lemma interfaces_loop_counts rwi ifaces : forall st,
  counts_grow st (snd (interfaces_loop env rwi ifaces st)).
Proof.
  induction ifaces as [|iface rest IH]; intros st; cbn [interfaces_loop].
  - apply counts_grow_refl.
  - set (st1 := mk_state _ _ _ _).
    assert (H0 : counts_grow st st1) by (unfold counts_grow, st1; cbn; lia).
    pose proof (attempts_loop_counts rwi (Iface.path iface) (seq 0 2) st1) as H1.
    destruct (attempts_loop env rwi (Iface.path iface) (seq 0 2) st1) as [[r|] st'];
      cbn [snd] in *.
    + exact (counts_grow_trans _ _ _ H0 H1).
    + eapply counts_grow_trans; [exact H0|].
      eapply counts_grow_trans; [exact H1 | apply IH].
Qed.

Lemma calls_of_length rwi ifaces : forall ks,
  Forall (fun k => 1 <= k <= 2)%nat ks -> (length ks <= length ifaces)%nat ->
  (length ks <= length (calls_of rwi ifaces ks) <= 2 * length ks)%nat.
Proof.
  induction ifaces as [|iface rest IH]; intros ks Hks Hlen.
  - destruct ks; [cbn; lia | cbn in Hlen; lia].
  - destruct ks as [|k ks]; [rewrite calls_of_nil_r; cbn; lia|].
    apply Forall_cons in Hks. destruct Hks as [Hk Hks].
    rewrite calls_of_cons, length_app, length_replicate. cbn [length] in *.
    specialize (IH ks Hks ltac:(lia)). lia.
Qed.

Lemma calls_of_elem rwi ifaces : forall ks i,
  Forall (fun k => 1 <= k <= 2)%nat ks -> length ks = length ifaces ->
  i ∈ ifaces -> mk_call (Iface.path i) rwi ∈ calls_of rwi ifaces ks.
Proof.
  induction ifaces as [|iface rest IH]; intros ks i Hks Hlen Hi.
  - apply elem_of_nil in Hi. contradiction.
  - destruct ks as [|k ks]; [discriminate|].
    apply Forall_cons in Hks. destruct Hks as [Hk Hks].
    rewrite calls_of_cons. apply elem_of_app.
    apply elem_of_cons in Hi. destruct Hi as [->|Hi].
    + left. destruct k as [|k]; [lia|]. cbn [replicate]. apply elem_of_cons.
      left. reflexivity.
    + right. apply IH; [exact Hks | cbn in Hlen; lia | exact Hi].
Qed.

(** X9: an exchange that returns [None] has tried every interface of the
    descriptor: the attempted list holds the interface number of each one
    (-1 for a missing number) in the order of the sort, every path was
    opened, the number of opens lies between one and two per interface, and
    the cached path is left as it was. *)
Theorem exhausted_exchange_tried_every_interface
    (d : Dev.t) (report : list Z) (label : string) (h : list hid_call) :
  fst (fst (send_and_receive_report env d report label h)) = None ->
  let res := send_and_receive_report env d report label h in
  let sorted :=
    sort_by_key (sort_key (Dev.preferred_interface_path d)) (Dev.interfaces d) in
  Dev._diag_last_attempted_interfaces (snd (fst res)) = Some (iface_num <$> sorted)
  /\ iface_num <$> sorted ≡ₚ iface_num <$> Dev.interfaces d
  /\ Dev._diag_last_ok (snd (fst res)) = Some false
  /\ Dev.preferred_interface_path (snd (fst res)) = Dev.preferred_interface_path d
  /\ exists new,
       snd res = h ++ new
       /\ (length (Dev.interfaces d) <= length new <= 2 * length (Dev.interfaces d))%nat
       /\ (forall i, i ∈ Dev.interfaces d ->
             mk_call (Iface.path i) (0 :: report) ∈ new).
Proof.
  intros Hnone res sorted.
  destruct (send_and_receive_report_exits env d report label h)
    as (Hh & Hatt & _ & _ & _ & _ & Hexit).
  fold sorted res in Hh, Hatt, Hexit. fold res in Hnone.
  destruct (interfaces_loop_shape env (0 :: report) sorted (mk_state [] [] 0 h))
    as (ks & Hlen & Hall & Hhist & Hattd & Hn & Hsome).
  assert (Hperm : sorted ≡ₚ Dev.interfaces d) by apply sort_by_key_perm.
  destruct (fst (interfaces_loop env (0 :: report) sorted (mk_state [] [] 0 h)))
    as [[iface r]|] eqn:E.
  - exfalso. destruct Hexit as (Hr & _).
    destruct (Hsome iface r eq_refl) as (_ & _ & Hv & _).
    rewrite Hr in Hnone. subst r. unfold validate_response in Hv. discriminate.
  - destruct Hexit as (_ & Hok & Hpref & _). specialize (Hn eq_refl).
    split.
    { rewrite Hatt, Hattd. cbn [attempted_ifaces app].
      rewrite Hn, firstn_all. reflexivity. }
    split; [rewrite Hperm; reflexivity|].
    split; [exact Hok|]. split; [exact Hpref|].
    exists (calls_of (0 :: report) sorted ks).
    split; [rewrite Hh, Hhist; reflexivity|].
    split.
    + pose proof (calls_of_length (0 :: report) sorted ks Hall Hlen) as Hc.
      rewrite <- (Permutation_length Hperm). lia.
    + intros i Hi. apply calls_of_elem; [exact Hall | exact Hn|].
      apply (elem_of_Permutation_proper _ _ _ Hperm). exact Hi.
Qed.

End TransportFurther.

Lemma exhausted_exchange_tried_every_interface_witness :
  let d := Dev.mk "Razer DeathAdder V3 Pro (Wireless)" 0x00B7 "mouse" (Some 0x1F)
                  [Iface.mk "/dev/hid1" (Some 1); Iface.mk "/dev/hid0" (Some 0)]
                  None None None None None None None in
  Dev._diag_last_ok
    (snd (fst (send_and_receive_report env_open_fails d battery_request "x" [])))
  = Some false.
Proof.
  cbn zeta.
  apply (exhausted_exchange_tried_every_interface env_open_fails
           (Dev.mk "Razer DeathAdder V3 Pro (Wireless)" 0x00B7 "mouse" (Some 0x1F)
                   [Iface.mk "/dev/hid1" (Some 1); Iface.mk "/dev/hid0" (Some 0)]
                   None None None None None None None)
           battery_request "x" []).
  vm_compute. reflexivity.
Defined.

Section CachedInterface.

Variables env env' : hid_env.

Lemma interfaces_loop_first_call rwi iface rest st :
  exists tail,
    history (snd (interfaces_loop env' rwi (iface :: rest) st))
    = history st ++ mk_call (Iface.path iface) rwi :: tail.
Proof.
  destruct (interfaces_loop_shape env' rwi (iface :: rest) st)
    as (ks & Hlen & Hall & Hhist & _ & Hnone & Hsome).
  assert (Hks : (1 <= length ks)%nat).
  { destruct (fst (interfaces_loop env' rwi (iface :: rest) st)) as [[i r]|] eqn:E.
    - apply (Hsome i r eq_refl).
    - rewrite (Hnone eq_refl). cbn. lia. }
  destruct ks as [|k ks]; [cbn in Hks; lia|].
  apply Forall_cons in Hall. destruct Hall as [Hk _].
  rewrite Hhist, calls_of_cons.
  destruct k as [|k]; [lia|]. cbn [replicate app]. eauto.
Qed.

(** X10: after an exchange that returned a response, the cached path is
    the path of one of the descriptor's interfaces, namely the one whose
    call was answered, and the next exchange on the descriptor opens that
    path first, whatever the environment does then. *)
Theorem cached_interface_is_opened_first
    (d : Dev.t) (report report' : list Z) (label label' : string)
    (h : list hid_call) :
  fst (fst (send_and_receive_report env d report label h)) <> None ->
  let res := send_and_receive_report env d report label h in
  exists p pre,
    Dev.preferred_interface_path (snd (fst res)) = Some p
    /\ (exists i, i ∈ Dev.interfaces d /\ Iface.path i = p)
    /\ snd res = pre ++ [mk_call p (0 :: report)]
    /\ env pre (mk_call p (0 :: report)) = Ok (fst (fst res))
    /\ exists tail,
         snd (send_and_receive_report env' (snd (fst res)) report' label' (snd res))
         = snd res ++ mk_call p (0 :: report') :: tail.
Proof.
  intros Hsome res.
  destruct (send_and_receive_report_exits env d report label h)
    as (Hh & _ & _ & _ & _ & Hifs & Hexit).
  fold res in Hh, Hifs, Hexit, Hsome.
  set (sorted := sort_by_key (sort_key (Dev.preferred_interface_path d))
                             (Dev.interfaces d)) in *.
  destruct (interfaces_loop_shape env (0 :: report) sorted (mk_state [] [] 0 h))
    as (ks & _ & _ & _ & _ & _ & Hshape).
  destruct (fst (interfaces_loop env (0 :: report) sorted (mk_state [] [] 0 h)))
    as [[iface r]|] eqn:E.
  2:{ destruct Hexit as (Hr & _). contradiction. }
  destruct Hexit as (Hr & _ & Hpref & _).
  destruct (Hshape iface r eq_refl) as (Hi & _ & _ & pre & Hpre & Henv).
  assert (Hin : iface ∈ Dev.interfaces d).
  { apply (elem_of_Permutation_proper _ _ _
             (sort_by_key_perm (sort_key (Dev.preferred_interface_path d))
                               (Dev.interfaces d))).
    apply list_elem_of_lookup. eauto. }
  exists (Iface.path iface), pre.
  split; [exact Hpref|]. split; [eauto|].
  split; [rewrite Hh; exact Hpre|]. split; [rewrite Hr; exact Henv|].
  destruct (send_and_receive_report_exits env' (snd (fst res)) report' label' (snd res))
    as (Hh' & _).
  rewrite Hh', Hpref, Hifs.
  destruct (sort_by_key (sort_key (Some (Iface.path iface))) (Dev.interfaces d))
    as [|i0 rest] eqn:Es.
  - exfalso.
    pose proof (sort_by_key_perm (sort_key (Some (Iface.path iface)))
                                 (Dev.interfaces d)) as Hp.
    rewrite Es in Hp. apply Permutation_nil in Hp. rewrite Hp in Hin.
    apply elem_of_nil in Hin. exact Hin.
  - assert (Hp0 : Iface.path i0 = Iface.path iface).
    { apply (sorted_preferred_first _ (Dev.interfaces d) i0 rest); [eauto | exact Es]. }
    rewrite <- Hp0.
    apply (interfaces_loop_first_call (0 :: report') i0 rest (mk_state [] [] 0 (snd res))).
Qed.

End CachedInterface.

Lemma cached_interface_is_opened_first_witness :
  let d := Dev.mk "Razer DeathAdder V3 Pro (Wireless)" 0x00B7 "mouse" (Some 0x1F)
                  [Iface.mk "/dev/hid1" (Some 1); Iface.mk "/dev/hid0" (Some 0)]
                  None None None None None None None in
  let env := env_fails_then_answers 2 (make_razer_response 200) in
  let res := send_and_receive_report env d battery_request "x" [] in
  exists p pre,
    Dev.preferred_interface_path (snd (fst res)) = Some p
    /\ (exists i, i ∈ Dev.interfaces d /\ Iface.path i = p)
    /\ snd res = pre ++ [mk_call p (0 :: battery_request)]
    /\ env pre (mk_call p (0 :: battery_request)) = Ok (fst (fst res))
    /\ exists tail,
         snd (send_and_receive_report env_open_fails (snd (fst res)) battery_request "y"
                (snd res))
         = snd res ++ mk_call p (0 :: battery_request) :: tail.
Proof.
  cbn zeta.
  apply (cached_interface_is_opened_first
           (env_fails_then_answers 2 (make_razer_response 200)) env_open_fails
           (Dev.mk "Razer DeathAdder V3 Pro (Wireless)" 0x00B7 "mouse" (Some 0x1F)
                   [Iface.mk "/dev/hid1" (Some 1); Iface.mk "/dev/hid0" (Some 0)]
                   None None None None None None None)
           battery_request battery_request "x" "y" []).
  vm_compute. discriminate.
Defined.

Section OpenFailures.

Variable env : hid_env.

Lemma send_calls_bound (d : Dev.t) (report : list Z) (label : string)
    (h : list hid_call) :
  exists new,
    snd (send_and_receive_report env d report label h) = h ++ new
    /\ (length new <= 2 * length (Dev.interfaces d))%nat.
Proof.
  destruct (send_and_receive_report_exits env d report label h) as (Hh & _).
  destruct (interfaces_loop_shape env (0 :: report)
              (sort_by_key (sort_key (Dev.preferred_interface_path d)) (Dev.interfaces d))
              (mk_state [] [] 0 h)) as (ks & Hlen & Hall & Hhist & _).
  eexists. split; [rewrite Hh, Hhist; reflexivity|].
  pose proof (calls_of_length (0 :: report) _ ks Hall Hlen) as Hc.
  rewrite (Permutation_length (sort_by_key_perm _ _)) in Hlen. lia.
Qed.

(** X11: the open-failure count stamped on the descriptor is never
    negative and never more than the number of opens of the exchange, which
    is at most two per interface; the error list has at most five entries
    and no more than there were opens; and after an exchange that returned a
    response the application's test for "every open failed" is false. *)
Theorem open_failure_count_bounds
    (d : Dev.t) (report : list Z) (label : string) (h : list hid_call)
    (self_device : option Dev.t) :
  let res := send_and_receive_report env d report label h in
  exists n errs new,
    Dev._diag_last_open_failed_count (snd (fst res)) = Some n
    /\ Dev._diag_last_io_errors (snd (fst res)) = Some errs
    /\ snd res = h ++ new
    /\ 0 <= n <= Z.of_nat (length new)
    /\ (length new <= 2 * length (Dev.interfaces d))%nat
    /\ (length errs <= 5)%nat
    /\ (length errs <= length new)%nat
    /\ (fst (fst res) <> None ->
        _last_failure_is_full_open_failure (Some (snd (fst res))) self_device = false).
Proof.
  intros res.
  destruct (send_and_receive_report_exits env d report label h)
    as (Hh & _ & Herr & Hcnt & _ & _ & Hexit).
  destruct (send_calls_bound d report label h) as (new & Hnew & Hbound).
  fold res in Hh, Herr, Hcnt, Hexit, Hnew.
  pose proof (interfaces_loop_counts env (0 :: report)
                (sort_by_key (sort_key (Dev.preferred_interface_path d)) (Dev.interfaces d))
                (mk_state [] [] 0 h)) as (Hc1 & Hc2 & Hc3).
  cbn [open_failed_count io_errors history length] in Hc1, Hc2, Hc3.
  rewrite <- Hh, Hnew, length_app in Hc3.
  eexists _, _, new. split; [exact Hcnt|]. split; [exact Herr|].
  split; [exact Hnew|]. split; [lia|]. split; [exact Hbound|].
  split; [apply last5_length|].
  split.
  - unfold last5. rewrite length_drop. lia.
  - intros Hsome.
    destruct (fst (interfaces_loop env (0 :: report) _ _)) as [[iface r]|].
    + destruct Hexit as (_ & Hok & _).
      unfold _last_failure_is_full_open_failure. rewrite Hok. reflexivity.
    + destruct Hexit as (Hr & _). contradiction.
Qed.

Lemma attempt_open_fails rwi path st :
  every_open_fails env ->
  attempt env rwi path st
  = (ExitContinue,
     mk_state (attempted_ifaces st)
              (io_errors st ++ [exn_msg (match env (history st) (mk_call path rwi) with
                                         | Raise e => e
                                         | Ok _ => OSError ""
                                         end)])
              (open_failed_count st + 1)
              (history st ++ [mk_call path rwi])).
Proof.
  intros Hfail. unfold attempt.
  destruct (Hfail (history st) (mk_call path rwi)) as (msg & -> & Hc).
  rewrite Hc. reflexivity.
Qed.

Lemma attempts_loop_open_fails rwi path st :
  every_open_fails env ->
  exists st',
    attempts_loop env rwi path (seq 0 2) st = (None, st')
    /\ open_failed_count st' = open_failed_count st + 2
    /\ attempted_ifaces st' = attempted_ifaces st.
Proof.
  intros Hfail. cbn [seq attempts_loop].
  rewrite (attempt_open_fails _ _ _ Hfail). cbn iota.
  rewrite (attempt_open_fails _ _ _ Hfail). cbn iota.
  eexists. split; [reflexivity|]. cbn [open_failed_count attempted_ifaces].
  split; [lia | reflexivity].
Qed.

Lemma interfaces_loop_open_fails rwi ifaces : forall st,
  every_open_fails env ->
  fst (interfaces_loop env rwi ifaces st) = None
  /\ open_failed_count (snd (interfaces_loop env rwi ifaces st))
     = open_failed_count st + 2 * Z.of_nat (length ifaces)
  /\ attempted_ifaces (snd (interfaces_loop env rwi ifaces st))
     = attempted_ifaces st ++ (iface_num <$> ifaces).
Proof.
  induction ifaces as [|iface rest IH]; intros st Hfail.
  - cbn. rewrite app_nil_r. repeat split; lia.
  - cbn [interfaces_loop].
    destruct (attempts_loop_open_fails rwi (Iface.path iface)
                (mk_state (attempted_ifaces st
                           ++ [default (-1) (Iface.interface_number iface)])
                          (io_errors st) (open_failed_count st) (history st)) Hfail)
      as (st' & -> & Hc & Ha).
    cbn [open_failed_count attempted_ifaces] in Hc, Ha.
    destruct (IH st' Hfail) as (H1 & H2 & H3).
    split; [exact H1|]. split.
    + rewrite H2, Hc. cbn [length]. lia.
    + rewrite H3, Ha, fmap_cons, <- app_assoc. reflexivity.
Qed.

(** X12: when every open of the exchange fails with an "open failed"
    error and the descriptor has an interface, the exchange returns [None],
    counts two open failures per interface, and the application's test for
    "every open failed" on the descriptor is true. *)
Theorem full_open_failure_is_detected
    (d : Dev.t) (report : list Z) (label : string) (h : list hid_call)
    (self_device : option Dev.t) :
  every_open_fails env -> Dev.interfaces d <> [] ->
  let res := send_and_receive_report env d report label h in
  fst (fst res) = None
  /\ Dev._diag_last_open_failed_count (snd (fst res))
     = Some (2 * Z.of_nat (length (Dev.interfaces d)))
  /\ _last_failure_is_full_open_failure (Some (snd (fst res))) self_device = true.
Proof.
  intros Hfail Hne res.
  destruct (send_and_receive_report_exits env d report label h)
    as (_ & Hatt & _ & Hcnt & _ & _ & Hexit).
  fold res in Hatt, Hcnt, Hexit.
  set (sorted := sort_by_key (sort_key (Dev.preferred_interface_path d))
                             (Dev.interfaces d)) in *.
  destruct (interfaces_loop_open_fails (0 :: report) sorted (mk_state [] [] 0 h) Hfail)
    as (H1 & H2 & H3).
  cbn [open_failed_count attempted_ifaces app] in H2, H3.
  assert (Hlen : length sorted = length (Dev.interfaces d))
    by (apply Permutation_length, sort_by_key_perm).
  rewrite H1 in Hexit. destruct Hexit as (Hr & Hok & _).
  rewrite H2, Hlen in Hcnt. rewrite H3 in Hatt.
  split; [exact Hr|]. split; [rewrite Hcnt; f_equal; lia|].
  unfold _last_failure_is_full_open_failure. rewrite Hok, Hatt, Hcnt.
  cbn [default from_option]. unfold id.
  assert (Hlen' : length (iface_num <$> sorted) = length (Dev.interfaces d))
    by (rewrite length_fmap; exact Hlen).
  destruct (iface_num <$> sorted) as [|x xs].
  - exfalso. destruct (Dev.interfaces d); [contradiction | discriminate].
  - rewrite Hlen'. apply Z.leb_le. lia.
Qed.

End OpenFailures.

Lemma full_open_failure_is_detected_witness :
  let d := Dev.mk "Razer DeathAdder V3 Pro (Wireless)" 0x00B7 "mouse" (Some 0x1F)
                  [Iface.mk "/dev/hid1" (Some 1); Iface.mk "/dev/hid0" (Some 0)]
                  None None None None None None None in
  let res := send_and_receive_report env_open_fails d battery_request "x" [] in
  fst (fst res) = None
  /\ Dev._diag_last_open_failed_count (snd (fst res))
     = Some (2 * Z.of_nat (length (Dev.interfaces d)))
  /\ _last_failure_is_full_open_failure (Some (snd (fst res))) None = true.
Proof.
  cbn zeta.
  apply (full_open_failure_is_detected env_open_fails
           (Dev.mk "Razer DeathAdder V3 Pro (Wireless)" 0x00B7 "mouse" (Some 0x1F)
                   [Iface.mk "/dev/hid1" (Some 1); Iface.mk "/dev/hid0" (Some 0)]
                   None None None None None None None)
           battery_request "x" [] None).
  - intros h c. exists "open failed"%string. split; reflexivity.
  - discriminate.
Defined.

(** * Further properties of the battery queries *)

Section QueriesFurther.

Variable env : hid_env.

Lemma send_keeps_identity (d : Dev.t) (report : list Z) (label : string)
    (h : list hid_call) :
  let d' := snd (fst (send_and_receive_report env d report label h)) in
  Dev.name d' = Dev.name d /\ Dev.pid d' = Dev.pid d /\ Dev.type d' = Dev.type d
  /\ Dev.transaction_id d' = Dev.transaction_id d
  /\ Dev.interfaces d' = Dev.interfaces d.
Proof.
  cbn zeta. unfold send_and_receive_report.
  destruct (interfaces_loop _ _ _ _) as [[[iface r]|] st]; repeat split.
Qed.

(** X13: the two queries change nothing of a descriptor but the cached
    path and the diagnostics: name, product id, type, transaction id and
    the interface list, in its order, are as before; the calls made so far
    stay in front of the history, and a query makes at most four opens per
    interface. *)
Theorem queries_keep_descriptor (d : Dev.t) (h : list hid_call) :
  (let d' := snd (fst (get_battery_level env d h)) in
   Dev.name d' = Dev.name d /\ Dev.pid d' = Dev.pid d /\ Dev.type d' = Dev.type d
   /\ Dev.transaction_id d' = Dev.transaction_id d
   /\ Dev.interfaces d' = Dev.interfaces d
   /\ exists new, snd (get_battery_level env d h) = h ++ new
                  /\ (length new <= 4 * length (Dev.interfaces d))%nat)
  /\ (let d' := snd (fst (get_charging_status env d h)) in
      Dev.name d' = Dev.name d /\ Dev.pid d' = Dev.pid d /\ Dev.type d' = Dev.type d
      /\ Dev.transaction_id d' = Dev.transaction_id d
      /\ Dev.interfaces d' = Dev.interfaces d
      /\ exists new, snd (get_charging_status env d h) = h ++ new
                     /\ (length new <= 4 * length (Dev.interfaces d))%nat).
Proof.
  split; cbn zeta.
  - destruct (query_report_ok (default 0x1F (Dev.transaction_id d)) 0x80)
      as [report Hrep].
    unfold get_battery_level. rewrite Hrep.
    pose proof (battery_loop_two env d report h) as Hloop. cbn zeta in Hloop.
    rewrite Hloop. clear Hloop.
    destruct (send_keeps_identity d report "get_battery_level" h)
      as (N1 & P1 & T1 & I1 & F1).
    destruct (send_calls_bound env d report "get_battery_level" h) as (new1 & Hn1 & Hb1).
    set (r1 := send_and_receive_report env d report "get_battery_level" h) in *.
    destruct (send_keeps_identity (snd (fst r1)) report "get_battery_level" (snd r1))
      as (N2 & P2 & T2 & I2 & F2).
    destruct (send_calls_bound env (snd (fst r1)) report "get_battery_level" (snd r1))
      as (new2 & Hn2 & Hb2).
    set (r2 := send_and_receive_report env (snd (fst r1)) report "get_battery_level"
                 (snd r1)) in *.
    cbn zeta in N1, P1, T1, I1, F1, N2, P2, T2, I2, F2.
    destruct (usable_byte (fst (fst r1))); [|destruct (usable_byte (fst (fst r2)))];
      cbn [fst snd];
      (split; [congruence|]); (split; [congruence|]); (split; [congruence|]);
      (split; [congruence|]); (split; [congruence|]).
    + exists new1. split; [exact Hn1 | lia].
    + exists (new1 ++ new2). rewrite Hn2, Hn1, <- app_assoc, length_app.
      split; [reflexivity|]. rewrite F1 in Hb2. lia.
    + exists (new1 ++ new2). rewrite Hn2, Hn1, <- app_assoc, length_app.
      split; [reflexivity|]. rewrite F1 in Hb2. lia.
  - destruct (query_report_ok (default 0x1F (Dev.transaction_id d)) 0x84)
      as [report Hrep].
    unfold get_charging_status. rewrite Hrep.
    pose proof (charging_loop_two env d report h) as Hloop. cbn zeta in Hloop.
    rewrite Hloop. clear Hloop.
    destruct (send_keeps_identity d report "get_charging_status" h)
      as (N1 & P1 & T1 & I1 & F1).
    destruct (send_calls_bound env d report "get_charging_status" h) as (new1 & Hn1 & Hb1).
    set (r1 := send_and_receive_report env d report "get_charging_status" h) in *.
    destruct (send_keeps_identity (snd (fst r1)) report "get_charging_status" (snd r1))
      as (N2 & P2 & T2 & I2 & F2).
    destruct (send_calls_bound env (snd (fst r1)) report "get_charging_status" (snd r1))
      as (new2 & Hn2 & Hb2).
    set (r2 := send_and_receive_report env (snd (fst r1)) report "get_charging_status"
                 (snd r1)) in *.
    cbn zeta in N1, P1, T1, I1, F1, N2, P2, T2, I2, F2.
    destruct (usable_byte (fst (fst r1))); [|destruct (usable_byte (fst (fst r2)))];
      cbn [fst snd];
      (split; [congruence|]); (split; [congruence|]); (split; [congruence|]);
      (split; [congruence|]); (split; [congruence|]).
    + exists new1. split; [exact Hn1 | lia].
    + exists (new1 ++ new2). rewrite Hn2, Hn1, <- app_assoc, length_app.
      split; [reflexivity|]. rewrite F1 in Hb2. lia.
    + exists (new1 ++ new2). rewrite Hn2, Hn1, <- app_assoc, length_app.
      split; [reflexivity|]. rewrite F1 in Hb2. lia.
Qed.

(** What a returned response is: an answer of the environment that
    validates. *)
Lemma send_response_from_env (d : Dev.t) (report : list Z) (label : string)
    (h : list hid_call) l :
  fst (fst (send_and_receive_report env d report label h)) = Some l ->
  exists pre c, env pre c = Ok (Some l).
Proof.
  intros Hl.
  destruct (send_and_receive_report_exits env d report label h)
    as (_ & _ & _ & _ & _ & _ & Hexit).
  destruct (interfaces_loop_shape env (0 :: report)
              (sort_by_key (sort_key (Dev.preferred_interface_path d)) (Dev.interfaces d))
              (mk_state [] [] 0 h)) as (ks & _ & _ & _ & _ & _ & Hsome).
  destruct (fst (interfaces_loop env (0 :: report) _ _)) as [[iface r]|].
  - destruct Hexit as (Hr & _). rewrite Hr in Hl. subst r.
    destruct (Hsome iface (Some l) eq_refl) as (_ & _ & _ & pre & _ & Henv). eauto.
  - destruct Hexit as (Hr & _). congruence.
Qed.

Lemma usable_byte_is_byte (d : Dev.t) (report : list Z) (label : string)
    (h : list hid_call) raw :
  answers_bytes env ->
  usable_byte (fst (fst (send_and_receive_report env d report label h))) = Some raw ->
  is_byte raw.
Proof.
  intros Hb Hu. apply usable_byte_Some in Hu. destruct Hu as (l & Hl & _ & Hraw).
  destruct (send_response_from_env d report label h l Hl) as (pre & c & Henv).
  pose proof (Hb pre c l Henv) as Hall. rewrite Forall_forall in Hall.
  apply Hall. apply list_elem_of_lookup. eauto.
Qed.

(** X14: when the HID subsystem hands back lists of bytes,
    [get_battery_level] never raises: it returns a level between 0 and 100,
    or -1, and -1 exactly when neither of its two exchanges gave a response
    of more than ten bytes; [get_charging_status] never raises either. *)
Theorem battery_level_is_percent_or_sentinel (d : Dev.t) (h : list hid_call) :
  answers_bytes env ->
  (exists v, fst (fst (get_battery_level env d h)) = Ok v
             /\ -1 <= v <= 100
             /\ (v = -1 <->
                 exists report,
                   construct_razer_report (default 0x1F (Dev.transaction_id d))
                     0x07 0x80 0x02 [PyInt 0x00; PyInt 0x00] = Ok report
                   /\ let r1 := send_and_receive_report env d report
                                  "get_battery_level" h in
                      usable_byte (fst (fst r1)) = None
                      /\ usable_byte
                           (fst (fst (send_and_receive_report env (snd (fst r1)) report
                                        "get_battery_level" (snd r1)))) = None))
  /\ (exists b, fst (fst (get_charging_status env d h)) = Ok b).
Proof.
  intros Hb. split.
  - destruct (query_report_ok (default 0x1F (Dev.transaction_id d)) 0x80)
      as [report Hrep].
    unfold get_battery_level. rewrite Hrep.
    pose proof (battery_loop_two env d report h) as Hloop. cbn zeta in Hloop.
    rewrite Hloop. clear Hloop.
    pose proof (usable_byte_is_byte d report "get_battery_level" h) as B1.
    set (r1 := send_and_receive_report env d report "get_battery_level" h) in *.
    pose proof (usable_byte_is_byte (snd (fst r1)) report "get_battery_level" (snd r1))
      as B2.
    set (r2 := send_and_receive_report env (snd (fst r1)) report "get_battery_level"
                 (snd r1)) in *.
    destruct (usable_byte (fst (fst r1))) as [raw|] eqn:U1.
    + destruct (battery_percent_byte raw (B1 raw Hb eq_refl)) as (v & Hv & Hr & _).
      cbn [fst]. rewrite Hv. exists v. split; [reflexivity|]. split; [lia|].
      split; [lia|]. intros (report' & Hrep' & Hn & _).
      inversion Hrep'; subst report'.
      cbn zeta in Hn. fold r1 in Hn. congruence.
    + destruct (usable_byte (fst (fst r2))) as [raw|] eqn:U2.
      * destruct (battery_percent_byte raw (B2 raw Hb eq_refl)) as (v & Hv & Hr & _).
        cbn [fst]. rewrite Hv. exists v. split; [reflexivity|]. split; [lia|].
        split; [lia|]. intros (report' & Hrep' & _ & Hn).
        inversion Hrep'; subst report'.
        fold r1 r2 in Hn. congruence.
      * cbn [fst]. exists (-1). split; [reflexivity|]. split; [lia|].
        split; [|reflexivity]. intros _. exists report.
        split; [reflexivity|]. cbn zeta. fold r1 r2. split; assumption.
  - destruct (query_report_ok (default 0x1F (Dev.transaction_id d)) 0x84)
      as [report Hrep].
    unfold get_charging_status. rewrite Hrep.
    pose proof (charging_loop_two env d report h) as Hloop. cbn zeta in Hloop.
    rewrite Hloop.
    destruct (usable_byte _); [eauto|]. destruct (usable_byte _); eauto.
Qed.

End QueriesFurther.

Lemma battery_level_is_percent_or_sentinel_witness :
  let d := Dev.mk "Razer DeathAdder V3 Pro (Wireless)" 0x00B7 "mouse" (Some 0x1F)
                  [Iface.mk "/dev/hid0" (Some 0)]
                  None None None None None None None in
  exists b, fst (fst (get_charging_status (env_answers (make_razer_response 200)) d []))
            = Ok b.
Proof.
  cbn zeta.
  apply (battery_level_is_percent_or_sentinel (env_answers (make_razer_response 200))
           (Dev.mk "Razer DeathAdder V3 Pro (Wireless)" 0x00B7 "mouse" (Some 0x1F)
                   [Iface.mk "/dev/hid0" (Some 0)]
                   None None None None None None None) []).
  intros h c l Hl. unfold env_answers in Hl. inversion Hl; subst l.
  unfold make_razer_response.
  apply Forall_app. split.
  - repeat (apply List.Forall_cons; [unfold is_byte; lia|]). apply List.Forall_nil.
  - apply Forall_replicate. unfold is_byte. lia.
Defined.

(** * Properties of the one-shot send and of the interface order *)

Section SendOnly.

Variable env : send_env.

Lemma send_loop_spec rwi ifaces : forall success h,
  snd (send_loop env rwi ifaces success h)
  = h ++ ((fun i => mk_call (Iface.path i) rwi) <$> ifaces)
  /\ (fst (send_loop env rwi ifaces success h) = true <->
      success = true
      \/ exists k iface,
           ifaces !! k = Some iface
           /\ env (h ++ ((fun i => mk_call (Iface.path i) rwi) <$> take k ifaces))
                  (mk_call (Iface.path iface) rwi)
              = Ok (Z.of_nat (length rwi))).
Proof.
  induction ifaces as [|iface rest IH]; intros success h.
  - cbn [send_loop fst snd fmap list_fmap]. rewrite app_nil_r.
    split; [reflexivity|]. split; [auto|].
    intros [H|(k & i & Hk & _)]; [exact H | discriminate].
  - cbn [send_loop]. destruct (IH
      (match env h (mk_call (Iface.path iface) rwi) with
       | Ok bytes_written =>
           if decide (bytes_written = Z.of_nat (length rwi)) then true else success
       | Raise _ => success
       end) (h ++ [mk_call (Iface.path iface) rwi])) as (Hh & Hr).
    split; [rewrite Hh, fmap_cons, <- app_assoc; reflexivity|].
    rewrite Hr. clear Hh Hr. split.
    + intros [Hs|(k & i & Hk & He)].
      * destruct (env h (mk_call (Iface.path iface) rwi)) as [n|e] eqn:E; [|left; exact Hs].
        destruct (decide (n = Z.of_nat (length rwi))) as [->|_]; [|left; exact Hs].
        right. exists 0%nat, iface. split; [reflexivity|].
        cbn [take fmap list_fmap]. rewrite app_nil_r. exact E.
      * right. exists (S k), i. split; [exact Hk|].
        cbn [take]. rewrite fmap_cons.
        rewrite <- app_assoc in He. exact He.
    + intros [Hs|(k & i & Hk & He)].
      * left. subst success.
        destruct (env h (mk_call (Iface.path iface) rwi)) as [n|e]; [|reflexivity].
        destruct (decide _); reflexivity.
      * destruct k as [|k].
        -- cbn in Hk. inversion Hk; subst i.
           cbn [take fmap list_fmap] in He. rewrite app_nil_r in He.
           left. rewrite He.
           destruct (decide _) as [_|Hn]; [reflexivity | contradiction].
        -- right. exists k, i. split; [exact Hk|].
           cbn [take] in He. rewrite fmap_cons in He.
           rewrite <- app_assoc. exact He.
Qed.

(** X15: [send_report_to_device] opens every interface of the descriptor
    exactly once, in the order of the list and without retries, whatever the
    outcomes are; it returns [True] exactly when at least one interface
    reported the full length of the report with its report-id byte as
    written, and [False] for a descriptor without interfaces. *)
Theorem send_report_to_device_once_each
    (d : Dev.t) (report : list Z) (h : list hid_call) :
  snd (send_report_to_device env d report h)
  = h ++ ((fun i => mk_call (Iface.path i) (0 :: report)) <$> Dev.interfaces d)
  /\ (fst (send_report_to_device env d report h) = true <->
      exists k iface,
        Dev.interfaces d !! k = Some iface
        /\ env (h ++ ((fun i => mk_call (Iface.path i) (0 :: report))
                        <$> take k (Dev.interfaces d)))
               (mk_call (Iface.path iface) (0 :: report))
           = Ok (Z.of_nat (S (length report))))
  /\ (Dev.interfaces d = [] -> send_report_to_device env d report h = (false, h)).
Proof.
  unfold send_report_to_device.
  destruct (send_loop_spec (0 :: report) (Dev.interfaces d) false h) as (Hh & Hr).
  split; [exact Hh|]. split.
  - rewrite Hr. split.
    + intros [H|H]; [discriminate | exact H].
    + intros H. right. exact H.
  - intros ->. reflexivity.
Qed.

End SendOnly.

Section Prioritize.

Lemma sort_by_key_sorted_id {A : Type} (key : A -> Z * Z * Z) (l : list A) :
  StronglySorted (fun a b => key_le (key a) (key b)) l -> sort_by_key key l = l.
Proof.
  induction 1 as [|x l Hs IH Hx]; [reflexivity|].
  cbn [sort_by_key]. rewrite IH.
  destruct l as [|y l']; [reflexivity|]. cbn [insert_stable].
  apply Forall_cons in Hx. destruct Hx as [Hxy _].
  apply key_ltb_ge in Hxy. rewrite Hxy. reflexivity.
Qed.

Lemma sort_by_key_idem {A : Type} (key : A -> Z * Z * Z) (l : list A) :
  sort_by_key key (sort_by_key key l) = sort_by_key key l.
Proof. apply sort_by_key_sorted_id, sort_by_key_sorted. Qed.

(** X16: [_prioritize_device_interfaces] reorders the interface list of
    the descriptor into the order in which the transport tries the
    interfaces; doing it again changes nothing, and an exchange on the
    reordered descriptor makes the same calls, returns the same response
    and leaves the same cached path and the same six diagnostic fields,
    the most recent interface among them, as on the original. *)
Theorem prioritize_does_not_change_exchange
    (env : hid_env) (d : Dev.t) (report : list Z) (label : string)
    (h : list hid_call) :
  exists d1,
    _prioritize_device_interfaces (Some d) = Some d1
    /\ Dev.interfaces d1
       = sort_by_key (sort_key (Dev.preferred_interface_path d)) (Dev.interfaces d)
    /\ Dev.interfaces d1 ≡ₚ Dev.interfaces d
    /\ _prioritize_device_interfaces (Some d1) = Some d1
    /\ fst (fst (send_and_receive_report env d1 report label h))
       = fst (fst (send_and_receive_report env d report label h))
    /\ snd (send_and_receive_report env d1 report label h)
       = snd (send_and_receive_report env d report label h)
    /\ Dev.preferred_interface_path (snd (fst (send_and_receive_report env d1 report label h)))
       = Dev.preferred_interface_path (snd (fst (send_and_receive_report env d report label h)))
    /\ diag_fields (snd (fst (send_and_receive_report env d1 report label h)))
       = diag_fields (snd (fst (send_and_receive_report env d report label h))).
Proof.
  eexists. split; [reflexivity|]. cbn [Dev.interfaces].
  split; [reflexivity|]. split; [apply sort_by_key_perm|].
  split.
  { cbn [_prioritize_device_interfaces Dev.interfaces Dev.preferred_interface_path
         Dev.name Dev.pid Dev.type Dev.transaction_id Dev._diag_last_ok
         Dev._diag_last_command Dev._diag_last_interface
         Dev._diag_last_attempted_interfaces Dev._diag_last_io_errors
         Dev._diag_last_open_failed_count].
    rewrite sort_by_key_idem. reflexivity. }
  unfold send_and_receive_report, diag_fields.
  cbn [Dev.interfaces Dev.preferred_interface_path].
  rewrite sort_by_key_idem.
  destruct (interfaces_loop _ _ _ _) as [[[iface r]|] st]; repeat split.
Qed.

End Prioritize.

(** * Properties of the menu-bar application's pure logic *)

Section Tray.

Lemma failure_backoff_values n :
  _failure_backoff n
  = if n <=? 1 then 30 else if n =? 2 then 60 else if n =? 3 then 120
    else if n =? 4 then 240 else 300.
Proof.
  unfold _failure_backoff, DISCONNECTED_POLL, MAX_FAILURE_BACKOFF.
  destruct (Z.leb_spec n 1) as [H1|H1]; [reflexivity|].
  destruct (Z.eqb_spec n 2) as [->|H2]; [reflexivity|].
  destruct (Z.eqb_spec n 3) as [->|H3]; [reflexivity|].
  destruct (Z.eqb_spec n 4) as [->|H4]; [reflexivity|].
  rewrite (Z.min_r (n - 1) 4) by lia. reflexivity.
Qed.

(** X17: the retry backoff is 30 seconds up to one consecutive failure,
    doubles with each further failure (60, 120, 240) and is capped at 300
    seconds from the fifth on; it never decreases when the failure count
    grows and always lies between 30 and 300. *)
Theorem failure_backoff_bounds :
  (forall n, 30 <= _failure_backoff n <= 300)
  /\ (forall n m, n <= m -> _failure_backoff n <= _failure_backoff m)
  /\ (forall n, n <= 1 -> _failure_backoff n = 30)
  /\ (forall n, 2 <= n <= 4 -> _failure_backoff n = 30 * 2 ^ (n - 1))
  /\ (forall n, 5 <= n -> _failure_backoff n = 300).
Proof.
  split; [|split; [|split; [|split]]].
  - intros n. rewrite failure_backoff_values.
    destruct (n <=? 1), (n =? 2), (n =? 3), (n =? 4); lia.
  - intros n m Hnm. rewrite !failure_backoff_values.
    destruct (Z.leb_spec n 1), (Z.eqb_spec n 2), (Z.eqb_spec n 3), (Z.eqb_spec n 4),
      (Z.leb_spec m 1), (Z.eqb_spec m 2), (Z.eqb_spec m 3), (Z.eqb_spec m 4); lia.
  - intros n Hn. rewrite failure_backoff_values.
    destruct (Z.leb_spec n 1); [reflexivity | lia].
  - intros n Hn. rewrite failure_backoff_values.
    assert (Hc : n = 2 \/ n = 3 \/ n = 4) by lia.
    destruct Hc as [->|[->| ->]]; reflexivity.
  - intros n Hn. rewrite failure_backoff_values.
    destruct (Z.leb_spec n 1), (Z.eqb_spec n 2), (Z.eqb_spec n 3), (Z.eqb_spec n 4);
      lia.
Qed.

(** X18: every state that [_get_icon_state] returns has an icon file name
    in [ICON_NAMES]; the state is a charging one exactly when the device
    charges, and otherwise it is critical up to 10, low up to 30, medium up
    to 60 and full above. *)
Theorem icon_state_has_icon (battery : Z) (charging : bool) :
  is_Some (ICON_NAMES !! _get_icon_state battery charging)
  /\ (charging = true ->
      _get_icon_state battery charging
      = if 30 <? battery then "charging"%string else "charging_low"%string)
  /\ (charging = false ->
      (battery <= 10 -> _get_icon_state battery charging = "critical"%string)
      /\ (10 < battery <= 30 -> _get_icon_state battery charging = "low"%string)
      /\ (30 < battery <= 60 -> _get_icon_state battery charging = "medium"%string)
      /\ (60 < battery -> _get_icon_state battery charging = "full"%string)).
Proof.
  split; [|split].
  - unfold _get_icon_state.
    destruct charging, (30 <? battery), (battery <=? 10), (battery <=? 30),
      (battery <=? 60); vm_compute; eauto.
  - intros ->. reflexivity.
  - intros ->. unfold _get_icon_state.
    destruct (Z.leb_spec battery 10), (Z.leb_spec battery 30), (Z.leb_spec battery 60);
      repeat split; intros; try reflexivity; lia.
Qed.

Lemma check_low_battery_cases notify threshold device battery notified :
  let step := _check_low_battery notify threshold device battery notified in
  (forall n, snd step = Some n ->
     notify = true /\ battery <= threshold /\ notified = false /\ fst step = true
     /\ snd n = battery)
  /\ (threshold < battery -> notify = true -> fst step = false)
  /\ (battery <= threshold -> notified = true -> fst step = true)
  /\ (notify = false -> step = (notified, None)).
Proof.
  cbn zeta. unfold _check_low_battery.
  destruct notify, notified, (Z.leb_spec battery threshold),
    (Z.ltb_spec threshold battery); cbn [negb andb fst snd];
    repeat split; intros; try congruence; try lia;
    match goal with
    | H : Some _ = Some _ |- _ => inversion H; reflexivity
    end.
Qed.

(** X19: the low-battery notification is not repeated while the battery
    stays low: over any sequence of readings the number of notifications is
    at most one for the first crossing plus one for every reading above the
    threshold, none fires when the alert is switched off or while the flag
    is set and the battery is at or below the threshold, and every
    notification reports a level at or below the threshold. *)
Theorem low_battery_not_repeated notify threshold device (readings : list Z) notified :
  let run := low_battery_run notify threshold device readings notified in
  (length (snd run)
   <= (if notified then 0 else 1)
      + length (List.filter (fun b => (threshold <? b)%Z) readings))%nat
  /\ Forall (fun n => snd n <= threshold) (snd run)
  /\ (notify = false -> snd run = [])
  /\ (Forall (fun b => b <= threshold) readings -> (length (snd run) <= 1)%nat).
Proof.
  cbn zeta.
  assert (G : forall readings notified,
             (length (snd (low_battery_run notify threshold device readings notified))
              <= (if notified then 0 else 1)
                 + length (List.filter (fun b => (threshold <? b)%Z) readings))%nat
             /\ Forall (fun n => snd n <= threshold)
                       (snd (low_battery_run notify threshold device readings notified))
             /\ (notify = false ->
                 snd (low_battery_run notify threshold device readings notified) = [])).
  { clear readings notified.
    induction readings as [|b rest IH]; intros notified.
    - cbn. split; [lia|]. split; [constructor | reflexivity].
    - cbn [low_battery_run List.filter snd fst].
      pose proof (check_low_battery_cases notify threshold device b notified) as Hc.
      cbn zeta in Hc. destruct Hc as (C1 & C2 & C3 & C4).
      destruct (IH (fst (_check_low_battery notify threshold device b notified)))
        as (I1 & I2 & I3).
      destruct (_check_low_battery notify threshold device b notified)
        as [flag [n|]] eqn:E; cbn [fst snd] in *.
      + destruct (C1 n eq_refl) as (Hn & Hb & Hf & Hflag & Hsnd). subst.
        assert (Hlt : (threshold <? snd n) = false) by (apply Z.ltb_ge; lia).
        rewrite Hlt. cbn [length]. split; [lia|]. split.
        * apply List.Forall_cons; [exact Hb | exact I2].
        * intros Hfalse. discriminate.
      + split; [|split; [exact I2 | exact I3]].
        destruct (Z.ltb_spec threshold b) as [Hlt|Hge]; cbn [length].
        * destruct flag, notified; lia.
        * destruct notified.
          -- destruct notify.
             ++ pose proof (C3 Hge eq_refl) as Hflag. subst flag. lia.
             ++ specialize (C4 eq_refl). inversion C4; subst. lia.
          -- destruct flag; lia. }
  destruct (G readings notified) as (G1 & G2 & G3).
  split; [exact G1|]. split; [exact G2|]. split; [exact G3|].
  intros Hall. rewrite filter_none in G1.
  - destruct notified; cbn in G1; lia.
  - eapply Forall_impl; [exact Hall|]. intros b Hb. apply Z.ltb_ge. exact Hb.
Qed.

End Tray.

(** * Properties of the settings *)

Section Settings.

Lemma setting_keys_NoDup : NoDup setting_keys.
Proof. refine (bool_decide_unpack _ _). vm_compute. exact I. Qed.

Lemma setting_keys_cases key :
  key ∈ setting_keys <->
  key = "poll_interval"%string \/ key = "low_battery_threshold"%string
  \/ key = "low_battery_notify"%string \/ key = "display_mode"%string
  \/ key = "launch_at_login"%string.
Proof.
  unfold setting_keys, DEFAULTS_items. cbn [fmap list_fmap fst].
  rewrite !elem_of_cons, elem_of_nil. tauto.
Qed.

Lemma SETTING_TYPES_keys key :
  is_Some (SETTING_TYPES !! key) <-> key ∈ setting_keys.
Proof.
  split.
  - intros [ty Hty]. apply elem_of_list_to_map_2 in Hty.
    apply setting_keys_cases.
    repeat (apply elem_of_cons in Hty; destruct Hty as [Hty|Hty];
            [inversion Hty; tauto|]).
    apply elem_of_nil in Hty. contradiction.
  - intros Hk. apply setting_keys_cases in Hk.
    destruct Hk as [->|[->|[->|[->| ->]]]]; vm_compute; eauto.
Qed.

Lemma DEFAULTS_keys key : is_Some (DEFAULTS !! key) <-> key ∈ setting_keys.
Proof.
  split.
  - intros [v Hv]. apply elem_of_list_to_map_2 in Hv.
    apply (list_elem_of_fmap_2 fst) in Hv. exact Hv.
  - intros Hk. apply setting_keys_cases in Hk.
    destruct Hk as [->|[->|[->|[->| ->]]]]; vm_compute; eauto.
Qed.

Lemma load_key_accepts saved data key :
  load_key saved data key
  = match saved !! key with
    | Some val => if accepts key val then <[key:=val]> data else data
    | None => data
    end.
Proof.
  unfold load_key, accepts. destruct (saved !! key) as [val|]; [|reflexivity].
  destruct (SETTING_TYPES !! key) as [ty|]; cbn [negb andb].
  - destruct (isinstance val ty); cbn [negb andb]; [|reflexivity].
    destruct (bool_decide _ && negb _); reflexivity.
  - destruct (bool_decide _ && negb _); reflexivity.
Qed.

Lemma load_key_lookup saved data key k :
  load_key saved data key !! k
  = if decide (k = key) then merged_value saved data key else data !! k.
Proof.
  rewrite load_key_accepts. unfold merged_value.
  destruct (decide (k = key)) as [->|Hne].
  - destruct (saved !! key) as [val|]; [|reflexivity].
    destruct (accepts key val); [apply lookup_insert_eq | reflexivity].
  - destruct (saved !! key) as [val|]; [|reflexivity].
    destruct (accepts key val); [|reflexivity].
    apply lookup_insert_ne. congruence.
Qed.

Lemma fold_load_lookup saved keys : NoDup keys -> forall data k,
  fold_left (load_key saved) keys data !! k
  = if decide (k ∈ keys) then merged_value saved data k else data !! k.
Proof.
  induction 1 as [|key keys Hnin Hnd IH]; intros data k; cbn [fold_left].
  - destruct (decide (k ∈ [])) as [Hin|_]; [|reflexivity].
    apply elem_of_nil in Hin. contradiction.
  - rewrite IH. destruct (decide (k = key)) as [->|Hne].
    + destruct (decide (key ∈ keys)) as [?|_]; [contradiction|].
      destruct (decide (key ∈ key :: keys)) as [_|Hn];
        [|exfalso; apply Hn, elem_of_cons; left; reflexivity].
      rewrite load_key_lookup.
      destruct (decide (key = key)); [reflexivity | contradiction].
    + destruct (decide (k ∈ keys)) as [Hin|Hn].
      * destruct (decide (k ∈ key :: keys)) as [_|Hn'];
          [|exfalso; apply Hn', elem_of_cons; right; exact Hin].
        unfold merged_value. rewrite load_key_lookup.
        destruct (decide (k = key)); [contradiction | reflexivity].
      * destruct (decide (k ∈ key :: keys)) as [Hin'|_].
        -- apply elem_of_cons in Hin'. destruct Hin'; contradiction.
        -- rewrite load_key_lookup.
           destruct (decide (k = key)); [contradiction | reflexivity].
Qed.

Lemma settings_load_lookup saved data key :
  settings_load (Holds (JDict saved)) data !! key
  = if decide (key ∈ setting_keys) then merged_value saved data key
    else data !! key.
Proof.
  unfold settings_load.
  apply (fold_load_lookup saved setting_keys setting_keys_NoDup).
Qed.

(** X20: [load] merges key by key: a key of [DEFAULTS] takes the value of
    the file when the file is a JSON object that has the key with a value
    of the right type (and a valid display mode), and keeps its value
    otherwise; keys that are not settings are ignored; a missing,
    unreadable or corrupt file and a JSON document that is not an object
    change nothing; loading the same file twice is loading it once. *)
Theorem settings_load_merges (data : gmap string jval) :
  (forall saved key,
      settings_load (Holds (JDict saved)) data !! key
      = if decide (key ∈ setting_keys) then merged_value saved data key
        else data !! key)
  /\ settings_load NoFile data = data
  /\ settings_load Unreadable data = data
  /\ settings_load Corrupt data = data
  /\ settings_load (Holds JNotDict) data = data
  /\ (forall file,
        settings_load file (settings_load file data) = settings_load file data).
Proof.
  pose proof settings_load_lookup as Hl.
  split; [intros saved key; apply Hl|]. repeat (split; [reflexivity|]).
  intros [| | |[saved|]]; try reflexivity.
  apply map_eq. intros key. rewrite !Hl.
  destruct (decide (key ∈ setting_keys)) as [Hin|Hn]; [|reflexivity].
  unfold merged_value. rewrite !Hl.
  destruct (decide (key ∈ setting_keys)) as [_|?]; [|contradiction].
  unfold merged_value.
  destruct (saved !! key) as [val|]; [|reflexivity].
  destruct (accepts key val); reflexivity.
Qed.

Lemma DEFAULTS_valid : settings_valid DEFAULTS.
Proof.
  split.
  - intros key val Hv.
    assert (Hk : key ∈ setting_keys) by (apply DEFAULTS_keys; eauto).
    split; [exact Hk|]. apply setting_keys_cases in Hk.
    destruct Hk as [->|[->|[->|[->| ->]]]];
      vm_compute in Hv; inversion Hv; vm_compute; reflexivity.
  - intros key Hk. apply DEFAULTS_keys. exact Hk.
Qed.

Lemma settings_load_valid file data :
  settings_valid data -> settings_valid (settings_load file data).
Proof.
  intros [Hacc Hall].
  destruct file as [| | |[saved|]]; try (split; assumption).
  pose proof (fun saved => settings_load_lookup saved data) as Hl.
  split.
  - intros key val. rewrite Hl.
    destruct (decide (key ∈ setting_keys)) as [Hin|Hn]; [|apply Hacc].
    unfold merged_value. destruct (saved !! key) as [v|] eqn:Hs; [|apply Hacc].
    destruct (accepts key v) eqn:Ha; [|apply Hacc].
    intros Hv. inversion Hv; subst. split; assumption.
  - intros key Hin. rewrite Hl.
    destruct (decide (key ∈ setting_keys)) as [_|?]; [|contradiction].
    unfold merged_value. destruct (saved !! key) as [v|]; [|apply Hall, Hin].
    destruct (accepts key v); [eauto | apply Hall, Hin].
Qed.

Lemma settings_set_Ok write_ok key value data file r :
  settings_set write_ok key value data file = Ok r <->
  key ∈ setting_keys /\ accepts key value = true
  /\ r = (<[key:=value]> data,
          settings_save write_ok (<[key:=value]> data) file).
Proof.
  unfold settings_set, accepts. rewrite <- SETTING_TYPES_keys.
  destruct (SETTING_TYPES !! key) as [ty|].
  2:{ split; [discriminate|]. intros [[? ?] _]. discriminate. }
  destruct ty, value; cbn [isinstance negb andb];
    try (split; [discriminate | intros (_ & ? & _); discriminate]);
    destruct (bool_decide (key = "display_mode"%string) && negb _);
    cbn [negb andb];
    try (split; [discriminate | intros (_ & ? & _); discriminate]);
    (split; [intros H; inversion H; eauto | intros (_ & _ & ->); reflexivity]).
Qed.

Lemma settings_set_valid write_ok key value data file data' file' :
  settings_valid data ->
  settings_set write_ok key value data file = Ok (data', file') ->
  settings_valid data'.
Proof.
  intros [Hacc Hall] Hset. apply settings_set_Ok in Hset.
  destruct Hset as (Hk & Ha & Hr). inversion Hr; subst. clear Hr.
  split.
  - intros k v. destruct (decide (k = key)) as [->|Hne].
    + rewrite lookup_insert_eq. intros Hv. inversion Hv; subst. split; assumption.
    + rewrite lookup_insert_ne by congruence. apply Hacc.
  - intros k Hin. destruct (decide (k = key)) as [->|Hne].
    + rewrite lookup_insert_eq. eauto.
    + rewrite lookup_insert_ne by congruence. apply Hall, Hin.
Qed.

Lemma settings_valid_get data key :
  settings_valid data -> key ∈ setting_keys ->
  exists val, settings_get data key = Some val /\ data !! key = Some val
              /\ accepts key val = true.
Proof.
  intros [Hacc Hall] Hin. destruct (Hall key Hin) as [val Hv].
  exists val. unfold settings_get. rewrite Hv.
  repeat split. apply (Hacc key val Hv).
Qed.

(** X21: the settings object always holds exactly the five settings, each
    with a value of its type: this holds for the defaults, after
    [Settings()] on any file, and is kept by [load] and by a [set] that
    returns.  So the flags read back as bools, the display mode as one of
    the three valid modes, and the two numeric settings as ints (a bool
    counts as an int). *)
Theorem settings_stay_valid :
  settings_valid DEFAULTS
  /\ (forall file, settings_valid (settings_init file))
  /\ (forall file data, settings_valid data -> settings_valid (settings_load file data))
  /\ (forall write_ok key value data file data' file',
        settings_valid data ->
        settings_set write_ok key value data file = Ok (data', file') ->
        settings_valid data')
  /\ (forall data, settings_valid data ->
        (exists b, settings_get data "low_battery_notify" = Some (JBool b))
        /\ (exists b, settings_get data "launch_at_login" = Some (JBool b))
        /\ (exists s, settings_get data "display_mode" = Some (JStr s)
                      /\ s ∈ VALID_DISPLAY_MODES)
        /\ (exists v, settings_get data "poll_interval" = Some v
                      /\ isinstance v TyInt = true)
        /\ (exists v, settings_get data "low_battery_threshold" = Some v
                      /\ isinstance v TyInt = true)).
Proof.
  split; [exact DEFAULTS_valid|].
  split; [intros file; apply settings_load_valid, DEFAULTS_valid|].
  split; [intros file data; apply settings_load_valid|].
  split; [intros *; apply settings_set_valid|].
  intros data Hvalid.
  assert (Hget : forall key, key ∈ setting_keys ->
            exists val, settings_get data key = Some val /\ accepts key val = true).
  { intros key Hin. destruct (settings_valid_get data key Hvalid Hin) as (v & ? & _ & ?).
    eauto. }
  repeat split.
  - destruct (Hget "low_battery_notify"%string) as (v & Hv & Ha).
    { apply setting_keys_cases. tauto. }
    destruct v; try discriminate Ha. eauto.
  - destruct (Hget "launch_at_login"%string) as (v & Hv & Ha).
    { apply setting_keys_cases. tauto. }
    destruct v; try discriminate Ha. eauto.
  - destruct (Hget "display_mode"%string) as (v & Hv & Ha).
    { apply setting_keys_cases. tauto. }
    destruct v as [z|b|s|]; try discriminate Ha.
    exists s. split; [exact Hv|].
    unfold accepts in Ha. apply andb_true_iff in Ha. destruct Ha as [_ Ha].
    apply negb_true_iff, andb_false_iff in Ha.
    destruct Ha as [Ha|Ha]; [vm_compute in Ha; discriminate|].
    apply negb_false_iff in Ha. cbn [in_valid_display_modes] in Ha.
    apply bool_decide_eq_true in Ha. exact Ha.
  - destruct (Hget "poll_interval"%string) as (v & Hv & Ha).
    { apply setting_keys_cases. tauto. }
    exists v. split; [exact Hv|]. destruct v; try discriminate Ha; reflexivity.
  - destruct (Hget "low_battery_threshold"%string) as (v & Hv & Ha).
    { apply setting_keys_cases. tauto. }
    exists v. split; [exact Hv|]. destruct v; try discriminate Ha; reflexivity.
Qed.

(** X22: [set] checks before it stores: a key that is not a setting raises
    ValueError; a value that [load] would not accept for the key raises
    TypeError or ValueError, an int for a bool setting raising TypeError
    although a bool for an int setting is stored; otherwise the value
    is stored under the key, [get] returns it, every other key reads as
    before, and the file holds the new settings when the write succeeds
    and is left as it was when the write fails. *)
Theorem settings_set_checks write_ok key value data file :
  (key ∉ setting_keys ->
   exists msg, settings_set write_ok key value data file = Raise (ValueError msg))
  /\ (key ∈ setting_keys -> accepts key value = false ->
      exists msg, settings_set write_ok key value data file = Raise (TypeError msg)
                  \/ settings_set write_ok key value data file = Raise (ValueError msg))
  /\ (forall z, SETTING_TYPES !! key = Some TyBool -> value = JInt z ->
      exists msg, settings_set write_ok key value data file = Raise (TypeError msg))
  /\ (forall b, SETTING_TYPES !! key = Some TyInt -> value = JBool b ->
      exists r, settings_set write_ok key value data file = Ok r)
  /\ (key ∈ setting_keys -> accepts key value = true ->
      exists data' file',
        settings_set write_ok key value data file = Ok (data', file')
        /\ settings_get data' key = Some value
        /\ (forall k, k <> key -> settings_get data' k = settings_get data k)
        /\ file' = (if write_ok then Holds (JDict data') else file)).
Proof.
  split; [|split; [|split; [|split]]].
  - intros Hn. unfold settings_set.
    destruct (SETTING_TYPES !! key) as [ty|] eqn:Hty; [|eauto].
    exfalso. apply Hn, SETTING_TYPES_keys. eauto.
  - intros Hin Ha.
    destruct (settings_set write_ok key value data file) as [r|e] eqn:Hset.
    { apply settings_set_Ok in Hset. destruct Hset as (_ & Ha' & _). congruence. }
    clear Ha. unfold settings_set in Hset.
    destruct (SETTING_TYPES !! key) as [ty|];
      [|inversion Hset; eauto].
    destruct (_ && _ && _); [inversion Hset; eauto|].
    destruct (negb (isinstance value ty)); [inversion Hset; eauto|].
    destruct (_ && _); [inversion Hset; eauto | discriminate].
  - intros z Hty ->. unfold settings_set. rewrite Hty. cbn. eauto.
  - intros b Hty ->. unfold settings_set. rewrite Hty. cbn [isinstance negb andb].
    destruct (bool_decide (key = "display_mode"%string)) eqn:Hd; [|cbn; eauto].
    apply bool_decide_eq_true in Hd. subst key. vm_compute in Hty. discriminate.
  - intros Hin Ha. eexists _, _. split.
    { apply settings_set_Ok. eauto. }
    split; [|split].
    + unfold settings_get. rewrite lookup_insert_eq. reflexivity.
    + intros k Hne. unfold settings_get. rewrite lookup_insert_ne by congruence.
      reflexivity.
    + reflexivity.
Qed.

(** X23: what [set] saves is what the next start reads.  From valid
    settings, after a [set] that returns and whose write succeeded,
    [Settings()] on the written file gives exactly the settings in memory;
    when the write failed the file is the one from before. *)
Theorem settings_round_trip write_ok key value data file data' file' :
  settings_valid data ->
  settings_set write_ok key value data file = Ok (data', file') ->
  (write_ok = true -> settings_init file' = data')
  /\ (write_ok = false -> file' = file).
Proof.
  intros Hvalid Hset.
  pose proof (settings_set_valid _ _ _ _ _ _ _ Hvalid Hset) as [Hacc Hall].
  apply settings_set_Ok in Hset. destruct Hset as (_ & _ & Hr).
  inversion Hr as [[Hd Hf]]. clear Hr. subst data' file'.
  split; intros ->; cbn [settings_save]; [|reflexivity].
  unfold settings_init.
  pose proof (fun saved => settings_load_lookup saved DEFAULTS) as Hl.
  apply map_eq. intros k. rewrite Hl.
  destruct (decide (k ∈ setting_keys)) as [Hin|Hn].
  - unfold merged_value. destruct (Hall k Hin) as [v Hv]. rewrite Hv.
    destruct (Hacc k v Hv) as [_ ->]. reflexivity.
  - destruct (DEFAULTS !! k) as [v|] eqn:Hv.
    { exfalso. apply Hn, DEFAULTS_keys. eauto. }
    destruct (<[key:=value]> data !! k) as [v|] eqn:Hv'; [|reflexivity].
    exfalso. apply Hn. apply (Hacc k v Hv').
Qed.

Lemma settings_round_trip_witness :
  let data' := <["poll_interval"%string := JInt 60]> DEFAULTS in
  settings_valid DEFAULTS
  /\ settings_set true "poll_interval" (JInt 60) DEFAULTS NoFile
     = Ok (data', Holds (JDict data'))
  /\ settings_init (Holds (JDict data')) = data'.
Proof.
  cbn zeta. split; [exact DEFAULTS_valid|]. split; [reflexivity|].
  exact (proj1 (settings_round_trip true "poll_interval" (JInt 60) DEFAULTS NoFile
                  _ _ DEFAULTS_valid eq_refl) eq_refl).
Defined.

End Settings.
